(** * Credential ingestion and proof-request selection (tob-api, api_v2.indy)

    A shallow embedding of [api_v2/indy/credential.py] and
    [api_v2/indy/proof.py]: the decoded [Credential] view, the
    [CredentialManager] that turns a credential into application records
    under an issuer supplied processor configuration, and the
    [ProofManager] that picks stored credentials for a proof request.

    Python objects are modelled by explicit data: dictionaries are
    insertion ordered association lists, exceptions are values of [exn],
    and code that reads or writes the database threads a [db] value. *)

From Stdlib Require Import String Ascii List ZArith Bool Arith Lia.
From Equations Require Import Equations.
Import ListNotations.
Open Scope string_scope.

(* ===================================================================== *)
(** ** Python dictionaries with string keys *)
(* ===================================================================== *)

Module PyDict.

Section Dict.
Context {V : Type}.

(** A [dict] keeps its keys in insertion order; iterating it yields
    [keys] from left to right. *)
Definition dict := list (string * V).

(** [d[k]], [None] standing for the [KeyError]. *)
Fixpoint get (k : string) (d : dict) : option V :=
  match d with
  | [] => None
  | (k', v) :: rest => if String.eqb k k' then Some v else get k rest
  end.

(** [d[k] = v]: an existing key keeps its place, a new one goes last. *)
Fixpoint set (k : string) (v : V) (d : dict) : dict :=
  match d with
  | [] => [(k, v)]
  | (k', v') :: rest =>
      if String.eqb k k' then (k', v) :: rest else (k', v') :: set k v rest
  end.

Definition keys (d : dict) : list string := map fst d.

(** [k in d]. *)
Definition mem (k : string) (d : dict) : bool :=
  match get k d with Some _ => true | None => false end.

End Dict.

Arguments dict V : clear implicits.

End PyDict.

Abbreviation dict := PyDict.dict.

(* ===================================================================== *)
(** ** Raw credential data, Python values, exceptions *)
(* ===================================================================== *)

(** One entry of [credential_data["values"]]. *)
Record claim_entry := {
  raw : string;
  encoded : string
}.

(** The credential as sent by an issuer.  The parts the ingestion code
    only passes along are kept as serialized text. *)
Record credential_data := {
  schema_id : string;
  cred_def_id : string;
  rev_reg_id : option string;
  signature : string;
  signature_correctness_proof : string;
  rev_reg : option string;
  witness : option string;
  values : dict claim_entry
}.

(** The Python values that flow through attribute access, the processor
    pipeline and the record columns. *)
Inductive pyval :=
| PNone
| PStr (s : string)
| PInt (z : Z)
| PBool (b : bool)
| PDateTime (t : nat)
| PStrList (l : list string)
| PCredData (d : credential_data)
| PObject (what : string).

Inductive exn :=
| CredentialException (msg : string)
| AttributeError (msg : string)
| KeyError (key : string)
| IndexError (msg : string)
| ValueError (msg : string)
| DoesNotExist (model : string)
| MultipleObjectsReturned (model : string)
| ProcessorError (msg : string).

(** The result of running Python code: a value or a raised exception. *)
Inductive outcome (A : Type) :=
| Ok (a : A)
| Raise (e : exn).
Arguments Ok {A} a.
Arguments Raise {A} e.

Definition obind {A B} (m : outcome A) (k : A -> outcome B) : outcome B :=
  match m with
  | Ok a => k a
  | Raise e => Raise e
  end.

Declare Scope outcome_scope.
Delimit Scope outcome_scope with outcome.
Notation "x <- m ;; k" := (obind m (fun x => k))
  (at level 61, m at next level, right associativity) : outcome_scope.

(** Equality of Python values ([==] on the values modelled here). *)
Definition option_string_dec (a b : option string) : {a = b} + {a <> b}.
Proof. decide equality; apply string_dec. Defined.

Definition claim_entry_dec (a b : claim_entry) : {a = b} + {a <> b}.
Proof. decide equality; apply string_dec. Defined.

Definition credential_data_dec (a b : credential_data) : {a = b} + {a <> b}.
Proof.
  decide equality; try apply string_dec; try apply option_string_dec.
  apply list_eq_dec. intros [k1 e1] [k2 e2].
  destruct (string_dec k1 k2); [| right; congruence].
  destruct (claim_entry_dec e1 e2); [left | right]; congruence.
Defined.

Definition pyval_dec (a b : pyval) : {a = b} + {a <> b}.
Proof.
  decide equality; try apply string_dec.
  - apply Z.eq_dec.
  - apply bool_dec.
  - apply Nat.eq_dec.
  - apply list_eq_dec, string_dec.
  - apply credential_data_dec.
Defined.

Definition pyval_eqb (a b : pyval) : bool :=
  if pyval_dec a b then true else false.

(* ===================================================================== *)
(** ** The [Credential] class *)
(* ===================================================================== *)

(** [von_agent.util.schema_key] splits a schema identifier. *)
Record SchemaKey := {
  origin_did : string;
  name : string;
  version : string
}.

(** The instance attributes set by [Credential.__init__]. *)
Record Credential := {
  _raw : credential_data;
  _schema_id : string;
  _cred_def_id : string;
  _rev_reg_id : option string;
  _signature : string;
  _signature_correctness_proof : string;
  _rev_reg : option string;
  _witness : option string;
  _claim_attributes : list string
}.

(** [Credential.__init__]: the claim attribute names are the keys of
    [credential_data["values"]], in order. *)
Definition Credential__init__ (data : credential_data) : Credential :=
  {| _raw := data;
     _schema_id := schema_id data;
     _cred_def_id := cred_def_id data;
     _rev_reg_id := rev_reg_id data;
     _signature := signature data;
     _signature_correctness_proof := signature_correctness_proof data;
     _rev_reg := rev_reg data;
     _witness := witness data;
     _claim_attributes :=
       fold_left (fun acc claim_attribute => (acc ++ [claim_attribute])%list)
                 (PyDict.keys (values data)) [] |}.

Definition of_option_string (o : option string) : pyval :=
  match o with Some s => PStr s | None => PNone end.

(** The attributes every instance inherits from [object], and the two
    methods the class defines; none of them is a claim. *)
Definition object_members : list string :=
  [ "__init__"; "__getattr__"; "__class__"; "__delattr__"; "__dict__";
    "__dir__"; "__doc__"; "__eq__"; "__format__"; "__ge__";
    "__getattribute__"; "__gt__"; "__hash__"; "__init_subclass__";
    "__le__"; "__lt__"; "__module__"; "__ne__"; "__new__"; "__reduce__";
    "__reduce_ex__"; "__repr__"; "__setattr__"; "__sizeof__"; "__str__";
    "__subclasshook__"; "__weakref__" ].

Section CredentialClass.

(** Library functions the class calls. *)
Variable schema_key : string -> SchemaKey.
Variable json_dumps : credential_data -> string.

(** The properties of the class. *)
Definition Credential_raw (self : Credential) : credential_data := _raw self.
Definition Credential_json (self : Credential) : string := json_dumps (_raw self).
Definition Credential_origin_did (self : Credential) : string :=
  origin_did (schema_key (_schema_id self)).
Definition Credential_schema_name (self : Credential) : string :=
  name (schema_key (_schema_id self)).
Definition Credential_schema_version (self : Credential) : string :=
  version (schema_key (_schema_id self)).
Definition Credential_claim_attributes (self : Credential) : list string :=
  _claim_attributes self.

(** Ordinary attribute lookup: the properties, the instance attributes,
    and what comes with the class. *)
Definition predefined_member (self : Credential) (name : string) : option pyval :=
  if name =? "raw" then Some (PCredData (Credential_raw self))
  else if name =? "json" then Some (PStr (Credential_json self))
  else if name =? "origin_did" then Some (PStr (Credential_origin_did self))
  else if name =? "schema_name" then Some (PStr (Credential_schema_name self))
  else if name =? "schema_version" then Some (PStr (Credential_schema_version self))
  else if name =? "claim_attributes" then Some (PStrList (Credential_claim_attributes self))
  else if name =? "_raw" then Some (PCredData (_raw self))
  else if name =? "_schema_id" then Some (PStr (_schema_id self))
  else if name =? "_cred_def_id" then Some (PStr (_cred_def_id self))
  else if name =? "_rev_reg_id" then Some (of_option_string (_rev_reg_id self))
  else if name =? "_signature" then Some (PStr (_signature self))
  else if name =? "_signature_correctness_proof"
       then Some (PStr (_signature_correctness_proof self))
  else if name =? "_rev_reg" then Some (of_option_string (_rev_reg self))
  else if name =? "_witness" then Some (of_option_string (_witness self))
  else if name =? "_claim_attributes" then Some (PStrList (_claim_attributes self))
  else if existsb (String.eqb name) object_members then Some (PObject name)
  else None.

(** [Credential.__getattr__]: the raw value of the claim [name]. *)
Definition Credential__getattr__ (self : Credential) (name : string) : outcome pyval :=
  match PyDict.get name (values (Credential_raw self)) with
  | Some entry => Ok (PStr (raw entry))
  | None =>
      Raise (AttributeError
               ("'Credential' object has no attribute '" ++ name ++ "'"))
  end.

(** [getattr(credential, name)]: Python calls [__getattr__] only when
    ordinary lookup finds nothing. *)
Definition getattr (self : Credential) (name : string) : outcome pyval :=
  match predefined_member self name with
  | Some v => Ok v
  | None => Credential__getattr__ self name
  end.

End CredentialClass.

(* ===================================================================== *)
(** ** Processor configuration and the value pipeline *)
(* ===================================================================== *)

Definition PROCESSOR_FUNCTION_BASE_PATH : string := "api_v2.processor".

(** A processor function takes the current field value and returns the
    next one (or raises). *)
Definition pyfun := pyval -> outcome pyval.

(** One entry of a rule's ["fields"]; every key may be missing. *)
Record field_data := {
  input : option string;
  from : option string;
  processor : option (list string)
}.

(** One rule of a [processor_config]. *)
Record model_mapper := {
  model : string;
  cardinality_fields : option (list string);
  fields : dict field_data
}.

(** [s.rsplit(sep, 1)] when it yields two parts; [None] when [sep] does
    not occur and the result has one part only. *)
Fixpoint rsplit1 (sep : ascii) (s : string) : option (string * string) :=
  match s with
  | EmptyString => None
  | String c rest =>
      match rsplit1 sep rest with
      | Some (a, b) => Some (String c a, b)
      | None => if Ascii.eqb c sep then Some (EmptyString, rest) else None
      end
  end.

(** [list.pop()]: the last element and the list without it. *)
Definition list_pop {A} (l : list A) : option (list A * A) :=
  match l with
  | [] => None
  | x :: _ => Some (removelast l, last l x)
  end.

Lemma list_pop_length {A} (l rest : list A) (x : A) :
  list_pop l = Some (rest, x) -> length rest < length l.
Proof.
  destruct l as [| a l]; [discriminate |].
  unfold list_pop. intros H. injection H as <- _.
  assert (Hne : a :: l <> []) by discriminate.
  pose proof (app_removelast_last a Hne) as E.
  apply (f_equal (@length A)) in E. rewrite length_app in E. simpl in *. lia.
Defined.

Definition inspect {A} (a : A) : {b : A | a = b} := exist _ a eq_refl.

(** [while len(pipeline) > 0: function = pipeline.pop();
    field_value = function(field_value)]. *)
Equations? while_pop (pipeline : list pyfun) (field_value : pyval) : outcome pyval
  by wf (length pipeline) lt :=
  while_pop pipeline field_value with inspect (list_pop pipeline) => {
    | exist _ None _ => Ok field_value
    | exist _ (Some (rest, function)) Hpop with function field_value => {
        | Ok next_value => while_pop rest next_value
        | Raise e => Raise e } }.
Proof. eapply list_pop_length; eassumption. Defined.

(** [pipeline.reverse()] followed by the loop. *)
Definition run_pipeline (pipeline : list pyfun) (field_value : pyval) : outcome pyval :=
  while_pop (rev pipeline) field_value.

(** [processed_values[field] = field_value], then the replacement of the
    string ['None'] by [None]. *)
Definition NONE_STRING : string := "None".

Definition store_processed_value (field : string) (field_value : pyval)
    (processed_values : dict pyval) : dict pyval :=
  let processed_values := PyDict.set field field_value processed_values in
  match PyDict.get field processed_values with
  | Some v =>
      if pyval_eqb v (PStr NONE_STRING)
      then PyDict.set field PNone processed_values
      else processed_values
  | None => processed_values
  end.

Section Processor.

Variable schema_key : string -> SchemaKey.
Variable json_dumps : credential_data -> string.

(** [import_module(path)]: the functions of the module, by name; [None]
    is [ModuleNotFoundError]. *)
Variable import_module : string -> option (string -> option pyfun).

(** Lines 279 to 305: the function a dotted name refers to. *)
Definition resolve_function (function_path_with_name : string) : outcome pyfun :=
  match rsplit1 "."%char function_path_with_name with
  | None => Raise (ValueError "not enough values to unpack (expected 2, got 1)")
  | Some (function_path, function_name) =>
      match import_module (PROCESSOR_FUNCTION_BASE_PATH ++ "." ++ function_path) with
      | None =>
          Raise (CredentialException
                   ("No processor module named '" ++ function_path ++ "'"))
      | Some function_module =>
          match function_module function_name with
          | None =>
              Raise (CredentialException
                       ("Module '" ++ function_path ++ "' has no function '"
                        ++ function_name ++ "'."))
          | Some function => Ok function
          end
      end
  end.

(** The loop that builds [pipeline] from the dotted names. *)
Fixpoint build_pipeline (processor : list string) (pipeline : list pyfun)
  : outcome (list pyfun) :=
  match processor with
  | [] => Ok pipeline
  | function_path_with_name :: rest =>
      (function <- resolve_function function_path_with_name ;;
       build_pipeline rest (pipeline ++ [function])%list)%outcome
  end.

(** The base value of a field: the literal or the claim. *)
Definition base_value (credential : Credential) (_input _from : string) : outcome pyval :=
  if _from =? "value" then Ok (PStr _input)
  else if _from =? "claim" then getattr schema_key json_dumps credential _input
  else Raise (CredentialException
                ("Supported field from values are 'value' and 'claim'"
                 ++ " but received '" ++ _from ++ "'")).

(** The value of one field before it is stored in [processed_values]. *)
Definition field_value_of (credential : Credential) (fd : field_data) : outcome pyval :=
  match input fd, from fd with
  | Some _input, Some _from =>
      (field_value <- base_value credential _input _from ;;
       match processor fd with
       | Some processor =>
           pipeline <- build_pipeline processor [] ;;
           run_pipeline pipeline field_value
       | None => Ok field_value
       end)%outcome
  | _, _ =>
      Raise (CredentialException
               "Every field must specify 'input' and 'from' values.")
  end.

(** [for field in processor_config[i]["fields"]: ...]. *)
Fixpoint map_fields (credential : Credential) (all_fields : dict field_data)
    (todo : list string) (processed_values : dict pyval) : outcome (dict pyval) :=
  match todo with
  | [] => Ok processed_values
  | field :: rest =>
      match PyDict.get field all_fields with
      | None => Raise (KeyError field)
      | Some fd =>
          (field_value <- field_value_of credential fd ;;
           map_fields credential all_fields rest
             (store_processed_value field field_value processed_values))%outcome
      end
  end.

Definition processed_values_of (credential : Credential) (mm : model_mapper)
  : outcome (dict pyval) :=
  map_fields credential (fields mm) (PyDict.keys (fields mm)) [].

End Processor.

(* ===================================================================== *)
(** ** The application database *)
(* ===================================================================== *)

Record IssuerRow := {
  issuer_pk : nat;
  issuer_did : string
}.

Record SchemaRow := {
  schema_pk : nat;
  schema_origin_did : string;
  schema_name : string;
  schema_version : string
}.

Record CredentialTypeRow := {
  credential_type_pk : nat;
  ct_schema : nat;
  ct_issuer : nat;
  source_claim : string;
  processor_config : option (list model_mapper)
}.

Record SubjectRow := {
  subject_pk : nat;
  source_id : string
}.

Record CredentialRow := {
  credential_pk : nat;
  subject : nat;
  credential_type : nat
}.

Record ClaimRow := {
  claim_pk : nat;
  claim_credential : nat;
  claim_name : string;
  claim_value : pyval
}.

(** The record kinds of [SUPPORTED_MODELS_MAPPING]. *)
Inductive model_class := Name | Address | Person | Contact.

Definition SUPPORTED_MODELS_MAPPING (model_name : string) : option model_class :=
  if model_name =? "name" then Some Name
  else if model_name =? "address" then Some Address
  else if model_name =? "person" then Some Person
  else if model_name =? "contact" then Some Contact
  else None.

(** Modelled from the spec: the classes [Name], [Address], [Person] and
    [Contact] of [api_v2.models] are not among the sources.  A record has
    a primary key, a creation time, an end date (null while the record is
    current), the credentials it is associated with, and its data
    columns, which are null until assigned. *)
Record ModelRow := {
  pk : nat;
  create_timestamp : nat;
  end_date : pyval;
  columns : dict pyval;
  credentials : list nat
}.

(** Reading an attribute of a record. *)
Definition row_attr (row : ModelRow) (attr : string) : pyval :=
  if attr =? "end_date" then end_date row
  else if (attr =? "id") || (attr =? "pk") then PInt (Z.of_nat (pk row))
  else if attr =? "create_timestamp" then PDateTime (create_timestamp row)
  else match PyDict.get attr (columns row) with
       | Some v => v
       | None => PNone
       end.

(** [setattr(model, attr, value)] followed by [save], for the end date
    and the data columns: the names for which [data_field] below holds.
    For [id], [pk], [create_timestamp] and [credentials] the assignment
    reaches the primary key, the creation time or the relation, and what
    [save] then does is decided by the record classes, which are not
    among the sources; the definition does not describe it, and every
    theorem about the records an upsert leaves assumes [data_field] of
    each name the draft assigns. *)
Definition setattr_model (row : ModelRow) (attr : string) (value : pyval) : ModelRow :=
  if attr =? "end_date"
  then {| pk := pk row; create_timestamp := create_timestamp row;
          end_date := value; columns := columns row;
          credentials := credentials row |}
  else {| pk := pk row; create_timestamp := create_timestamp row;
          end_date := end_date row;
          columns := PyDict.set attr value (columns row);
          credentials := credentials row |}.

(** The attribute names a rule must leave alone for [setattr_model] and
    the query below to describe what Django does: the bookkeeping
    attributes, and names that Django reads as a lookup path. *)
Definition bookkeeping_attrs : list string :=
  [ "id"; "pk"; "create_timestamp"; "credentials" ].

Definition data_field (attr : string) : bool :=
  negb (existsb (String.eqb attr) bookkeeping_attrs)
  && match index 0 "__" attr with Some _ => false | None => true end.

Record db := {
  issuers : list IssuerRow;
  schemas : list SchemaRow;
  credential_types : list CredentialTypeRow;
  subjects : list SubjectRow;
  credential_rows : list CredentialRow;
  claims : list ClaimRow;
  names : list ModelRow;
  addresses : list ModelRow;
  people : list ModelRow;
  contacts : list ModelRow;
  clock : nat;
  wallet : list (string * string * string)
}.

Definition table_of (Model : model_class) (d : db) : list ModelRow :=
  match Model with
  | Name => names d
  | Address => addresses d
  | Person => people d
  | Contact => contacts d
  end.

Definition with_table (Model : model_class) (t : list ModelRow) (d : db) : db :=
  {| issuers := issuers d; schemas := schemas d;
     credential_types := credential_types d; subjects := subjects d;
     credential_rows := credential_rows d; claims := claims d;
     names := match Model with Name => t | _ => names d end;
     addresses := match Model with Address => t | _ => addresses d end;
     people := match Model with Person => t | _ => people d end;
     contacts := match Model with Contact => t | _ => contacts d end;
     clock := clock d; wallet := wallet d |}.

Definition with_subjects (t : list SubjectRow) (d : db) : db :=
  {| issuers := issuers d; schemas := schemas d;
     credential_types := credential_types d; subjects := t;
     credential_rows := credential_rows d; claims := claims d;
     names := names d; addresses := addresses d; people := people d;
     contacts := contacts d; clock := clock d; wallet := wallet d |}.

Definition with_credential_rows (t : list CredentialRow) (d : db) : db :=
  {| issuers := issuers d; schemas := schemas d;
     credential_types := credential_types d; subjects := subjects d;
     credential_rows := t; claims := claims d;
     names := names d; addresses := addresses d; people := people d;
     contacts := contacts d; clock := clock d; wallet := wallet d |}.

Definition with_claims (t : list ClaimRow) (d : db) : db :=
  {| issuers := issuers d; schemas := schemas d;
     credential_types := credential_types d; subjects := subjects d;
     credential_rows := credential_rows d; claims := t;
     names := names d; addresses := addresses d; people := people d;
     contacts := contacts d; clock := clock d; wallet := wallet d |}.

Definition with_clock (t : nat) (d : db) : db :=
  {| issuers := issuers d; schemas := schemas d;
     credential_types := credential_types d; subjects := subjects d;
     credential_rows := credential_rows d; claims := claims d;
     names := names d; addresses := addresses d; people := people d;
     contacts := contacts d; clock := t; wallet := wallet d |}.

Definition with_wallet (w : list (string * string * string)) (d : db) : db :=
  {| issuers := issuers d; schemas := schemas d;
     credential_types := credential_types d; subjects := subjects d;
     credential_rows := credential_rows d; claims := claims d;
     names := names d; addresses := addresses d; people := people d;
     contacts := contacts d; clock := clock d; wallet := w |}.

(** Code that reads and writes the database.  A raised exception does
    not undo the writes made before it: the source opens no transaction. *)
Definition M (A : Type) : Type := db -> outcome A * db.

Definition ret {A} (a : A) : M A := fun d => (Ok a, d).
Definition raise {A} (e : exn) : M A := fun d => (Raise e, d).
Definition lift {A} (o : outcome A) : M A := fun d => (o, d).
Definition bind {A B} (m : M A) (k : A -> M B) : M B :=
  fun d => match m d with
           | (Ok a, d') => k a d'
           | (Raise e, d') => (Raise e, d')
           end.

Declare Scope db_scope.
Delimit Scope db_scope with db.
Notation "x <~ m ;; k" := (bind m (fun x => k))
  (at level 61, m at next level, right associativity) : db_scope.
Notation "m ;;; k" := (bind m (fun _ => k))
  (at level 61, right associativity) : db_scope.

(** The next value of an auto-increment primary key. *)
Definition next_pk {R} (key : R -> nat) (table : list R) : nat :=
  S (list_max (map key table)).

(** [Model.objects.get(...)]. *)
Definition objects_get {R} (model_name : string) (p : R -> bool) (table : list R)
  : outcome R :=
  match filter p table with
  | [] => Raise (DoesNotExist model_name)
  | [r] => Ok r
  | _ :: _ :: _ => Raise (MultipleObjectsReturned model_name)
  end.

(** [timezone.now()]; the clock moves on with every reading. *)
Definition timezone_now : M nat :=
  fun d => (Ok (clock d), with_clock (S (clock d)) d).

(* ===================================================================== *)
(** ** Looking up and saving a record *)
(* ===================================================================== *)

(** The keyword arguments of [Model.objects.filter]: [model_args] starts
    with the subject and the null end date, and every cardinality field
    adds (or overwrites) an entry. *)
Definition missing_cardinality_message (cardinality_field : string)
    (processed_values : dict pyval) : string :=
  "Issuer configuration specifies field '" ++ cardinality_field ++ "' "
  ++ "in cardinality_fields value does not exist in "
  ++ "credential processor. Values are: "
  ++ String.concat ", " (PyDict.keys processed_values).

Fixpoint add_cardinality_args (cardinality_fields : list string)
    (processed_values : dict pyval) (model_args : dict pyval)
  : outcome (dict pyval) :=
  match cardinality_fields with
  | [] => Ok model_args
  | cardinality_field :: rest =>
      match PyDict.get cardinality_field processed_values with
      | Some v =>
          add_cardinality_args rest processed_values
            (PyDict.set cardinality_field v model_args)
      | None =>
          Raise (CredentialException
                   (missing_cardinality_message cardinality_field processed_values))
      end
  end.

Definition initial_model_args (subject_id : nat) : dict pyval :=
  [ ("credentials__subject__id", PInt (Z.of_nat subject_id));
    ("end_date", PNone) ].

Definition build_model_args (subject_id : nat) (cardinality_fields : list string)
    (processed_values : dict pyval) : outcome (dict pyval) :=
  add_cardinality_args cardinality_fields processed_values
    (initial_model_args subject_id).

(** A record belongs to a subject when one of its credentials does. *)
Definition belongs_to (credential_table : list CredentialRow) (row : ModelRow)
    (subject_id : pyval) : bool :=
  existsb (fun c =>
             existsb (fun cr => (credential_pk cr =? c)%nat
                                && pyval_eqb (PInt (Z.of_nat (subject cr))) subject_id)
                     credential_table)
          (credentials row).

(** One keyword argument of the filter, on one record. *)
Definition lookup_holds (credential_table : list CredentialRow) (row : ModelRow)
    (kw : string * pyval) : bool :=
  if fst kw =? "credentials__subject__id"
  then belongs_to credential_table row (snd kw)
  else pyval_eqb (row_attr row (fst kw)) (snd kw).

Definition row_matches (credential_table : list CredentialRow)
    (model_args : dict pyval) (row : ModelRow) : bool :=
  forallb (lookup_holds credential_table row) model_args.

(** [order_by("-create_timestamp")]. *)
Fixpoint insert_desc (r : ModelRow) (l : list ModelRow) : list ModelRow :=
  match l with
  | [] => [r]
  | x :: l' =>
      if (create_timestamp x <=? create_timestamp r)%nat
      then r :: l
      else x :: insert_desc r l'
  end.

Definition order_by_create_timestamp_desc (l : list ModelRow) : list ModelRow :=
  fold_right insert_desc [] l.

(** The query of lines 358 to 362: [filter] with [model_args],
    [order_by] the creation time, newest first, and [distinct]: a record
    is listed once however many of its credentials belong to the
    subject. *)
Definition query (credential_table : list CredentialRow) (table : list ModelRow)
    (model_args : dict pyval) : list ModelRow :=
  order_by_create_timestamp_desc (filter (row_matches credential_table model_args) table).

Definition set_end_date (value : pyval) (row : ModelRow) : ModelRow :=
  {| pk := pk row; create_timestamp := create_timestamp row;
     end_date := value; columns := columns row;
     credentials := credentials row |}.

(** [query.exclude(pk=model.id).update(end_date=now)]. *)
Definition end_date_others (credential_table : list CredentialRow)
    (model_args : dict pyval) (model_id now : nat) (table : list ModelRow)
  : list ModelRow :=
  map (fun r =>
         if row_matches credential_table model_args r && negb (pk r =? model_id)%nat
         then set_end_date (PDateTime now) r
         else r)
      table.

(** [for value in processed_values: setattr(model, value,
    processed_values[value])]. *)
Definition assign_processed_values (processed_values : dict pyval) (model : ModelRow)
  : ModelRow :=
  fold_left (fun m value =>
               match PyDict.get value processed_values with
               | Some v => setattr_model m value v
               | None => m
               end)
            (PyDict.keys processed_values) model.

(** [model.credentials.add(credential)]. *)
Definition add_credential (credential_id : nat) (row : ModelRow) : ModelRow :=
  {| pk := pk row; create_timestamp := create_timestamp row;
     end_date := end_date row; columns := columns row;
     credentials :=
       if existsb (Nat.eqb credential_id) (credentials row)
       then credentials row
       else (credentials row ++ [credential_id])%list |}.

(** [model.save()] of a record that exists: its row is overwritten. *)
Definition save_existing (model : ModelRow) (table : list ModelRow) : list ModelRow :=
  map (fun r => if (pk r =? pk model)%nat then model else r) table.

(** [Model()]. *)
Definition new_model (model_id now : nat) : ModelRow :=
  {| pk := model_id; create_timestamp := now; end_date := PNone;
     columns := []; credentials := [] |}.

(** Lines 357 to 385: find the record for the draft, retire the other
    matches, write the draft's values, associate the credential.  The
    association made by [model.credentials.add] is kept with the record,
    so it is set on the record that [save] writes. *)
Definition upsert (credential_table : list CredentialRow) (table : list ModelRow)
    (model_args processed_values : dict pyval) (credential_id now : nat)
  : list ModelRow :=
  match query credential_table table model_args with
  | model :: _ =>
      let table := end_date_others credential_table model_args (pk model) now table in
      let model := assign_processed_values processed_values model in
      save_existing (add_credential credential_id model) table
  | [] =>
      let model := new_model (next_pk pk table) now in
      let model := assign_processed_values processed_values model in
      (table ++ [add_credential credential_id model])%list
  end.

(* ===================================================================== *)
(** ** [CredentialManager] *)
(* ===================================================================== *)

Record CredentialManager := {
  credential : Credential;
  credential_definition_metadata : dict string
}.

Section Manager.

Variable schema_key : string -> SchemaKey.
Variable json_dumps : credential_data -> string.
Variable json_dumps_metadata : dict string -> string.
Variable import_module : string -> option (string -> option pyfun).

Local Open Scope db_scope.

(** [Subject.objects.get_or_create(source_id=source_id)]. *)
Definition get_or_create_subject (sid : string) : M SubjectRow :=
  fun d =>
    match filter (fun s => source_id s =? sid) (subjects d) with
    | [] =>
        let s := {| subject_pk := next_pk subject_pk (subjects d); source_id := sid |} in
        (Ok s, with_subjects (subjects d ++ [s]) d)
    | [s] => (Ok s, d)
    | _ :: _ :: _ => (Raise (MultipleObjectsReturned "Subject"), d)
    end.

(** [subject.credentials.create(subject=subject,
    credential_type=credential_type)]. *)
Definition create_credential (s : SubjectRow) (ct : CredentialTypeRow) : M CredentialRow :=
  fun d =>
    let c := {| credential_pk := next_pk credential_pk (credential_rows d);
                subject := subject_pk s;
                credential_type := credential_type_pk ct |} in
    (Ok c, with_credential_rows (credential_rows d ++ [c]) d).

(** [Claim.objects.create(credential=credential, name=..., value=...)]. *)
Definition create_claim (c : CredentialRow) (claim_attribute : string) (value : pyval)
  : M unit :=
  fun d =>
    let row := {| claim_pk := next_pk claim_pk (claims d);
                  claim_credential := credential_pk c;
                  claim_name := claim_attribute;
                  claim_value := value |} in
    (Ok tt, with_claims (claims d ++ [row]) d).

Fixpoint create_claims (self : CredentialManager) (c : CredentialRow)
    (claim_attributes : list string) : M unit :=
  match claim_attributes with
  | [] => ret tt
  | claim_attribute :: rest =>
      claim_value <~ lift (getattr schema_key json_dumps (credential self) claim_attribute) ;;
      create_claim c claim_attribute claim_value ;;;
      create_claims self c rest
  end.

(** The body of the loop over the rules of [processor_config]. *)
Definition apply_model_mapper (self : CredentialManager) (s : SubjectRow)
    (c : CredentialRow) (model_mapper : model_mapper) : M unit :=
  let model_name := model model_mapper in
  let cardinality_fields :=
    match cardinality_fields model_mapper with
    | Some l => l
    | None => []
    end in
  match SUPPORTED_MODELS_MAPPING model_name with
  | None =>
      raise (CredentialException ("Unsupported model type '" ++ model_name ++ "'"))
  | Some Model =>
      processed_values <~
        lift (processed_values_of schema_key json_dumps import_module
                (credential self) model_mapper) ;;
      model_args <~
        lift (build_model_args (subject_pk s) cardinality_fields processed_values) ;;
      now <~ timezone_now ;;
      fun d =>
        (Ok tt,
         with_table Model
           (upsert (credential_rows d) (table_of Model d) model_args
                   processed_values (credential_pk c) now) d)
  end.

Fixpoint apply_model_mappers (self : CredentialManager) (s : SubjectRow)
    (c : CredentialRow) (rules : list model_mapper) : M unit :=
  match rules with
  | [] => ret tt
  | model_mapper :: rest =>
      apply_model_mapper self s c model_mapper ;;;
      apply_model_mappers self s c rest
  end.

Definition populate_application_database (self : CredentialManager)
    (credential_type : CredentialTypeRow) (source_id : string) : M nat :=
  s <~ get_or_create_subject source_id ;;
  c <~ create_credential s credential_type ;;
  create_claims self c (Credential_claim_attributes (credential self)) ;;;
  match processor_config credential_type with
  | None | Some [] => ret (credential_pk c)
  | Some rules =>
      apply_model_mappers self s c rules ;;;
      ret (credential_pk c)
  end.

(** [store]: the credential goes to the wallet opened for
    [legal_entity_id]; the wallet is taken to accept it. *)
Definition store (self : CredentialManager) (legal_entity_id : string) : M unit :=
  fun d =>
    (Ok tt,
     with_wallet
       (wallet d ++ [(legal_entity_id,
                      Credential_json json_dumps (credential self),
                      json_dumps_metadata (credential_definition_metadata self))])
       d).

Definition unknown_issuer_message (self : CredentialManager) : string :=
  "Issuer with did '" ++ Credential_origin_did schema_key (credential self)
  ++ "' does not exist.".

Definition unknown_schema_message (self : CredentialManager) : string :=
  "Schema with origin_did"
  ++ " '" ++ Credential_origin_did schema_key (credential self)
  ++ "', name '" ++ Credential_schema_name schema_key (credential self)
  ++ "', and version '" ++ Credential_schema_version schema_key (credential self)
  ++ "' "
  ++ " does not exist.".

Definition missing_source_claim_message (self : CredentialManager)
    (ct : CredentialTypeRow) : string :=
  "Credential does not contain the configured source_claim "
  ++ "'" ++ source_claim ct ++ "'. Claims are: "
  ++ String.concat ", " (Credential_claim_attributes (credential self)).

(** The [try] block that fetches the issuer and the schema, with its two
    handlers. *)
Definition get_context (self : CredentialManager) (d : db)
  : outcome (IssuerRow * SchemaRow) :=
  let found :=
    (issuer <- objects_get "Issuer"
                 (fun i => issuer_did i =? Credential_origin_did schema_key (credential self))
                 (issuers d) ;;
     schema <- objects_get "Schema"
                 (fun s =>
                    (schema_origin_did s =? Credential_origin_did schema_key (credential self))
                    && (schema_name s =? Credential_schema_name schema_key (credential self))
                    && (schema_version s =? Credential_schema_version schema_key (credential self)))
                 (schemas d) ;;
     Ok (issuer, schema))%outcome in
  match found with
  | Raise (DoesNotExist m) =>
      if m =? "Issuer" then Raise (CredentialException (unknown_issuer_message self))
      else if m =? "Schema" then Raise (CredentialException (unknown_schema_message self))
      else Raise (DoesNotExist m)
  | other => other
  end.

Definition process (self : CredentialManager) : M nat :=
  ctx <~ (fun d => (get_context self d, d)) ;;
  let '(issuer, schema) := ctx in
  credential_type <~
    (fun d => (objects_get "CredentialType"
                 (fun ct => (ct_schema ct =? schema_pk schema)%nat
                            && (ct_issuer ct =? issuer_pk issuer)%nat)
                 (credential_types d), d)) ;;
  source_id <~
    lift (match getattr schema_key json_dumps (credential self)
                  (source_claim credential_type) with
          | Raise (AttributeError _) =>
              Raise (CredentialException
                       (missing_source_claim_message self credential_type))
          | other => other
          end) ;;
  c <~ populate_application_database self credential_type "source_id" ;;
  store self "source_id" ;;;
  ret c.

End Manager.

(* ===================================================================== *)
(** ** [ProofManager] *)
(* ===================================================================== *)

Module ProofSelection.

(** What the wallet offers for a proof request, after [json.loads]:
    for every requested attribute (and predicate) the candidate
    credentials, each with its [cred_info]. *)
Record cred_info_t := {
  referent : string;
  attrs_of : dict string
}.

Record candidate := {
  cred_info : cred_info_t
}.

Record credentials_for_proof_request_t := {
  attrs : dict (list candidate);
  predicates : dict (list candidate)
}.

(** The payload handed to [create_proof]; the inner dictionaries are
    built key by key, as in the source. *)
Record requested_credentials_t := {
  self_attested_attributes : dict pyval;
  requested_predicates : dict (dict pyval);
  requested_attributes : dict (dict pyval)
}.

Record Filter := {
  claim_name : string;
  claim_value : string
}.

(** [d[k][field] = v] on a dictionary of dictionaries. *)
Definition set_item (k field : string) (v : pyval) (d : dict (dict pyval))
  : outcome (dict (dict pyval)) :=
  match PyDict.get k d with
  | Some entry => Ok (PyDict.set k (PyDict.set field v entry) d)
  | None => Raise (KeyError k)
  end.

(** The loop of lines 45 to 56 over the names in
    [credentials_for_proof_request["attrs"]]. *)
Fixpoint select_attributes (all_attrs : dict (list candidate)) (todo : list string)
    (requested : dict (dict pyval)) : outcome (dict (dict pyval)) :=
  match todo with
  | [] => Ok requested
  | claim_name :: rest =>
      (let requested := PyDict.set claim_name [] requested in
       requested <- set_item claim_name "revealed" (PBool true) requested ;;
       candidates <- match PyDict.get claim_name all_attrs with
                     | Some l => Ok l
                     | None => Raise (KeyError claim_name)
                     end ;;
       first <- match candidates with
                | c :: _ => Ok c
                | [] => Raise (IndexError "list index out of range")
                end ;;
       requested <- set_item claim_name "cred_id"
                      (PStr (referent (cred_info first))) requested ;;
       select_attributes all_attrs rest requested)%outcome
  end.

(** Lines 39 to 56: the payload for the candidates the wallet returned. *)
Definition build_requested_credentials
    (credentials_for_proof_request : credentials_for_proof_request_t)
  : outcome requested_credentials_t :=
  (requested_attributes <-
     select_attributes (attrs credentials_for_proof_request)
       (PyDict.keys (attrs credentials_for_proof_request)) [] ;;
   Ok {| self_attested_attributes := [];
         requested_predicates := [];
         requested_attributes := requested_attributes |})%outcome.

Section Manager.

(** [api_v2.indy.proof_request.ProofRequest] and the wallet are given. *)
Variable ProofRequest : Type.
Variable get_creds : string -> ProofRequest -> credentials_for_proof_request_t.
Variable create_proof :
  string -> ProofRequest -> credentials_for_proof_request_t ->
  requested_credentials_t -> string.

Record ProofManager := {
  source_id : string;
  proof_request : ProofRequest;
  filters : list Filter
}.

Definition ProofManager__init__ (proof_request : ProofRequest) (source_id : string)
  : ProofManager :=
  {| source_id := source_id; proof_request := proof_request; filters := [] |}.

Definition add_filter (self : ProofManager) (claim_name claim_value : string)
  : ProofManager :=
  {| source_id := source_id self;
     proof_request := proof_request self;
     filters := (filters self
                 ++ [ {| claim_name := claim_name; claim_value := claim_value |} ])%list |}.

(** The payload [construct_proof_async] passes to [create_proof]. *)
Definition selection_payload (self : ProofManager) : outcome requested_credentials_t :=
  build_requested_credentials (get_creds (source_id self) (proof_request self)).

Definition construct_proof_async (self : ProofManager) : outcome string :=
  let credentials_for_proof_request := get_creds (source_id self) (proof_request self) in
  (requested_credentials <- build_requested_credentials credentials_for_proof_request ;;
   Ok (create_proof (source_id self) (proof_request self)
         credentials_for_proof_request requested_credentials))%outcome.

End Manager.

End ProofSelection.

(* ===================================================================== *)
(** ** The specification's reading of the pipeline, and sample inputs *)
(* ===================================================================== *)

(** The pipeline as the specification words it: the functions applied
    one after the other in the order they are listed. *)
Fixpoint apply_in_order (fs : list pyfun) (v : pyval) : outcome pyval :=
  match fs with
  | [] => Ok v
  | f :: rest => obind (f v) (apply_in_order rest)
  end.

(** What the specification expects under a field after lines 318 to
    323: null in place of the text ['None'], any other value as it is. *)
Definition normalized (v : pyval) : pyval :=
  if pyval_eqb v (PStr NONE_STRING) then PNone else v.

(** A processor function that never raises. *)
Definition pure_fun (f : pyval -> pyval) : pyfun := fun v => Ok (f v).

(** The credential of the ingestion scenario. *)
Definition scenario_data : credential_data :=
  {| schema_id := "did:sov:ABC:2:Test:1.0";
     cred_def_id := "did:sov:ABC:3:CL:1:tag";
     rev_reg_id := None;
     signature := "{}";
     signature_correctness_proof := "{}";
     rev_reg := None;
     witness := None;
     values := [ ("email", {| raw := "a@b.com"; encoded := "1" |});
                 ("legal_name", {| raw := "Acme"; encoded := "2" |}) ] |}.

Definition scenario_manager : CredentialManager :=
  {| credential := Credential__init__ scenario_data;
     credential_definition_metadata := [] |}.

(** The rule of the scenario: a contact whose email comes from the
    claim of that name, which is also its cardinality field. *)
Definition contact_rule : model_mapper :=
  {| model := "contact";
     cardinality_fields := Some ["email"];
     fields := [ ("email", {| input := Some "email"; from := Some "claim";
                              processor := None |}) ] |}.

(** A database that knows the issuer and the schema of [self]'s
    credential and holds the given credential types, and nothing else. *)
Definition configured_db (schema_key : string -> SchemaKey) (self : CredentialManager)
    (types : list CredentialTypeRow) : db :=
  {| issuers := [ {| issuer_pk := 1;
                     issuer_did := Credential_origin_did schema_key (credential self) |} ];
     schemas := [ {| schema_pk := 1;
                     schema_origin_did := Credential_origin_did schema_key (credential self);
                     schema_name := Credential_schema_name schema_key (credential self);
                     schema_version := Credential_schema_version schema_key (credential self) |} ];
     credential_types := types;
     subjects := []; credential_rows := []; claims := [];
     names := []; addresses := []; people := []; contacts := [];
     clock := 0; wallet := [] |}.

Definition scenario_credential_type (rules : list model_mapper) : CredentialTypeRow :=
  {| credential_type_pk := 1; ct_schema := 1; ct_issuer := 1;
     source_claim := "legal_name";
     processor_config := Some rules |}.

(** Two sample processor functions and the module that holds them. *)
Definition append_text (suffix : string) : pyfun :=
  fun v =>
    match v with
    | PStr s => Ok (PStr (s ++ suffix))
    | _ => Raise (ProcessorError "not a string")
    end.

Definition sample_import_module (path : string) : option (string -> option pyfun) :=
  if path =? "api_v2.processor.text"
  then Some (fun function_name =>
               if function_name =? "add_a" then Some (append_text "a")
               else if function_name =? "add_b" then Some (append_text "b")
               else None)
  else None.

Definition no_modules (path : string) : option (string -> option pyfun) := None.

(** A credential whose [expiry] claim carries the text ['None'], and a
    rule that copies it and a literal into a contact. *)
Definition expiry_data : credential_data :=
  {| schema_id := "did:sov:ABC:2:Test:1.0";
     cred_def_id := "did:sov:ABC:3:CL:1:tag";
     rev_reg_id := None;
     signature := "{}";
     signature_correctness_proof := "{}";
     rev_reg := None;
     witness := None;
     values := [ ("email", {| raw := "a@b.com"; encoded := "1" |});
                 ("expiry", {| raw := "None"; encoded := "2" |}) ] |}.

Definition expiry_rule : model_mapper :=
  {| model := "contact";
     cardinality_fields := Some ["email"];
     fields := [ ("email", {| input := Some "email"; from := Some "claim";
                              processor := None |});
                 ("expiry", {| input := Some "expiry"; from := Some "claim";
                               processor := None |});
                 ("kind", {| input := Some "work"; from := Some "value";
                             processor := Some [] |}) ] |}.

Definition sample_schema_key (schema_id : string) : SchemaKey :=
  {| origin_did := "did:sov:ABC"; name := "Test"; version := "1.0" |}.

Definition sample_json_dumps (data : credential_data) : string :=
  "{" ++ String.concat "," (PyDict.keys (values data)) ++ "}".

(** A credential with a claim called [raw] and one called
    [schema_name]. *)
Definition colliding_data : credential_data :=
  {| schema_id := "did:sov:ABC:2:Test:1.0";
     cred_def_id := "did:sov:ABC:3:CL:1:tag";
     rev_reg_id := None;
     signature := "{}";
     signature_correctness_proof := "{}";
     rev_reg := None;
     witness := None;
     values := [ ("raw", {| raw := "uncooked"; encoded := "1" |});
                 ("schema_name", {| raw := "claimed"; encoded := "2" |}) ] |}.

(** The names of the properties and of the instance attributes of
    [Credential]. *)
Definition property_names : list string :=
  [ "raw"; "json"; "origin_did"; "schema_name"; "schema_version";
    "claim_attributes" ].

Definition internal_names : list string :=
  [ "_raw"; "_schema_id"; "_cred_def_id"; "_rev_reg_id"; "_signature";
    "_signature_correctness_proof"; "_rev_reg"; "_witness";
    "_claim_attributes" ].

(** The entry of [requested_attributes] that selects candidate [c]. *)
Definition revealed_from (c : ProofSelection.candidate) : dict pyval :=
  [ ("revealed", PBool true);
    ("cred_id", PStr (ProofSelection.referent (ProofSelection.cred_info c))) ].

(** Wallet answers for a request that names [email_attr]: one candidate,
    and none. *)
Definition one_candidate : ProofSelection.credentials_for_proof_request_t :=
  {| ProofSelection.attrs :=
       [ ("email_attr",
          [ {| ProofSelection.cred_info :=
                 {| ProofSelection.referent := "cred-1";
                    ProofSelection.attrs_of := [("email", "a@b.com")] |} |} ]) ];
     ProofSelection.predicates := [] |}.

Definition no_candidate : ProofSelection.credentials_for_proof_request_t :=
  {| ProofSelection.attrs := [ ("email_attr", []) ];
     ProofSelection.predicates := [] |}.

(** A rule whose cardinality field [phone] is not among its fields. *)
Definition phone_rule : model_mapper :=
  {| model := "contact";
     cardinality_fields := Some ["phone"];
     fields := [ ("email", {| input := Some "email"; from := Some "claim";
                              processor := None |}) ] |}.

Definition sample_subject : SubjectRow := {| subject_pk := 1; source_id := "Acme" |}.

Definition sample_credential_row : CredentialRow :=
  {| credential_pk := 1; subject := 1; credential_type := 1 |}.

(** A credential type without processor configuration. *)
Definition bare_credential_type : CredentialTypeRow :=
  {| credential_type_pk := 1; ct_schema := 1; ct_issuer := 1;
     source_claim := "legal_name";
     processor_config := None |}.

(** The records the upsert of a draft is about: those that belong to
    the subject, have a null end date, and agree with the draft on every
    cardinality field. *)
Definition current_for (credential_table : list CredentialRow) (subject_id : nat)
    (cardinality_fields : list string) (processed_values : dict pyval)
    (row : ModelRow) : bool :=
  belongs_to credential_table row (PInt (Z.of_nat subject_id))
  && pyval_eqb (end_date row) PNone
  && forallb (fun cf =>
                match PyDict.get cf processed_values with
                | Some v => pyval_eqb (row_attr row cf) v
                | None => false
                end)
             cardinality_fields.

(** The credential [credential_id] is owned by the subject. *)
Definition owned_by (credential_table : list CredentialRow)
    (credential_id subject_id : nat) : bool :=
  existsb (fun cr => (credential_pk cr =? credential_id)%nat
                     && (subject cr =? subject_id)%nat)
          credential_table.

(** A draft that also assigns an end date, as an issuer does for a
    record it declares closed. *)
Definition closed_draft : dict pyval :=
  [ ("email", PStr "a@b.com"); ("end_date", PStr "2020-01-01") ].

Definition email_draft : dict pyval := [ ("email", PStr "a@b.com") ].

(** Two current contacts of subject 1 with the same email, as left
    behind by an earlier, finer set of cardinality fields. *)
Definition duplicate_contacts : list ModelRow :=
  [ {| pk := 1; create_timestamp := 1; end_date := PNone;
       columns := [ ("email", PStr "a@b.com"); ("kind", PStr "home") ];
       credentials := [1] |};
    {| pk := 2; create_timestamp := 2; end_date := PNone;
       columns := [ ("email", PStr "a@b.com"); ("kind", PStr "work") ];
       credentials := [1] |} ].

(** A credential that carries an end date, and a rule that copies it
    into the contact. *)
Definition closing_data : credential_data :=
  {| schema_id := "did:sov:ABC:2:Test:1.0";
     cred_def_id := "did:sov:ABC:3:CL:1:tag";
     rev_reg_id := None;
     signature := "{}";
     signature_correctness_proof := "{}";
     rev_reg := None;
     witness := None;
     values := [ ("email", {| raw := "a@b.com"; encoded := "1" |});
                 ("end_date", {| raw := "2020-01-01"; encoded := "2" |}) ] |}.

Definition closing_manager : CredentialManager :=
  {| credential := Credential__init__ closing_data;
     credential_definition_metadata := [] |}.

Definition closing_rule : model_mapper :=
  {| model := "contact";
     cardinality_fields := Some ["email"];
     fields := [ ("email", {| input := Some "email"; from := Some "claim";
                              processor := None |});
                 ("end_date", {| input := Some "end_date"; from := Some "claim";
                                 processor := None |}) ] |}.

(** A rule that reads a claim the scenario's credential does not have. *)
Definition phone_claim_rule : model_mapper :=
  {| model := "contact";
     cardinality_fields := None;
     fields := [ ("phone", {| input := Some "phone"; from := Some "claim";
                              processor := None |}) ] |}.

(** A credential type whose source claim the scenario's credential does
    not have. *)
Definition registration_credential_type : CredentialTypeRow :=
  {| credential_type_pk := 1; ct_schema := 1; ct_issuer := 1;
     source_claim := "registration_id";
     processor_config := None |}.

(** A database with nothing in it, and one that knows the issuer of the
    scenario only. *)
Definition empty_db : db :=
  {| issuers := []; schemas := []; credential_types := []; subjects := [];
     credential_rows := []; claims := []; names := []; addresses := [];
     people := []; contacts := []; clock := 0; wallet := [] |}.

Definition issuer_only_db : db :=
  {| issuers := [ {| issuer_pk := 1; issuer_did := "did:sov:ABC" |} ];
     schemas := []; credential_types := []; subjects := [];
     credential_rows := []; claims := []; names := []; addresses := [];
     people := []; contacts := []; clock := 0; wallet := [] |}.

(** A rule for a record kind that is not supported. *)
Definition vehicle_rule : model_mapper :=
  {| model := "vehicle"; cardinality_fields := None; fields := [] |}.

(** The keys of the database are unique: no two subjects share a
    source identifier, and no two rows of a table share a primary key. *)
Definition keys_unique (d : db) : Prop :=
  NoDup (map source_id (subjects d))
  /\ NoDup (map subject_pk (subjects d))
  /\ NoDup (map credential_pk (credential_rows d))
  /\ NoDup (map claim_pk (claims d))
  /\ NoDup (map pk (names d))
  /\ NoDup (map pk (addresses d))
  /\ NoDup (map pk (people d))
  /\ NoDup (map pk (contacts d)).

(** What the rules of a processor configuration leave alone. *)
Definition same_core (d d' : db) : Prop :=
  issuers d' = issuers d
  /\ schemas d' = schemas d
  /\ credential_types d' = credential_types d
  /\ subjects d' = subjects d
  /\ credential_rows d' = credential_rows d
  /\ claims d' = claims d
  /\ wallet d' = wallet d.

(** Lines 325 to 385 for one draft after the other, each with the
    credential it comes from and the time of its upsert: the filter
    arguments are built from the draft, then the draft is upserted. *)
Fixpoint upsert_all (credential_table : list CredentialRow) (subject_id : nat)
    (cardinality_fields : list string) (table : list ModelRow)
    (drafts : list (dict pyval * nat * nat)) : outcome (list ModelRow) :=
  match drafts with
  | [] => Ok table
  | (processed_values, credential_id, now) :: rest =>
      (model_args <- build_model_args subject_id cardinality_fields processed_values ;;
       upsert_all credential_table subject_id cardinality_fields
         (upsert credential_table table model_args processed_values credential_id now)
         rest)%outcome
  end.

(** What the upsert asks of a draft for the record it saves to be
    current: plain data fields, no end date other than null, and a
    credential of the subject. *)
Definition plain_draft (credential_table : list CredentialRow) (subject_id : nat)
    (draft : dict pyval * nat * nat) : Prop :=
  let '(processed_values, credential_id, _) := draft in
  (forall f, In f (PyDict.keys processed_values) -> data_field f = true)
  /\ (PyDict.get "end_date" processed_values = None
      \/ PyDict.get "end_date" processed_values = Some PNone)
  /\ owned_by credential_table credential_id subject_id = true.

(** Two drafts carry the same values in the cardinality fields. *)
Definition same_cardinality_values (cardinality_fields : list string)
    (pv pv' : dict pyval) : Prop :=
  forall cf, In cf cardinality_fields -> PyDict.get cf pv' = PyDict.get cf pv.

(** A second draft for the contacts of [duplicate_contacts]. *)
Definition work_draft : dict pyval :=
  [ ("email", PStr "a@b.com"); ("kind", PStr "work") ].

(** A third contact of subject 1, with another email. *)
Definition other_contact : ModelRow :=
  {| pk := 3; create_timestamp := 3; end_date := PNone;
     columns := [ ("email", PStr "c@d.com") ]; credentials := [1] |}.

(** [sep in s]. *)
Fixpoint has_char (sep : ascii) (s : string) : bool :=
  match s with
  | EmptyString => false
  | String c rest => Ascii.eqb c sep || has_char sep rest
  end.

(** A processor function that always raises. *)
Definition failing_fun : pyfun := fun _ => Raise (ProcessorError "failed").

Definition failing_import_module (path : string) : option (string -> option pyfun) :=
  if path =? "api_v2.processor.text"
  then Some (fun function_name =>
               if function_name =? "fail" then Some failing_fun else None)
  else None.

(* ===================================================================== *)
(** ** [tob_anchor.boot]: wallet configurations and service registration *)
(* ===================================================================== *)

Module Boot.

(** The configurations are dictionaries of texts and dictionaries. *)
#[warnings="-register-all"] Inductive json : Type :=
| JStr (s : string)
| JObj (members : list (string * json)).

(** The exceptions of [boot.py]: the plain [Exception] of a missing
    setting, the [ValueError]s, and the [KeyError] of a subscript. *)
Inductive error : Type :=
| Exception (message : string)
| ValueError (message : string)
| KeyError (key : string).

Inductive result (A : Type) : Type :=
| Return (a : A)
| Throw (e : error).

Arguments Return {A} a.
Arguments Throw {A} e.

Definition rbind {A B : Type} (m : result A) (k : A -> result B) : result B :=
  match m with
  | Return a => k a
  | Throw e => Throw e
  end.

Declare Scope result_scope.
Delimit Scope result_scope with result.
Notation "x <- m ;; k" := (rbind m (fun x => k))
  (at level 61, m at next level, right associativity) : result_scope.

(** [str.lower] on texts whose characters are below 256: the letters
    [A] to [Z] and the capital letters of the upper half (192 to 222,
    the multiplication sign 215 apart) move up by 32. *)
Definition lower_char (c : ascii) : ascii :=
  let n := nat_of_ascii c in
  if (Nat.leb 65 n && Nat.leb n 90)
     || (Nat.leb 192 n && Nat.leb n 222 && negb (Nat.eqb n 215))
  then ascii_of_nat (n + 32)
  else c.

Fixpoint lower (s : string) : string :=
  match s with
  | EmptyString => EmptyString
  | String c rest => String (lower_char c) (lower rest)
  end.

(** [os.environ]. *)
Definition environ_t := dict string.

(** The truth value of [os.environ.get(name)]: a variable that is unset
    and one set to the empty text are both false. *)
Definition is_set (value : option string) : bool :=
  match value with
  | Some (String _ _) => true
  | _ => false
  end.

(** Lines 120 and 121. *)
Definition wallet_type_of (environ : environ_t) : string :=
  match PyDict.get "WALLET_TYPE" environ with
  | Some (String c rest) => lower (String c rest)
  | _ => "sqlite"
  end.

(** Line 123. *)
Definition wallet_encryp_key_of (environ : environ_t) : string :=
  match PyDict.get "WALLET_ENCRYPTION_KEY" environ with
  | Some (String c rest) => String c rest
  | _ => "key"
  end.

(** The pattern of lines 131 to 142: read a variable, raise when it is
    unset or empty. *)
Definition required (environ : environ_t) (name : string) : result string :=
  match PyDict.get name environ with
  | Some (String c rest) => Return (String c rest)
  | _ => Throw (Exception (name ++ " must be set."))
  end.

Definition indy_general_wallet_config (environ : environ_t) : result (dict json) :=
  let wallet_type := wallet_type_of environ in
  let wallet_encryp_key := wallet_encryp_key_of environ in
  let ret := [ ("type", JStr wallet_type) ] in
  if wallet_type =? "postgres" then
    (wallet_host <- required environ "POSTGRESQL_WALLET_HOST" ;;
     wallet_port <- required environ "POSTGRESQL_WALLET_PORT" ;;
     wallet_user <- required environ "POSTGRESQL_WALLET_USER" ;;
     wallet_password <- required environ "POSTGRESQL_WALLET_PASSWORD" ;;
     let wallet_admin_user := "postgres" in
     let wallet_admin_password := PyDict.get "POSTGRESQL_WALLET_ADMIN_PASSWORD" environ in
     let ret :=
       PyDict.set "params"
         (JObj [ ("storage_config",
                  JObj [ ("url", JStr (wallet_host ++ ":" ++ wallet_port)) ]) ])
         ret in
     let stg_creds :=
       [ ("account", JStr wallet_user); ("password", JStr wallet_password) ] in
     let stg_creds :=
       match wallet_admin_password with
       | Some (String c rest) =>
           PyDict.set "admin_password" (JStr (String c rest))
             (PyDict.set "admin_account" (JStr wallet_admin_user) stg_creds)
       | _ => stg_creds
       end in
     let ret :=
       PyDict.set "access_creds"
         (JObj [ ("key", JStr wallet_encryp_key);
                 ("storage_credentials", JObj stg_creds);
                 ("key_derivation_method", JStr "ARGON2I_MOD") ])
         ret in
     Return ret)%result
  else if wallet_type =? "sqlite" then
    Return (PyDict.set "access_creds" (JObj [ ("key", JStr wallet_encryp_key) ]) ret)
  else Throw (ValueError ("Unknown WALLET_TYPE: " ++ wallet_type)).

(** [wallet_cfg[key]]. *)
Definition subscript (wallet_cfg : dict json) (key : string) : result json :=
  match PyDict.get key wallet_cfg with
  | Some v => Return v
  | None => Throw (KeyError key)
  end.

(** [v == 'postgres']. *)
Definition is_postgres (v : json) : bool :=
  match v with
  | JStr s => s =? "postgres"
  | JObj _ => false
  end.

(** The test of line 171 compares the length with [is not]; lengths are
    small integers, for which it is the same as [!=]. *)
Definition indy_holder_wallet_config (environ : environ_t) (wallet_cfg : dict json)
  : result (dict json) :=
  match PyDict.get "INDY_WALLET_SEED" environ with
  | Some (String c rest) =>
      let wallet_seed := String c rest in
      if negb (Nat.eqb (String.length wallet_seed) 32)
      then Throw (ValueError "INDY_WALLET_SEED must be set and be 32 characters long.")
      else
        (type <- subscript wallet_cfg "type" ;;
         if is_postgres type then
           params <- subscript wallet_cfg "params" ;;
           access_creds <- subscript wallet_cfg "access_creds" ;;
           Return [ ("name", JStr "tob_holder");
                    ("seed", JStr wallet_seed);
                    ("type", JStr "postgres");
                    ("params", params);
                    ("access_creds", access_creds) ]
         else
           access_creds <- subscript wallet_cfg "access_creds" ;;
           Return [ ("name", JStr "TheOrgBook_Holder_Wallet");
                    ("seed", JStr wallet_seed);
                    ("access_creds", access_creds) ])%result
  | _ => Throw (ValueError "INDY_WALLET_SEED must be set and be 32 characters long.")
  end.

Definition indy_verifier_wallet_config (wallet_cfg : dict json) : result (dict json) :=
  let verifier_seed := "tob-verifier-wallet-000000000001" in
  (type <- subscript wallet_cfg "type" ;;
   if is_postgres type then
     params <- subscript wallet_cfg "params" ;;
     access_creds <- subscript wallet_cfg "access_creds" ;;
     Return [ ("name", JStr "tob_verifier");
              ("seed", JStr verifier_seed);
              ("type", JStr "postgres");
              ("params", params);
              ("access_creds", access_creds) ]
   else
     access_creds <- subscript wallet_cfg "access_creds" ;;
     Return [ ("name", JStr "TheOrgBook_Verifier_Wallet");
              ("seed", JStr verifier_seed);
              ("access_creds", access_creds) ])%result.

(** What [register_services] and [pre_init] do to the outside: the
    pause, the calls to the service manager and the calls to its
    client, in the order they are made. *)
Inductive client_call : Type :=
| register_wallet (config : dict json)
| register_holder (wallet_id : string) (config : dict json)
| register_verifier (wallet_id : string) (config : dict json)
| sync
| get_status.

Inductive event : Type :=
| Sleep (seconds : nat)
| ManagerStart
| ManagerStartProcess
| ManagerStop
| Call (c : client_call).

(** A computation that makes calls and may raise. *)
Definition io (A : Type) : Type := list event * result A.

Definition io_bind {A B : Type} (m : io A) (k : A -> io B) : io B :=
  match m with
  | (done, Return a) => let (more, r) := k a in ((done ++ more)%list, r)
  | (done, Throw e) => (done, Throw e)
  end.

Definition emit (e : event) : io unit := ([e], Return tt).

Definition io_lift {A : Type} (r : result A) : io A := ([], r).

Declare Scope io_scope.
Delimit Scope io_scope with io.
Notation "x <- m ;; k" := (io_bind m (fun x => k))
  (at level 61, m at next level, right associativity) : io_scope.

Section Services.

(** [os.environ], the identifiers of [django.conf.settings], and the
    client of the service manager: what it answers to a call, or the
    exception it raises. *)
Variable environ : environ_t.
Variable INDY_HOLDER_ID : string.
Variable INDY_VERIFIER_ID : string.
Variable client : client_call -> result string.

Definition await (c : client_call) : io string := ([Call c], client c).

Definition register_services : io unit :=
  (_ <- emit (Sleep 2) ;;
   wallet_config <- io_lift (indy_general_wallet_config environ) ;;
   holder_config <- io_lift (indy_holder_wallet_config environ wallet_config) ;;
   holder_wallet_id <- await (register_wallet holder_config) ;;
   holder_id <- await (register_holder holder_wallet_id
                         [ ("id", JStr INDY_HOLDER_ID);
                           ("name", JStr "TheOrgBook Holder") ]) ;;
   verifier_config <- io_lift (indy_verifier_wallet_config wallet_config) ;;
   verifier_wallet_id <- await (register_wallet verifier_config) ;;
   verifier_id <- await (register_verifier verifier_wallet_id
                           [ ("id", JStr INDY_VERIFIER_ID);
                             ("name", JStr "TheOrgBook Verifier") ]) ;;
   _ <- await sync ;;
   _ <- await get_status ;;
   (([], Return tt) : io unit))%io.

(** [pre_init]: the bare [except] catches every exception of the
    registration, stops the manager and raises it again. *)
Definition pre_init (proc : bool) : io unit :=
  (_ <- emit (if proc then ManagerStartProcess else ManagerStart) ;;
   match register_services with
   | (done, Return _) => (done, Return tt)
   | (done, Throw e) => ((done ++ [ManagerStop])%list, Throw e)
   end)%io.

End Services.

(** The variables a postgres wallet needs, in the order they are read. *)
Definition postgres_settings : list string :=
  [ "POSTGRESQL_WALLET_HOST"; "POSTGRESQL_WALLET_PORT";
    "POSTGRESQL_WALLET_USER"; "POSTGRESQL_WALLET_PASSWORD" ].

(** The call that starts the manager. *)
Definition start_of (proc : bool) : event :=
  if proc then ManagerStartProcess else ManagerStart.

Definition is_call (e : event) : bool :=
  match e with
  | Call _ => true
  | _ => false
  end.

(** Sample environments and a client that answers every call. *)
Definition postgres_environ : environ_t :=
  [ ("WALLET_TYPE", "Postgres");
    ("POSTGRESQL_WALLET_HOST", "db");
    ("POSTGRESQL_WALLET_PORT", "5432");
    ("POSTGRESQL_WALLET_USER", "tob");
    ("POSTGRESQL_WALLET_PASSWORD", "secret");
    ("INDY_WALLET_SEED", "the_org_book_0000000000000000000") ].

Definition incomplete_environ : environ_t :=
  [ ("WALLET_TYPE", "POSTGRES");
    ("POSTGRESQL_WALLET_HOST", "db");
    ("POSTGRESQL_WALLET_PORT", "");
    ("POSTGRESQL_WALLET_PASSWORD", "secret") ].

Definition answering_client (c : client_call) : result string :=
  match c with
  | register_wallet _ => Return "wallet"
  | register_holder _ _ => Return "holder"
  | register_verifier _ _ => Return "verifier"
  | sync => Return ""
  | get_status => Return "ok"
  end.

End Boot.

(* ===================================================================== *)
(** ** Dictionaries: lookups after assignments *)
(* ===================================================================== *)

Section DictFacts.
Context {V : Type}.
Implicit Types (d : dict V) (k : string) (v : V).

Lemma get_set_same k v d : PyDict.get k (PyDict.set k v d) = Some v.
Proof.
  induction d as [| [k' v'] d IH]; simpl.
  - now rewrite String.eqb_refl.
  - destruct (k =? k') eqn:E; simpl; rewrite E; auto.
Qed.

Lemma get_set_other k k' v d :
  k' <> k -> PyDict.get k' (PyDict.set k v d) = PyDict.get k' d.
Proof.
  intros Hne. induction d as [| [k0 v0] d IH]; simpl.
  - apply String.eqb_neq in Hne. now rewrite Hne.
  - destruct (k =? k0) eqn:E; simpl.
    + apply String.eqb_eq in E. subst k0.
      apply String.eqb_neq in Hne. now rewrite Hne.
    + destruct (k' =? k0); auto.
Qed.

Lemma in_set_inv k v d k' v' :
  In (k', v') (PyDict.set k v d) -> (k' = k /\ v' = v) \/ In (k', v') d.
Proof.
  induction d as [| [k0 v0] d IH]; simpl.
  - intros [H | []]. injection H as <- <-. now left.
  - destruct (k =? k0) eqn:E; simpl.
    + apply String.eqb_eq in E. subst k0.
      intros [H | H]; [injection H as <- <-; now left | now right; right].
    + intros [H | H]; [now right; left |].
      destruct (IH H) as [? | ?]; [now left | now right; right].
Qed.

Lemma in_set_same k v d : In (k, v) (PyDict.set k v d).
Proof.
  induction d as [| [k0 v0] d IH]; simpl.
  - now left.
  - destruct (k =? k0) eqn:E; simpl.
    + apply String.eqb_eq in E. subst k0. now left.
    + now right.
Qed.

Lemma in_set_other k v d k' v' :
  k' <> k -> In (k', v') d -> In (k', v') (PyDict.set k v d).
Proof.
  intros Hne. induction d as [| [k0 v0] d IH]; simpl; [tauto |].
  destruct (k =? k0) eqn:E; simpl.
  - apply String.eqb_eq in E. subst k0.
    intros [H | H]; [injection H as -> _; congruence | now right].
  - intros [H | H]; [now left | right; auto].
Qed.

Lemma keys_set k v d :
  forall k', In k' (PyDict.keys (PyDict.set k v d)) <-> k' = k \/ In k' (PyDict.keys d).
Proof.
  unfold PyDict.keys. induction d as [| [k0 v0] d IH]; intros k'; simpl.
  - intuition.
  - destruct (k =? k0) eqn:E; simpl.
    + apply String.eqb_eq in E. subst k0. intuition.
    + rewrite IH. intuition.
Qed.

Lemma get_some_in_keys k d : (exists v, PyDict.get k d = Some v) <-> In k (PyDict.keys d).
Proof.
  unfold PyDict.keys. induction d as [| [k0 v0] d IH]; simpl.
  - split; [intros [v H]; discriminate | tauto].
  - destruct (k =? k0) eqn:E.
    + apply String.eqb_eq in E. subst k0. split; eauto.
    + apply String.eqb_neq in E. rewrite IH. split; [auto | intros [H | H]; congruence || auto].
Qed.

Lemma get_none_not_in_keys k d : PyDict.get k d = None <-> ~ In k (PyDict.keys d).
Proof.
  rewrite <- get_some_in_keys. destruct (PyDict.get k d).
  - split; [discriminate | intros H; exfalso; eauto].
  - split; [intros _ [v H]; discriminate | auto].
Qed.

End DictFacts.

(* ===================================================================== *)
(** ** The pipeline runs in the declared order *)
(* ===================================================================== *)

Lemma list_pop_snoc {A} (l : list A) (x : A) : list_pop (l ++ [x])%list = Some (l, x).
Proof.
  unfold list_pop. destruct (l ++ [x])%list eqn:E.
  - destruct l; discriminate.
  - rewrite <- E. rewrite removelast_last, last_last. reflexivity.
Qed.

Lemma while_pop_step pipeline v :
  while_pop pipeline v =
  match list_pop pipeline with
  | None => Ok v
  | Some (rest, f) => obind (f v) (while_pop rest)
  end.
Proof.
  funelim (while_pop pipeline v);
    match goal with
    | E : list_pop _ = None |- _ => rewrite E; reflexivity
    | E : list_pop _ = Some _, E' : _ _ = _ |- _ =>
        rewrite E; simpl; rewrite E'; reflexivity
    end.
Qed.

Lemma while_pop_snoc l f v :
  while_pop (l ++ [f])%list v = obind (f v) (while_pop l).
Proof. rewrite while_pop_step, list_pop_snoc. reflexivity. Qed.

Lemma run_pipeline_in_order fs : forall v, run_pipeline fs v = apply_in_order fs v.
Proof.
  unfold run_pipeline. induction fs as [| f fs IH]; intros v; simpl.
  - reflexivity.
  - rewrite while_pop_snoc. destruct (f v); simpl; auto.
Qed.

Lemma fold_left_obind (fs : list pyfun) : forall o : outcome pyval,
  fold_left (fun acc f => obind acc f) fs o = obind o (apply_in_order fs).
Proof.
  induction fs as [| f fs IH]; intros o; simpl.
  - destruct o; reflexivity.
  - rewrite IH. destruct o; reflexivity.
Qed.

Section PipelineFacts.

Variable schema_key : string -> SchemaKey.
Variable json_dumps : credential_data -> string.
Variable import_module : string -> option (string -> option pyfun).

Lemma build_pipeline_resolves names : forall fs acc,
  Forall2 (fun n f => resolve_function import_module n = Ok f) names fs ->
  build_pipeline import_module names acc = Ok (acc ++ fs)%list.
Proof.
  induction names as [| n names IH]; intros fs acc H; inversion H; subst; simpl.
  - now rewrite app_nil_r.
  - match goal with E : resolve_function _ _ = Ok _ |- _ => rewrite E end.
    simpl. erewrite IH by eassumption. now rewrite <- app_assoc.
Qed.

(** C4. A field whose processor list names the functions [fs], in that
    order, and whose base value is [v], gets the value obtained by
    applying [fs] to [v] from left to right; the reverse-then-pop loop of
    the source computes the same as that in-order application, which is
    a left fold of the list of functions; for two functions [f] and [g]
    that do not raise the value is [g (f v)]. *)
Theorem pipeline_applies_in_declared_order
    (credential : Credential) (fd : field_data) (_input _from : string)
    (names : list string) (fs : list pyfun) (v : pyval) :
  input fd = Some _input ->
  from fd = Some _from ->
  processor fd = Some names ->
  Forall2 (fun n f => resolve_function import_module n = Ok f) names fs ->
  base_value schema_key json_dumps credential _input _from = Ok v ->
  field_value_of schema_key json_dumps import_module credential fd
    = apply_in_order fs v
  /\ run_pipeline fs v = apply_in_order fs v
  /\ run_pipeline fs v = fold_left (fun acc f => obind acc f) fs (Ok v)
  /\ (forall f g, fs = [pure_fun f; pure_fun g] ->
      field_value_of schema_key json_dumps import_module credential fd
        = Ok (g (f v))).
Proof.
  intros Hin Hfrom Hproc Hres Hbase.
  assert (E : field_value_of schema_key json_dumps import_module credential fd
              = apply_in_order fs v).
  { unfold field_value_of. rewrite Hin, Hfrom, Hbase, Hproc. simpl.
    rewrite (build_pipeline_resolves names fs []) by assumption. simpl.
    apply run_pipeline_in_order. }
  split; [exact E |]. split; [apply run_pipeline_in_order |].
  split; [rewrite fold_left_obind; apply run_pipeline_in_order |].
  intros f g ->. rewrite E. reflexivity.
Qed.

End PipelineFacts.

(** The scenario's email, passed through [text.add_a] and then
    [text.add_b], ends in ["ab"]: first [add_a], then [add_b]. *)
Lemma pipeline_applies_in_declared_order_witness :
  field_value_of (fun _ => {| origin_did := ""; name := ""; version := "" |})
                 (fun _ => "") sample_import_module
                 (Credential__init__ scenario_data)
                 {| input := Some "email"; from := Some "claim";
                    processor := Some ["text.add_a"; "text.add_b"] |}
  = Ok (PStr "a@b.comab").
Proof.
  destruct (pipeline_applies_in_declared_order
              (fun _ => {| origin_did := ""; name := ""; version := "" |})
              (fun _ => "") sample_import_module
              (Credential__init__ scenario_data)
              {| input := Some "email"; from := Some "claim";
                 processor := Some ["text.add_a"; "text.add_b"] |}
              "email" "claim" ["text.add_a"; "text.add_b"]
              [append_text "a"; append_text "b"] (PStr "a@b.com")
              eq_refl eq_refl eq_refl) as [E _].
  - repeat constructor.
  - reflexivity.
  - rewrite E. reflexivity.
Defined.

(* ===================================================================== *)
(** ** The text ['None'] becomes a null value *)
(* ===================================================================== *)

Lemma pyval_eqb_refl v : pyval_eqb v v = true.
Proof. unfold pyval_eqb. destruct (pyval_dec v v); congruence. Qed.

Lemma pyval_eqb_eq a b : pyval_eqb a b = true <-> a = b.
Proof. unfold pyval_eqb. destruct (pyval_dec a b); split; congruence. Qed.

Lemma pyval_eqb_neq a b : pyval_eqb a b = false <-> a <> b.
Proof. unfold pyval_eqb. destruct (pyval_dec a b); split; congruence. Qed.

Lemma store_processed_value_same field v pv :
  PyDict.get field (store_processed_value field v pv) = Some (normalized v).
Proof.
  unfold store_processed_value, normalized. rewrite get_set_same.
  destruct (pyval_eqb v (PStr NONE_STRING)); apply get_set_same.
Qed.

Lemma store_processed_value_other field field' v pv :
  field' <> field ->
  PyDict.get field' (store_processed_value field v pv) = PyDict.get field' pv.
Proof.
  intros Hne. unfold store_processed_value. rewrite get_set_same.
  destruct (pyval_eqb v (PStr NONE_STRING));
    repeat rewrite get_set_other by assumption; reflexivity.
Qed.

Lemma store_processed_value_keys field v pv k :
  In k (PyDict.keys (store_processed_value field v pv))
  <-> k = field \/ In k (PyDict.keys pv).
Proof.
  unfold store_processed_value. rewrite get_set_same.
  destruct (pyval_eqb v (PStr NONE_STRING)); repeat rewrite keys_set; tauto.
Qed.

Section MappingFacts.

Variable schema_key : string -> SchemaKey.
Variable json_dumps : credential_data -> string.
Variable import_module : string -> option (string -> option pyfun).

Local Abbreviation field_value_of' := (field_value_of schema_key json_dumps import_module).
Local Abbreviation map_fields' := (map_fields schema_key json_dumps import_module).

Lemma map_fields_values credential all_fields todo : forall pv0 pv,
  map_fields' credential all_fields todo pv0 = Ok pv ->
  (forall field, In field todo ->
     exists fd v, PyDict.get field all_fields = Some fd
                  /\ field_value_of' credential fd = Ok v
                  /\ PyDict.get field pv = Some (normalized v))
  /\ (forall field, ~ In field todo -> PyDict.get field pv = PyDict.get field pv0).
Proof.
  induction todo as [| f todo IH]; intros pv0 pv H; simpl in H.
  - injection H as <-. split; [intros ? [] | reflexivity].
  - destruct (PyDict.get f all_fields) as [fd |] eqn:Hfd; [| discriminate].
    destruct (field_value_of' credential fd) as [v | e] eqn:Hv; [| discriminate].
    simpl in H. destruct (IH _ _ H) as [IHin IHout]. split.
    + intros field Hin. destruct (in_dec string_dec field todo) as [Hrest | Hrest].
      * apply IHin, Hrest.
      * destruct Hin as [<- | Hin]; [| contradiction].
        exists fd, v. repeat split; try assumption.
        rewrite IHout by assumption. apply store_processed_value_same.
    + intros field Hnot. rewrite IHout by (intros ?; apply Hnot; now right).
      apply store_processed_value_other. intros ->. apply Hnot. now left.
Qed.

Lemma map_fields_keys credential all_fields todo : forall pv0 pv,
  map_fields' credential all_fields todo pv0 = Ok pv ->
  forall k, In k (PyDict.keys pv) <-> In k todo \/ In k (PyDict.keys pv0).
Proof.
  induction todo as [| f todo IH]; intros pv0 pv H k; simpl in H.
  - injection H as <-. simpl. tauto.
  - destruct (PyDict.get f all_fields) as [fd |]; [| discriminate].
    destruct (field_value_of' credential fd) as [v | e]; [| discriminate].
    simpl in H. rewrite (IH _ _ H), store_processed_value_keys. simpl.
    intuition congruence.
Qed.

Lemma processed_values_keys credential mm pv :
  processed_values_of schema_key json_dumps import_module credential mm = Ok pv ->
  forall k, In k (PyDict.keys pv) <-> In k (PyDict.keys (fields mm)).
Proof.
  unfold processed_values_of. intros H k.
  rewrite (map_fields_keys _ _ _ _ _ H). simpl. tauto.
Qed.

(** C5. For every field of a rule, whatever its processor list (absent,
    empty or not): when the value after the pipeline equals the text
    ['None'] the value stored in [processed_values] is null, and any
    other value is stored unchanged. *)
Theorem none_text_is_stored_as_null
    (credential : Credential) (mm : model_mapper) (pv : dict pyval)
    (field : string) (fd : field_data) :
  processed_values_of schema_key json_dumps import_module credential mm = Ok pv ->
  PyDict.get field (fields mm) = Some fd ->
  exists v,
    field_value_of schema_key json_dumps import_module credential fd = Ok v
    /\ (v = PStr "None" -> PyDict.get field pv = Some PNone)
    /\ (v <> PStr "None" -> PyDict.get field pv = Some v).
Proof.
  intros Hpv Hfd.
  unfold processed_values_of in Hpv.
  destruct (map_fields_values _ _ _ _ _ Hpv) as [Hin _].
  assert (Hk : In field (PyDict.keys (fields mm)))
    by (apply get_some_in_keys; eauto).
  destruct (Hin field Hk) as (fd' & v & Hfd' & Hv & Hget).
  rewrite Hfd in Hfd'. injection Hfd' as <-.
  exists v. split; [exact Hv |]. unfold normalized, NONE_STRING in Hget.
  split; intros Hcase.
  - apply pyval_eqb_eq in Hcase. now rewrite Hcase in Hget.
  - apply pyval_eqb_neq in Hcase. now rewrite Hcase in Hget.
Qed.

End MappingFacts.

(** The [expiry] claim reads ['None'] and no function is applied to it:
    the contact's [expiry] is stored as null. *)
Lemma none_text_is_stored_as_null_witness :
  PyDict.get "expiry"
    [ ("email", PStr "a@b.com"); ("expiry", PNone); ("kind", PStr "work") ]
  = Some PNone.
Proof.
  destruct (none_text_is_stored_as_null sample_schema_key sample_json_dumps
              no_modules (Credential__init__ expiry_data) expiry_rule
              [ ("email", PStr "a@b.com"); ("expiry", PNone); ("kind", PStr "work") ]
              "expiry"
              {| input := Some "expiry"; from := Some "claim"; processor := None |}
              eq_refl eq_refl) as [v [Hv [Hnone _]]].
  apply Hnone. injection Hv as <-. reflexivity.
Defined.

(** The text compared at line 322 has four characters, and no text of
    three characters is turned into null. *)
Lemma none_text_has_four_characters :
  String.length NONE_STRING = 4
  /\ ~ (exists s : string,
         String.length s = 3
         /\ PyDict.get "f" (store_processed_value "f" (PStr s) []) = Some PNone).
Proof.
  split; [reflexivity |].
  intros [s [Hlen H]]. rewrite store_processed_value_same in H.
  unfold normalized in H.
  destruct (pyval_eqb (PStr s) (PStr NONE_STRING)) eqn:E; [| discriminate].
  apply pyval_eqb_eq in E. injection E as ->. discriminate.
Qed.

(* ===================================================================== *)
(** ** Attribute access on a credential *)
(* ===================================================================== *)

Lemma fold_left_append {A} (l : list A) : forall acc,
  fold_left (fun acc x => (acc ++ [x])%list) l acc = (acc ++ l)%list.
Proof.
  induction l as [| x l IH]; intros acc; simpl.
  - now rewrite app_nil_r.
  - rewrite IH, <- app_assoc. reflexivity.
Qed.

Lemma claim_attributes_init data :
  Credential_claim_attributes (Credential__init__ data) = PyDict.keys (values data).
Proof. unfold Credential_claim_attributes. simpl. apply fold_left_append. Qed.



(* ===================================================================== *)
(** ** The selection payload of a proof *)
(* ===================================================================== *)

Section SelectionFacts.

Local Abbreviation candidates := (dict (list ProofSelection.candidate)).

(** One turn of the loop for a name whose first candidate is [c]. *)
Lemma select_attributes_cons (all_attrs : candidates) claim_name todo requested c rest :
  PyDict.get claim_name all_attrs = Some (c :: rest) ->
  ProofSelection.select_attributes all_attrs (claim_name :: todo) requested
  = ProofSelection.select_attributes all_attrs todo
      (PyDict.set claim_name (revealed_from c)
         (PyDict.set claim_name [("revealed", PBool true)]
            (PyDict.set claim_name [] requested))).
Proof.
  intros Hget. simpl. unfold ProofSelection.set_item.
  rewrite get_set_same. simpl. rewrite Hget. simpl.
  rewrite get_set_same. simpl. reflexivity.
Qed.

Lemma select_attributes_ok (all_attrs : candidates) todo : forall requested,
  (forall claim_name, In claim_name todo ->
     exists c rest, PyDict.get claim_name all_attrs = Some (c :: rest)) ->
  exists result,
    ProofSelection.select_attributes all_attrs todo requested = Ok result
    /\ (forall claim_name, In claim_name todo ->
          exists c rest,
            PyDict.get claim_name all_attrs = Some (c :: rest)
            /\ PyDict.get claim_name result = Some (revealed_from c))
    /\ (forall claim_name, ~ In claim_name todo ->
          PyDict.get claim_name result = PyDict.get claim_name requested).
Proof.
  induction todo as [| n todo IH]; intros requested Hall.
  - exists requested. simpl. split; [reflexivity |]. split; [intros ? [] | reflexivity].
  - destruct (Hall n (or_introl eq_refl)) as (c & rest & Hn).
    rewrite (select_attributes_cons _ _ _ _ _ _ Hn).
    destruct (IH (PyDict.set n (revealed_from c)
                    (PyDict.set n [("revealed", PBool true)]
                       (PyDict.set n [] requested))))
      as (result & Hres & Hin & Hout).
    { intros m Hm. apply Hall. now right. }
    exists result. split; [exact Hres |]. split.
    + intros m Hm. destruct (in_dec string_dec m todo) as [Hrest | Hrest].
      * apply Hin, Hrest.
      * destruct Hm as [<- | Hm]; [| contradiction].
        exists c, rest. split; [exact Hn |].
        rewrite Hout by assumption. apply get_set_same.
    + intros m Hm. rewrite Hout by (intros ?; apply Hm; now right).
      assert (m <> n) by (intros ->; apply Hm; now left).
      now repeat rewrite get_set_other by assumption.
Qed.

Lemma select_attributes_index_error (all_attrs : candidates) todo : forall requested,
  (forall claim_name, In claim_name todo -> In claim_name (PyDict.keys all_attrs)) ->
  (exists claim_name, In claim_name todo /\ PyDict.get claim_name all_attrs = Some []) ->
  ProofSelection.select_attributes all_attrs todo requested
  = Raise (IndexError "list index out of range").
Proof.
  induction todo as [| n todo IH]; intros requested Hkeys [m [Hm Hempty]].
  - destruct Hm.
  - destruct (proj2 (get_some_in_keys n all_attrs) (Hkeys n (or_introl eq_refl)))
      as [l Hn].
    destruct l as [| c rest].
    + simpl. unfold ProofSelection.set_item. rewrite get_set_same. simpl.
      rewrite Hn. reflexivity.
    + rewrite (select_attributes_cons _ _ _ _ _ _ Hn). apply IH.
      * intros k Hk. apply Hkeys. now right.
      * exists m. split; [| exact Hempty].
        destruct Hm as [<- | Hm]; [congruence | exact Hm].
Qed.

Variable ProofRequest : Type.
Variable get_creds :
  string -> ProofRequest -> ProofSelection.credentials_for_proof_request_t.
Variable create_proof :
  string -> ProofRequest -> ProofSelection.credentials_for_proof_request_t ->
  ProofSelection.requested_credentials_t -> string.

(** C9 (as amended). When the wallet offers at least one candidate for
    every attribute name of its answer, the payload passed to
    [create_proof] has no self attested attribute and no predicate, and
    maps each of those names, and no other, to [revealed: true] and the
    referent of the first candidate offered for it.  When some name
    comes with no candidate, no payload is built: the construction ends
    with an [IndexError]. *)
Theorem first_candidate_is_selected (self : ProofSelection.ProofManager ProofRequest) :
  let offered :=
    ProofSelection.attrs
      (get_creds (ProofSelection.source_id _ self) (ProofSelection.proof_request _ self)) in
  ((forall claim_name, In claim_name (PyDict.keys offered) ->
      PyDict.get claim_name offered <> Some []) ->
   exists payload,
     ProofSelection.selection_payload _ get_creds self = Ok payload
     /\ ProofSelection.construct_proof_async _ get_creds create_proof self
        = Ok (create_proof (ProofSelection.source_id _ self)
                (ProofSelection.proof_request _ self)
                (get_creds (ProofSelection.source_id _ self)
                   (ProofSelection.proof_request _ self))
                payload)
     /\ ProofSelection.self_attested_attributes payload = []
     /\ ProofSelection.requested_predicates payload = []
     /\ (forall claim_name, In claim_name (PyDict.keys offered) ->
           exists c rest,
             PyDict.get claim_name offered = Some (c :: rest)
             /\ PyDict.get claim_name (ProofSelection.requested_attributes payload)
                = Some [ ("revealed", PBool true);
                         ("cred_id",
                          PStr (ProofSelection.referent (ProofSelection.cred_info c))) ])
     /\ (forall claim_name, ~ In claim_name (PyDict.keys offered) ->
           PyDict.get claim_name (ProofSelection.requested_attributes payload) = None))
  /\ ((exists claim_name, PyDict.get claim_name offered = Some []) ->
      ProofSelection.selection_payload _ get_creds self
        = Raise (IndexError "list index out of range")
      /\ ProofSelection.construct_proof_async _ get_creds create_proof self
         = Raise (IndexError "list index out of range")).
Proof.
  intros offered. unfold ProofSelection.selection_payload,
    ProofSelection.construct_proof_async, ProofSelection.build_requested_credentials.
  fold offered. split.
  - intros Hall.
    destruct (select_attributes_ok offered (PyDict.keys offered) []) as
      (result & Hres & Hin & Hout).
    { intros n Hn. destruct (proj2 (get_some_in_keys n offered) Hn) as [l Hl].
      destruct l as [| c rest]; [now apply Hall in Hl | eauto]. }
    rewrite Hres. simpl. eexists. split; [reflexivity |].
    split; [reflexivity |]. simpl. repeat split; auto.
  - intros [n Hn].
    rewrite (select_attributes_index_error offered (PyDict.keys offered) []).
    + split; reflexivity.
    + auto.
    + exists n. split; [apply get_some_in_keys; eauto | exact Hn].
Qed.

End SelectionFacts.

(** The request names [email_attr] and the wallet offers one candidate,
    [cred-1]: the payload selects it. *)
Lemma first_candidate_is_selected_witness :
  exists payload,
    ProofSelection.selection_payload unit (fun _ _ => one_candidate)
      (ProofSelection.ProofManager__init__ unit tt "Acme") = Ok payload
    /\ PyDict.get "email_attr" (ProofSelection.requested_attributes payload)
       = Some [ ("revealed", PBool true); ("cred_id", PStr "cred-1") ].
Proof.
  destruct (first_candidate_is_selected unit (fun _ _ => one_candidate)
              (fun _ _ _ _ => "proof")
              (ProofSelection.ProofManager__init__ unit tt "Acme")) as [Hsome _].
  destruct Hsome as (payload & Hp & _ & _ & _ & Hin & _).
  - intros n [<- | []]. discriminate.
  - exists payload. split; [exact Hp |].
    destruct (Hin "email_attr" (or_introl eq_refl)) as (c & rest & Hc & Hsel).
    injection Hc as <- <-. exact Hsel.
Defined.

(** C9 as worded promises a payload for every answer of the wallet.
    With an attribute for which nothing is offered there is none. *)
Lemma no_payload_without_candidate :
  ProofSelection.build_requested_credentials no_candidate
    = Raise (IndexError "list index out of range")
  /\ ~ (exists payload,
          ProofSelection.build_requested_credentials no_candidate = Ok payload).
Proof.
  split; [reflexivity |]. intros [payload H]. discriminate.
Qed.

(* ===================================================================== *)
(** ** Cardinality fields that the rule does not produce *)
(* ===================================================================== *)

Lemma add_cardinality_args_raises cardinality_fields pv : forall model_args e,
  add_cardinality_args cardinality_fields pv model_args = Raise e ->
  exists cf, In cf cardinality_fields
             /\ ~ In cf (PyDict.keys pv)
             /\ e = CredentialException (missing_cardinality_message cf pv).
Proof.
  induction cardinality_fields as [| cf cfs IH]; intros model_args e H; simpl in H.
  - discriminate.
  - destruct (PyDict.get cf pv) eqn:Hcf.
    + destruct (IH _ _ H) as (cf' & Hin & Hnot & He).
      exists cf'. repeat split; auto. now right.
    + injection H as <-. exists cf. repeat split; [now left |].
      now apply get_none_not_in_keys.
Qed.

Lemma add_cardinality_args_entries cardinality_fields pv : forall a args,
  add_cardinality_args cardinality_fields pv a = Ok args ->
  (forall k v, In (k, v) args ->
     In (k, v) a \/ (In k cardinality_fields /\ PyDict.get k pv = Some v))
  /\ (forall k v, In (k, v) a -> ~ In k cardinality_fields -> In (k, v) args)
  /\ (forall k v, In (k, v) a -> PyDict.get k pv = Some v -> In (k, v) args)
  /\ (forall cf, In cf cardinality_fields ->
        exists v, PyDict.get cf pv = Some v /\ In (cf, v) args).
Proof.
  induction cardinality_fields as [| cf cfs IH]; intros a args H; simpl in H.
  - injection H as <-. repeat split; auto. intros ? [].
  - destruct (PyDict.get cf pv) as [v |] eqn:Hcf; [| discriminate].
    destruct (IH _ _ H) as (Hentries & Hkeep & Hagree & Hcfs).
    repeat split.
    + intros k v' Hin. destruct (Hentries k v' Hin) as [Hin1 | [Hin1 Hget]].
      * destruct (in_set_inv _ _ _ _ _ Hin1) as [[-> ->] | Hold]; [| now left].
        right. split; [now left | assumption].
      * right. split; [now right | assumption].
    + intros k v' Hin Hnot. apply Hkeep.
      * apply in_set_other; [| assumption]. intros ->. apply Hnot. now left.
      * intros ?. apply Hnot. now right.
    + intros k v' Hin Hget. apply Hagree; [| assumption].
      destruct (string_dec k cf) as [-> | Hne].
      * rewrite Hcf in Hget. injection Hget as ->. apply in_set_same.
      * now apply in_set_other.
    + intros cf' [<- | Hin].
      * exists v. split; [assumption |]. apply Hagree; [apply in_set_same | assumption].
      * now apply Hcfs.
Qed.

Section CardinalityFacts.

Variable schema_key : string -> SchemaKey.
Variable json_dumps : credential_data -> string.
Variable import_module : string -> option (string -> option pyfun).

(** C7. For a rule of a supported kind whose fields have all been
    resolved into the draft [pv]: the draft has exactly the field names
    of the rule's field map; the rule ends with the
    [CredentialException] that names a declared cardinality field
    missing from the draft, and lists the draft's field names, exactly
    when some declared cardinality field is not a key of the rule's
    field map; nothing is written in that case; any other outcome of the
    rule is a success. *)
Theorem missing_cardinality_value_iff
    (self : CredentialManager) (s : SubjectRow) (c : CredentialRow)
    (mm : model_mapper) (Model : model_class) (pv : dict pyval) (d : db) :
  SUPPORTED_MODELS_MAPPING (model mm) = Some Model ->
  processed_values_of schema_key json_dumps import_module (credential self) mm = Ok pv ->
  let declared := match cardinality_fields mm with Some l => l | None => [] end in
  (forall field, In field (PyDict.keys pv) <-> In field (PyDict.keys (fields mm)))
  /\ ((exists cf,
         In cf declared /\ ~ In cf (PyDict.keys pv)
         /\ apply_model_mapper schema_key json_dumps import_module self s c mm d
            = (Raise (CredentialException (missing_cardinality_message cf pv)), d))
      <-> (exists cf, In cf declared /\ ~ In cf (PyDict.keys (fields mm))))
  /\ (forall e d',
        apply_model_mapper schema_key json_dumps import_module self s c mm d
          = (Raise e, d') ->
        d' = d
        /\ exists cf,
             In cf declared /\ ~ In cf (PyDict.keys (fields mm))
             /\ e = CredentialException (missing_cardinality_message cf pv)).
Proof.
  intros Hsupp Hpv declared.
  pose proof (processed_values_keys _ _ _ _ _ _ Hpv) as Hkeys.
  assert (Hrun :
    apply_model_mapper schema_key json_dumps import_module self s c mm d
    = match build_model_args (subject_pk s) declared pv with
      | Ok model_args =>
          (Ok tt,
           with_table Model
             (upsert (credential_rows d) (table_of Model d) model_args pv
                     (credential_pk c) (clock d))
             (with_clock (S (clock d)) d))
      | Raise e => (Raise e, d)
      end).
  { unfold apply_model_mapper, bind, lift. rewrite Hsupp, Hpv. fold declared.
    destruct (build_model_args (subject_pk s) declared pv); reflexivity. }
  split; [exact Hkeys |]. split; [split |].
  - intros (cf & Hin & Hnot & _). exists cf. split; [exact Hin |]. now rewrite <- Hkeys.
  - intros (cf & Hin & Hnot). rewrite <- Hkeys in Hnot. rewrite Hrun.
    unfold build_model_args.
    destruct (add_cardinality_args declared pv (initial_model_args (subject_pk s)))
      as [args | e] eqn:Hargs.
    + exfalso. apply Hnot.
      destruct (add_cardinality_args_entries _ _ _ _ Hargs) as (_ & _ & _ & Hcfs).
      destruct (Hcfs cf Hin) as (v & Hv & _). apply get_some_in_keys. eauto.
    + destruct (add_cardinality_args_raises _ _ _ _ Hargs) as (cf' & H1 & H2 & ->).
      exists cf'. auto.
  - intros e d' H. rewrite Hrun in H. unfold build_model_args in H.
    destruct (add_cardinality_args declared pv (initial_model_args (subject_pk s)))
      as [args | e0] eqn:Hargs; [discriminate |].
    injection H as <- <-. split; [reflexivity |].
    destruct (add_cardinality_args_raises _ _ _ _ Hargs) as (cf' & H1 & H2 & ->).
    exists cf'. rewrite <- Hkeys. auto.
Qed.

End CardinalityFacts.

(** The rule declares the cardinality field [phone] but maps [email]
    only: the rule ends with the exception that names [phone] and lists
    [email]. *)
Lemma missing_cardinality_value_iff_witness :
  apply_model_mapper sample_schema_key sample_json_dumps no_modules
    scenario_manager sample_subject sample_credential_row phone_rule
    (configured_db sample_schema_key scenario_manager [])
  = (Raise (CredentialException
              ("Issuer configuration specifies field 'phone' in cardinality_fields "
               ++ "value does not exist in credential processor. Values are: email")),
     configured_db sample_schema_key scenario_manager []).
Proof.
  destruct (missing_cardinality_value_iff sample_schema_key sample_json_dumps
              no_modules scenario_manager sample_subject sample_credential_row
              phone_rule Contact [("email", PStr "a@b.com")]
              (configured_db sample_schema_key scenario_manager [])
              eq_refl eq_refl) as (_ & [_ Hraise] & _).
  destruct Hraise as (cf & Hin & _ & Hrun).
  - exists "phone". split; [now left |]. simpl. intros [H | []]. discriminate.
  - destruct Hin as [<- | []]. exact Hrun.
Defined.

(* ===================================================================== *)
(** ** Ingestion without processor configuration *)
(* ===================================================================== *)

Section IngestionFacts.

Variable schema_key : string -> SchemaKey.
Variable json_dumps : credential_data -> string.
Variable import_module : string -> option (string -> option pyfun).

(** Every claim attribute of a decoded credential can be read. *)
Lemma getattr_claim_attribute data claim_attribute :
  In claim_attribute (PyDict.keys (values data)) ->
  exists v, getattr schema_key json_dumps (Credential__init__ data) claim_attribute = Ok v.
Proof.
  intros Hin. unfold getattr.
  destruct (predefined_member schema_key json_dumps (Credential__init__ data)
              claim_attribute); [eauto |].
  unfold Credential__getattr__, Credential_raw. simpl.
  destruct (proj2 (get_some_in_keys _ _) Hin) as [entry ->]. eauto.
Qed.

Lemma create_claims_appends (self : CredentialManager) (c : CredentialRow) data :
  credential self = Credential__init__ data ->
  forall claim_attributes d,
    (forall a, In a claim_attributes -> In a (PyDict.keys (values data))) ->
    exists rows,
      create_claims schema_key json_dumps self c claim_attributes d
        = (Ok tt, with_claims (claims d ++ rows) d)
      /\ map claim_name rows = claim_attributes
      /\ Forall (fun r => claim_credential r = credential_pk c
                          /\ getattr schema_key json_dumps (credential self)
                               (claim_name r) = Ok (claim_value r)) rows.
Proof.
  intros Hself. induction claim_attributes as [| a rest IH]; intros d Hall.
  - exists []. simpl. rewrite app_nil_r. destruct d; repeat split; constructor.
  - simpl. unfold bind at 1, lift. rewrite Hself.
    destruct (getattr_claim_attribute data a (Hall a (or_introl eq_refl))) as [v Hv].
    rewrite Hv. unfold bind at 1, create_claim.
    set (row := {| claim_pk := next_pk claim_pk (claims d);
                   claim_credential := credential_pk c;
                   claim_name := a; claim_value := v |}).
    destruct (IH (with_claims (claims d ++ [row]) d)) as (rows & Hrun & Hnames & Hrows).
    { intros ? ?. apply Hall. now right. }
    exists (row :: rows). rewrite Hrun. simpl. rewrite <- app_assoc. simpl.
    repeat split; [now rewrite Hnames |].
    rewrite Hself in Hrows. constructor; [| exact Hrows]. simpl. auto.
Qed.

(** C8. With a credential type whose processor configuration is absent
    or empty, ingestion returns the key of the one credential it
    creates, owned by the subject with the given source identifier and
    tagged with the credential type; it creates one claim for each claim
    attribute of the payload, in order, each belonging to that
    credential; and the four tables of satellite records are left as
    they were. *)
Theorem no_rules_no_satellite_records
    (data : credential_data) (metadata : dict string)
    (ct : CredentialTypeRow) (sid : string) (d : db) :
  processor_config ct = None \/ processor_config ct = Some [] ->
  length (filter (fun s => source_id s =? sid) (subjects d)) <= 1 ->
  let self := {| credential := Credential__init__ data;
                 credential_definition_metadata := metadata |} in
  exists s c new_claims d',
    populate_application_database schema_key json_dumps import_module
      self ct sid d = (Ok (credential_pk c), d')
    /\ In s (subjects d') /\ source_id s = sid
    /\ credential_rows d' = (credential_rows d ++ [c])%list
    /\ subject c = subject_pk s
    /\ credential_type c = credential_type_pk ct
    /\ claims d' = (claims d ++ new_claims)%list
    /\ map claim_name new_claims = PyDict.keys (values data)
    /\ Forall (fun r => claim_credential r = credential_pk c) new_claims
    /\ names d' = names d /\ addresses d' = addresses d
    /\ people d' = people d /\ contacts d' = contacts d.
Proof.
  intros Hconfig Hunique self.
  assert (Hsubject : exists s d1,
            get_or_create_subject sid d = (Ok s, d1)
            /\ In s (subjects d1) /\ source_id s = sid
            /\ credential_rows d1 = credential_rows d /\ claims d1 = claims d
            /\ names d1 = names d /\ addresses d1 = addresses d
            /\ people d1 = people d /\ contacts d1 = contacts d).
  { unfold get_or_create_subject.
    destruct (filter (fun s => source_id s =? sid) (subjects d))
      as [| s0 [| s1 more]] eqn:Hfilter.
    - eexists _, _. split; [reflexivity |]. simpl.
      repeat split; auto. apply in_or_app. right. now left.
    - exists s0, d. split; [reflexivity |].
      assert (Hin : In s0 (filter (fun s => source_id s =? sid) (subjects d)))
        by (rewrite Hfilter; now left).
      apply filter_In in Hin. destruct Hin as [Hin Hsid].
      apply String.eqb_eq in Hsid. repeat split; auto.
    - simpl in Hunique. lia. }
  destruct Hsubject as (s & d1 & Hs & Hin & Hsid & Hc1 & Hcl1 & Hn & Ha & Hp & Hco).
  set (c := {| credential_pk := next_pk credential_pk (credential_rows d1);
               subject := subject_pk s;
               credential_type := credential_type_pk ct |}).
  set (d2 := with_credential_rows (credential_rows d1 ++ [c]) d1).
  destruct (create_claims_appends self c data eq_refl
              (Credential_claim_attributes (credential self)) d2)
    as (rows & Hrun & Hnames & Hrows).
  { intros a Ha0. unfold self in Ha0. cbn [credential] in Ha0.
    now rewrite claim_attributes_init in Ha0. }
  exists s, c, rows, (with_claims (claims d2 ++ rows) d2).
  split.
  { unfold populate_application_database, bind. rewrite Hs.
    unfold create_credential. fold c. fold d2. rewrite Hrun.
    destruct Hconfig as [-> | ->]; reflexivity. }
  simpl. rewrite Hc1, Hcl1. repeat split; auto.
  - unfold self in Hnames. cbn [credential] in Hnames.
    now rewrite claim_attributes_init in Hnames.
  - eapply Forall_impl; [| exact Hrows]. intros r [H _].
    rewrite H. simpl. now rewrite Hc1.
Qed.

End IngestionFacts.

(** The scenario's credential under a credential type without rules:
    one credential, two claims, no contact. *)
Lemma no_rules_no_satellite_records_witness :
  exists c d',
    populate_application_database sample_schema_key sample_json_dumps no_modules
      scenario_manager bare_credential_type "Acme"
      (configured_db sample_schema_key scenario_manager [bare_credential_type])
    = (Ok (credential_pk c), d')
    /\ credential_rows d' = [c]
    /\ length (claims d') = 2
    /\ contacts d' = [].
Proof.
  destruct (no_rules_no_satellite_records sample_schema_key sample_json_dumps
              no_modules scenario_data [] bare_credential_type "Acme"
              (configured_db sample_schema_key scenario_manager [bare_credential_type])
              (or_introl eq_refl) (Nat.le_0_l 1))
    as (s & c & rows & d' & Hrun & _ & _ & Hc & _ & _ & Hcl & Hnames & _ & _ & _ & _ & Hco).
  exists c, d'. repeat split; try assumption.
  rewrite Hcl. simpl. rewrite <- (length_map claim_name), Hnames. reflexivity.
Defined.

(* ===================================================================== *)
(** ** The upsert of a draft *)
(* ===================================================================== *)

(** *** The order of the matches *)

Lemma in_insert_desc r l x : In x (insert_desc r l) <-> x = r \/ In x l.
Proof.
  induction l as [| y l IH]; simpl.
  - intuition.
  - destruct (create_timestamp y <=? create_timestamp r)%nat; simpl.
    + intuition.
    + rewrite IH. intuition.
Qed.

Lemma in_order_by l x : In x (order_by_create_timestamp_desc l) <-> In x l.
Proof.
  induction l as [| y l IH]; simpl; [tauto |].
  rewrite in_insert_desc, IH. intuition.
Qed.

Lemma insert_desc_head_newest r l :
  (forall m rest, l = m :: rest ->
     forall x, In x l -> create_timestamp x <= create_timestamp m) ->
  forall m rest, insert_desc r l = m :: rest ->
    forall x, In x (insert_desc r l) -> create_timestamp x <= create_timestamp m.
Proof.
  intros Hl m rest Hins x Hx. destruct l as [| y l]; simpl in *.
  - injection Hins as <- <-. destruct Hx as [<- | []]. lia.
  - specialize (Hl y l eq_refl).
    destruct (create_timestamp y <=? create_timestamp r)%nat eqn:E.
    + apply Nat.leb_le in E. injection Hins as <- <-.
      destruct Hx as [<- | Hx]; [lia |].
      specialize (Hl x Hx). lia.
    + apply Nat.leb_gt in E. injection Hins as <- <-.
      destruct Hx as [<- | Hx]; [lia |].
      apply in_insert_desc in Hx. destruct Hx as [-> | Hx]; [lia |].
      apply Hl. now right.
Qed.

Lemma order_by_head_newest l : forall m rest,
  order_by_create_timestamp_desc l = m :: rest ->
  forall x, In x l -> create_timestamp x <= create_timestamp m.
Proof.
  induction l as [| y l IH]; intros m rest H x Hx; [destruct Hx |].
  simpl in H. eapply insert_desc_head_newest.
  - intros m' rest' Hl x' Hx'. eapply IH; [exact Hl |].
    now apply in_order_by.
  - exact H.
  - rewrite H. rewrite <- H. apply in_insert_desc.
    destruct Hx as [<- | Hx]; [now left | right; now apply in_order_by].
Qed.

Section UpsertFacts.

Variable credential_table : list CredentialRow.
Variable subject_id : nat.
Variable cardinality_fields : list string.
Variable pv : dict pyval.
Variable args : dict pyval.

Hypothesis Hargs : build_model_args subject_id cardinality_fields pv = Ok args.
Hypothesis Hfields : forall f, In f (PyDict.keys pv) -> data_field f = true.
Hypothesis Hend :
  PyDict.get "end_date" pv = None \/ PyDict.get "end_date" pv = Some PNone.

Local Abbreviation current :=
  (current_for credential_table subject_id cardinality_fields pv).

(** *** The filter arguments *)

Lemma cardinality_field_is_data_field cf :
  In cf cardinality_fields -> data_field cf = true.
Proof.
  intros Hin. apply Hfields.
  destruct (add_cardinality_args_entries _ _ _ _ Hargs) as (_ & _ & _ & Hcfs).
  destruct (Hcfs cf Hin) as (v & Hv & _). apply get_some_in_keys. eauto.
Qed.

Lemma args_subject : In ("credentials__subject__id", PInt (Z.of_nat subject_id)) args.
Proof.
  destruct (add_cardinality_args_entries _ _ _ _ Hargs) as (_ & Hkeep & _ & _).
  apply Hkeep; [now left |].
  intros Hin. apply cardinality_field_is_data_field in Hin. discriminate.
Qed.

Lemma args_end_date : In ("end_date", PNone) args.
Proof.
  destruct (add_cardinality_args_entries _ _ _ _ Hargs) as (_ & Hkeep & Hagree & Hcfs).
  destruct (in_dec string_dec "end_date" cardinality_fields) as [Hin | Hout].
  - apply Hagree; [right; now left |].
    destruct (Hcfs _ Hin) as (v & Hv & _). destruct Hend as [H | H]; congruence.
  - apply Hkeep; [right; now left | assumption].
Qed.

Lemma args_entries k v :
  In (k, v) args ->
  (k = "credentials__subject__id" /\ v = PInt (Z.of_nat subject_id))
  \/ (k = "end_date" /\ v = PNone)
  \/ (In k cardinality_fields /\ PyDict.get k pv = Some v).
Proof.
  destruct (add_cardinality_args_entries _ _ _ _ Hargs) as (Hentries & _).
  intros Hin. destruct (Hentries k v Hin) as [[H | [H | []]] | H].
  - injection H as <- <-. now left.
  - injection H as <- <-. right. now left.
  - right. now right.
Qed.

(** The filter of the query singles out the current records of the
    draft. *)
Lemma row_matches_current row :
  row_matches credential_table args row = current row.
Proof.
  apply Bool.eq_iff_eq_true. unfold row_matches, current_for.
  rewrite forallb_forall, !andb_true_iff, forallb_forall. split.
  - intros Hall. repeat split.
    + apply (Hall _ args_subject).
    + apply (Hall _ args_end_date).
    + intros cf Hin.
      destruct (add_cardinality_args_entries _ _ _ _ Hargs) as (_ & _ & _ & Hcfs).
      destruct (Hcfs cf Hin) as (v & Hv & Hinargs). rewrite Hv.
      specialize (Hall _ Hinargs). unfold lookup_holds in Hall. simpl in Hall.
      destruct (cf =? "credentials__subject__id") eqn:E; [| exact Hall].
      apply String.eqb_eq in E. subst cf.
      apply cardinality_field_is_data_field in Hin. discriminate.
  - intros [[Hbelongs Hnull] Hcfs] [k v] Hin.
    destruct (args_entries k v Hin) as [[-> ->] | [[-> ->] | [Hk Hv]]].
    + exact Hbelongs.
    + exact Hnull.
    + unfold lookup_holds. simpl.
      destruct (k =? "credentials__subject__id") eqn:E.
      * apply String.eqb_eq in E. subst k.
        apply cardinality_field_is_data_field in Hk. discriminate.
      * specialize (Hcfs k Hk). now rewrite Hv in Hcfs.
Qed.

(** *** Assigning the draft to a record *)

Lemma setattr_model_attr row k v f :
  data_field f = true ->
  row_attr (setattr_model row k v) f = if f =? k then v else row_attr row f.
Proof.
  intros Hf. unfold setattr_model, row_attr.
  destruct (k =? "end_date") eqn:Hk; simpl.
  - apply String.eqb_eq in Hk. subst k. destruct (f =? "end_date"); reflexivity.
  - destruct (f =? "end_date") eqn:Hfe.
    + apply String.eqb_eq in Hfe. subst f. rewrite String.eqb_sym, Hk. reflexivity.
    + unfold data_field, bookkeeping_attrs in Hf. simpl in Hf.
      destruct (f =? "id"); [discriminate |].
      destruct (f =? "pk"); [discriminate |].
      destruct (f =? "create_timestamp"); [discriminate |]. simpl.
      destruct (f =? k) eqn:Hfk.
      * apply String.eqb_eq in Hfk. subst f. now rewrite get_set_same.
      * apply String.eqb_neq in Hfk. now rewrite get_set_other.
Qed.

Lemma assign_keys_attr f ks : forall row,
  data_field f = true ->
  row_attr (fold_left (fun m value =>
                         match PyDict.get value pv with
                         | Some v => setattr_model m value v
                         | None => m
                         end) ks row) f
  = if existsb (String.eqb f) ks
    then match PyDict.get f pv with Some v => v | None => row_attr row f end
    else row_attr row f.
Proof.
  intros row Hf. revert row. induction ks as [| k ks IH]; intros row; simpl.
  - reflexivity.
  - rewrite IH. destruct (f =? k) eqn:Hfk; simpl.
    + apply String.eqb_eq in Hfk. subst k.
      destruct (PyDict.get f pv) as [v |] eqn:Hv.
      * destruct (existsb (String.eqb f) ks); [reflexivity |].
        rewrite setattr_model_attr by assumption. now rewrite String.eqb_refl.
      * destruct (existsb (String.eqb f) ks); reflexivity.
    + destruct (PyDict.get k pv) as [v |]; [| reflexivity].
      rewrite setattr_model_attr by assumption. rewrite Hfk. reflexivity.
Qed.

Lemma assign_processed_values_attr f row :
  data_field f = true ->
  row_attr (assign_processed_values pv row) f
  = match PyDict.get f pv with Some v => v | None => row_attr row f end.
Proof.
  intros Hf. unfold assign_processed_values. rewrite assign_keys_attr by assumption.
  destruct (existsb (String.eqb f) (PyDict.keys pv)) eqn:E.
  - reflexivity.
  - destruct (PyDict.get f pv) eqn:Hv; [| reflexivity].
    assert (Hin : In f (PyDict.keys pv)) by (apply get_some_in_keys; eauto).
    assert (Hex : existsb (String.eqb f) (PyDict.keys pv) = true).
    { apply existsb_exists. exists f. split; [exact Hin | apply String.eqb_refl]. }
    congruence.
Qed.

Lemma assign_keys_pk ks : forall row,
  pk (fold_left (fun m value =>
                   match PyDict.get value pv with
                   | Some v => setattr_model m value v
                   | None => m
                   end) ks row) = pk row
  /\ credentials (fold_left (fun m value =>
                   match PyDict.get value pv with
                   | Some v => setattr_model m value v
                   | None => m
                   end) ks row) = credentials row
  /\ create_timestamp (fold_left (fun m value =>
                   match PyDict.get value pv with
                   | Some v => setattr_model m value v
                   | None => m
                   end) ks row) = create_timestamp row.
Proof.
  induction ks as [| k ks IH]; intros row; simpl; [auto |].
  destruct (IH (match PyDict.get k pv with
                | Some v => setattr_model row k v
                | None => row
                end)) as (H1 & H2 & H3).
  rewrite H1, H2, H3.
  destruct (PyDict.get k pv); [| auto].
  unfold setattr_model. destruct (k =? "end_date"); auto.
Qed.

Lemma assign_processed_values_pk row : pk (assign_processed_values pv row) = pk row.
Proof. apply assign_keys_pk. Qed.

Lemma assign_processed_values_credentials row :
  credentials (assign_processed_values pv row) = credentials row.
Proof. apply assign_keys_pk. Qed.

Lemma in_add_credential credential_id row :
  In credential_id (credentials (add_credential credential_id row)).
Proof.
  unfold add_credential. simpl.
  destruct (existsb (Nat.eqb credential_id) (credentials row)) eqn:E.
  - apply existsb_exists in E. destruct E as (x & Hin & Hx).
    apply Nat.eqb_eq in Hx. now subst x.
  - apply in_or_app. right. now left.
Qed.

(** A record that is current, or new, is current after the draft has
    been assigned to it and the subject's credential has been added. *)
Lemma saved_record_is_current credential_id row :
  owned_by credential_table credential_id subject_id = true ->
  end_date row = PNone ->
  current (add_credential credential_id (assign_processed_values pv row)) = true.
Proof.
  intros Howned Hnull.
  assert (Hattr : forall f, data_field f = true ->
            row_attr (add_credential credential_id (assign_processed_values pv row)) f
            = match PyDict.get f pv with Some v => v | None => row_attr row f end).
  { intros f Hf. rewrite <- assign_processed_values_attr by assumption. reflexivity. }
  unfold current_for. rewrite !andb_true_iff, forallb_forall. repeat split.
  - unfold belongs_to. apply existsb_exists. exists credential_id.
    split; [apply in_add_credential |].
    unfold owned_by in Howned. apply existsb_exists in Howned.
    destruct Howned as (cr & Hin & Hcr). apply andb_true_iff in Hcr.
    destruct Hcr as [Hpk Hsubject]. apply existsb_exists. exists cr.
    split; [exact Hin |]. rewrite Hpk. simpl.
    apply Nat.eqb_eq in Hsubject. rewrite Hsubject. apply pyval_eqb_refl.
  - change (end_date (add_credential credential_id (assign_processed_values pv row)))
      with (row_attr (add_credential credential_id (assign_processed_values pv row))
              "end_date").
    rewrite Hattr by reflexivity.
    destruct Hend as [-> | ->]; [| reflexivity].
    unfold row_attr. simpl. rewrite Hnull. reflexivity.
  - intros cf Hin.
    destruct (add_cardinality_args_entries _ _ _ _ Hargs) as (_ & _ & _ & Hcfs).
    destruct (Hcfs cf Hin) as (v & Hv & _). rewrite Hv.
    rewrite Hattr by (now apply cardinality_field_is_data_field).
    rewrite Hv. apply pyval_eqb_refl.
Qed.

Lemma current_is_null row : current row = true -> end_date row = PNone.
Proof.
  unfold current_for. rewrite !andb_true_iff. intros [[_ H] _].
  now apply pyval_eqb_eq in H.
Qed.

Lemma end_dated_is_not_current now row :
  current (set_end_date (PDateTime now) row) = false.
Proof.
  unfold current_for. simpl.
  destruct (belongs_to credential_table (set_end_date (PDateTime now) row)
              (PInt (Z.of_nat subject_id))); reflexivity.
Qed.

(** *** Counting the current records *)

Lemma filter_length_map {A B} (p : B -> bool) (g : A -> B) (l : list A) :
  length (filter p (map g l)) = length (filter (fun x => p (g x)) l).
Proof.
  induction l as [| x l IH]; simpl; [reflexivity |].
  destruct (p (g x)); simpl; now rewrite IH.
Qed.

Lemma one_row_per_key (table : list ModelRow) (m : ModelRow) :
  NoDup (map pk table) -> In m table ->
  length (filter (fun r => (pk r =? pk m)%nat) table) = 1.
Proof.
  induction table as [| r table IH]; intros Hnodup Hin; [destruct Hin |].
  simpl in Hnodup. inversion Hnodup as [| ? ? Hfresh Hrest]; subst. simpl.
  destruct Hin as [-> | Hin].
  - rewrite Nat.eqb_refl. simpl. f_equal.
    assert (Hnone : forall l, ~ In (pk m) (map pk l) ->
              filter (fun r => (pk r =? pk m)%nat) l = []).
    { induction l as [| y l IHl]; simpl; intros Hy; [reflexivity |].
      destruct (pk y =? pk m)%nat eqn:E.
      - apply Nat.eqb_eq in E. exfalso. apply Hy. now left.
      - apply IHl. intros ?. apply Hy. now right. }
    now rewrite Hnone.
  - destruct (pk r =? pk m)%nat eqn:E.
    + apply Nat.eqb_eq in E. exfalso. apply Hfresh. rewrite E.
      now apply in_map.
    + now apply IH.
Qed.

Lemma next_pk_is_fresh (table : list ModelRow) :
  ~ In (next_pk pk table) (map pk table).
Proof.
  unfold next_pk. intros Hin.
  assert (H : Forall (fun k => k <= list_max (map pk table)) (map pk table))
    by (apply list_max_le; lia).
  rewrite Forall_forall in H. specialize (H _ Hin). lia.
Qed.

Lemma query_is_sorted_current table :
  query credential_table table args
  = order_by_create_timestamp_desc (filter current table).
Proof.
  unfold query. f_equal. apply filter_ext. intros r. apply row_matches_current.
Qed.

(** The draft [pv] assigns no end date other than null.  After its
    upsert exactly one record belongs to the subject, has a null end
    date and carries the draft's cardinality values, and primary keys
    are still unique.  When no such record existed, one is created from
    the draft.  When some existed, the one created last is overwritten
    with the draft's values and every other one gets the end date
    [now]. *)
Lemma open_draft_leaves_one_current
    (table : list ModelRow) (credential_id now : nat) :
  NoDup (map pk table) ->
  owned_by credential_table credential_id subject_id = true ->
  let table' := upsert credential_table table args pv credential_id now in
  length (filter current table') = 1
  /\ NoDup (map pk table')
  /\ (filter current table = [] ->
      table' = (table ++ [add_credential credential_id
                            (assign_processed_values pv
                               (new_model (next_pk pk table) now))])%list)
  /\ (filter current table <> [] ->
      exists m,
        In m table /\ current m = true
        /\ (forall r, In r table -> current r = true ->
              create_timestamp r <= create_timestamp m)
        /\ (forall f v, PyDict.get f pv = Some v ->
              row_attr (assign_processed_values pv m) f = v)
        /\ table' = map (fun r =>
                           if (pk r =? pk m)%nat
                           then add_credential credential_id
                                  (assign_processed_values pv m)
                           else if current r
                                then set_end_date (PDateTime now) r
                                else r)
                         table).
Proof.
  intros Hnodup Howned table'.
  assert (Hupsert : table' = upsert credential_table table args pv credential_id now)
    by reflexivity.
  clearbody table'. unfold upsert in Hupsert.
  rewrite query_is_sorted_current in Hupsert.
  destruct (order_by_create_timestamp_desc (filter current table))
    as [| m rest] eqn:Hq.
  - (* no current record: a new one *)
    assert (Hnone : filter current table = []).
    { destruct (filter current table) as [| x l] eqn:Hf; [reflexivity |].
      assert (Hin : In x (order_by_create_timestamp_desc (x :: l)))
        by (apply in_order_by; now left).
      rewrite Hq in Hin. destruct Hin. }
    subst table'. repeat split.
    + rewrite filter_app, Hnone. simpl.
      rewrite saved_record_is_current by (assumption || reflexivity). reflexivity.
    + rewrite map_app. simpl.
      apply NoDup_app; [assumption | repeat constructor; intros [] |].
      intros k Hk [<- | []]. unfold add_credential in Hk. simpl in Hk.
      rewrite assign_processed_values_pk in Hk. simpl in Hk.
      now apply next_pk_is_fresh in Hk.
    + intros Hne. contradiction.
  - (* some current record: the newest is overwritten *)
    assert (Hm : In m (filter current table)).
    { apply in_order_by. rewrite Hq. now left. }
    apply filter_In in Hm. destruct Hm as [Hmin Hmcur].
    set (saved := add_credential credential_id (assign_processed_values pv m)).
    assert (Hsaved_pk : pk saved = pk m)
      by (unfold saved, add_credential; simpl; apply assign_processed_values_pk).
    assert (Htable : table'
      = map (fun r => if (pk r =? pk m)%nat then saved
                      else if current r then set_end_date (PDateTime now) r else r)
            table).
    { rewrite Hupsert. unfold save_existing, end_date_others. rewrite map_map.
      apply map_ext. intros r. fold saved. rewrite Hsaved_pk.
      rewrite row_matches_current.
      destruct (pk r =? pk m)%nat eqn:E.
      - destruct (current r); simpl; rewrite E; reflexivity.
      - destruct (current r); simpl; rewrite E; reflexivity. }
    rewrite Htable. repeat split.
    + rewrite filter_length_map.
      rewrite (filter_ext _ (fun r => (pk r =? pk m)%nat)).
      * now apply one_row_per_key.
      * intros r. destruct (pk r =? pk m)%nat.
        -- apply saved_record_is_current; [assumption |].
           now apply current_is_null.
        -- destruct (current r) eqn:E; [apply end_dated_is_not_current | exact E].
    + rewrite map_map. erewrite map_ext; [exact Hnodup |].
      intros r. simpl. destruct (pk r =? pk m)%nat eqn:E.
      * apply Nat.eqb_eq in E. congruence.
      * destruct (current r); reflexivity.
    + intros Hnone. exfalso.
      assert (Hin : In m (filter current table)) by (apply filter_In; auto).
      rewrite Hnone in Hin. destruct Hin.
    + intros _. exists m. repeat split; auto.
      * intros r Hr Hcur. eapply order_by_head_newest; [exact Hq |].
        apply filter_In. auto.
      * intros f v Hv. rewrite assign_processed_values_attr.
        -- now rewrite Hv.
        -- apply Hfields, get_some_in_keys. eauto.
Qed.

(** *** A draft that assigns an end date *)

Lemma filter_all_false {A} (p : A -> bool) (l : list A) :
  (forall x, In x l -> p x = false) -> filter p l = [].
Proof.
  induction l as [| x l IH]; intros H; simpl; [reflexivity |].
  rewrite (H x (or_introl eq_refl)). apply IH. intros y Hy. apply H. now right.
Qed.

(** Whatever end date the draft assigns, a current record of the draft
    is selected by the filter. *)
Lemma current_row_matches row :
  current row = true -> row_matches credential_table args row = true.
Proof.
  clear Hend. intros Hcur. unfold current_for in Hcur.
  rewrite !andb_true_iff, forallb_forall in Hcur.
  destruct Hcur as [[Hbelongs Hnull] Hcfs].
  unfold row_matches. apply forallb_forall. intros [k v] Hin.
  destruct (args_entries k v Hin) as [[-> ->] | [[-> ->] | [Hk Hv]]].
  - exact Hbelongs.
  - exact Hnull.
  - unfold lookup_holds. simpl.
    destruct (k =? "credentials__subject__id") eqn:E.
    + apply String.eqb_eq in E. subst k.
      apply cardinality_field_is_data_field in Hk. discriminate.
    + specialize (Hcfs k Hk). now rewrite Hv in Hcfs.
Qed.

(** The record the draft is written to carries the draft's values and
    the credential. *)
Lemma saved_record_carries_draft credential_id row :
  (forall f x, PyDict.get f pv = Some x ->
     row_attr (add_credential credential_id (assign_processed_values pv row)) f = x)
  /\ In credential_id
        (credentials (add_credential credential_id (assign_processed_values pv row))).
Proof.
  clear Hend. split; [| apply in_add_credential].
  intros f x Hx.
  change (row_attr (assign_processed_values pv row) f = x).
  rewrite assign_processed_values_attr.
  - now rewrite Hx.
  - apply Hfields, get_some_in_keys. eauto.
Qed.

Lemma end_dated_draft_is_not_current credential_id row v :
  PyDict.get "end_date" pv = Some v -> v <> PNone ->
  current (add_credential credential_id (assign_processed_values pv row)) = false.
Proof.
  clear Hend. intros Hv Hne. unfold current_for.
  assert (Hdate : end_date (add_credential credential_id
                              (assign_processed_values pv row)) = v)
    by (apply (proj1 (saved_record_carries_draft credential_id row) "end_date" v Hv)).
  rewrite Hdate. apply pyval_eqb_neq in Hne. rewrite Hne.
  now rewrite andb_false_r.
Qed.

(** The draft [pv] assigns an end date that is not null.  The record it
    is written to, the newest record the filter selects or else a new
    one, carries that end date with the draft's other values, and after
    the upsert no record is current for the draft's subject and
    cardinality values. *)
Lemma end_dated_draft_leaves_none_current
    (table : list ModelRow) (credential_id now : nat) (v : pyval) :
  PyDict.get "end_date" pv = Some v -> v <> PNone ->
  let table' := upsert credential_table table args pv credential_id now in
  let target :=
    match query credential_table table args with
    | model :: _ => model
    | [] => new_model (next_pk pk table) now
    end in
  let saved := add_credential credential_id (assign_processed_values pv target) in
  In saved table'
  /\ end_date saved = v
  /\ (forall f x, PyDict.get f pv = Some x -> row_attr saved f = x)
  /\ In credential_id (credentials saved)
  /\ (forall r, In r table -> row_matches credential_table args r = true ->
        In target table /\ create_timestamp r <= create_timestamp target)
  /\ filter current table' = [].
Proof.
  clear Hend. intros Hv Hne table' target saved.
  destruct (saved_record_carries_draft credential_id target) as [Hattrs Hcred].
  fold saved in Hattrs, Hcred.
  assert (Hdate : end_date saved = v) by exact (Hattrs "end_date" v Hv).
  subst table'. unfold upsert. unfold query in *.
  destruct (order_by_create_timestamp_desc
              (filter (row_matches credential_table args) table))
    as [| m rest] eqn:Hq.
  - assert (Hnomatch : forall r, In r table ->
              row_matches credential_table args r = false).
    { intros r Hr. destruct (row_matches credential_table args r) eqn:E;
        [| reflexivity]. exfalso.
      assert (Hin : In r (order_by_create_timestamp_desc
                            (filter (row_matches credential_table args) table)))
        by (apply in_order_by, filter_In; auto).
      rewrite Hq in Hin. destruct Hin. }
    assert (Hnone : forall r, In r table -> current r = false).
    { intros r Hr. destruct (current r) eqn:E; [| reflexivity].
      apply current_row_matches in E. rewrite (Hnomatch r Hr) in E. discriminate. }
    repeat split; auto.
    + apply in_or_app. right. now left.
    + rewrite (Hnomatch r) in *; [discriminate | assumption].
    + rewrite (Hnomatch r) in *; [discriminate | assumption].
    + rewrite filter_app, (filter_all_false _ _ Hnone).
      assert (Hnot : current saved = false)
        by exact (end_dated_draft_is_not_current credential_id target v Hv Hne).
      change ((if current saved then [saved] else []) = []).
      now rewrite Hnot.
  - assert (Hm : In m (filter (row_matches credential_table args) table)).
    { apply in_order_by. rewrite Hq. now left. }
    apply filter_In in Hm. destruct Hm as [Hmin Hmatch].
    assert (Hsaved_pk : pk saved = pk m)
      by (unfold saved, add_credential; simpl; apply assign_processed_values_pk).
    change (add_credential credential_id (assign_processed_values pv m)) with saved.
    unfold save_existing, end_date_others. rewrite map_map, Hsaved_pk.
    repeat split; auto.
    + apply in_map_iff. exists m. split; [| exact Hmin].
      rewrite Nat.eqb_refl, andb_false_r. now rewrite Nat.eqb_refl.
    + eapply order_by_head_newest; [exact Hq |]. apply filter_In. auto.
    + apply filter_all_false. intros r Hr. apply in_map_iff in Hr.
      destruct Hr as (r0 & <- & Hr0).
      destruct (pk r0 =? pk m)%nat eqn:E.
      * rewrite andb_false_r, E. apply (end_dated_draft_is_not_current _ _ v Hv Hne).
      * rewrite andb_true_r.
        destruct (row_matches credential_table args r0) eqn:Hmatch0; simpl; rewrite E.
        -- apply end_dated_is_not_current.
        -- destruct (current r0) eqn:Hcur; [| reflexivity].
           apply current_row_matches in Hcur. congruence.
Qed.

End UpsertFacts.




(* ===================================================================== *)
(** ** Ingestion of the scenario's credential *)
(* ===================================================================== *)

(** Runs [process] on a database built by [configured_db]. *)
Ltac run_process :=
  unfold process, bind, get_context, objects_get, configured_db; simpl;
  rewrite ?String.eqb_refl; simpl; rewrite ?Nat.eqb_refl; simpl.

Section ScenarioFacts.

Variable schema_key : string -> SchemaKey.
Variable json_dumps : credential_data -> string.
Variable json_dumps_metadata : dict string -> string.

Local Abbreviation process' :=
  (process schema_key json_dumps json_dumps_metadata no_modules).

(** C1. First ingestion of the scenario's credential, whose credential
    type names [legal_name] as source claim: one credential, two claims
    and one current contact with the email are created, but the subject
    they hang on has the source identifier ["source_id"], the literal
    text passed at lines 198 to 201, and not ["Acme"], the value of the
    source claim; the wallet is opened under the same literal. *)
Theorem scenario_subject_source_id :
  process' scenario_manager
    (configured_db schema_key scenario_manager
       [scenario_credential_type [contact_rule]])
  = (Ok 1,
     {| issuers := issuers (configured_db schema_key scenario_manager []);
        schemas := schemas (configured_db schema_key scenario_manager []);
        credential_types := [scenario_credential_type [contact_rule]];
        subjects := [ {| subject_pk := 1; source_id := "source_id" |} ];
        credential_rows := [ {| credential_pk := 1; subject := 1; credential_type := 1 |} ];
        claims := [ {| claim_pk := 1; claim_credential := 1;
                       claim_name := "email"; claim_value := PStr "a@b.com" |};
                    {| claim_pk := 2; claim_credential := 1;
                       claim_name := "legal_name"; claim_value := PStr "Acme" |} ];
        names := []; addresses := []; people := [];
        contacts := [ {| pk := 1; create_timestamp := 0; end_date := PNone;
                         columns := [ ("email", PStr "a@b.com") ];
                         credentials := [1] |} ];
        clock := 1;
        wallet := [ ("source_id", json_dumps scenario_data, json_dumps_metadata []) ] |})
  /\ getattr schema_key json_dumps (credential scenario_manager) "legal_name"
     = Ok (PStr "Acme")
  /\ "source_id" <> "Acme".
Proof.
  split; [| split; [reflexivity | discriminate]].
  run_process. reflexivity.
Qed.

(** C2. The issuer and the schema of the credential are known, but no
    credential type links them: [process] ends with the
    [DoesNotExist] of [CredentialType.objects.get], which is raised
    outside the [try] block and is no [CredentialException]; nothing has
    been written. *)
Theorem missing_credential_type_is_not_wrapped :
  process' scenario_manager (configured_db schema_key scenario_manager [])
  = (Raise (DoesNotExist "CredentialType"),
     configured_db schema_key scenario_manager [])
  /\ forall msg, DoesNotExist "CredentialType" <> CredentialException msg.
Proof.
  split; [| discriminate].
  run_process. reflexivity.
Qed.

(** C3. With [from = "value"] the base value is the literal input,
    whatever the credential holds; with [from = "claim"] it is what the
    accessor returns for the claim.  A field that reads the claim
    [phone], which the credential does not have: the field's value is
    the [AttributeError] of the accessor, and [process] ends with it,
    after the subject, the credential and the claims have been written.
    The same accessor failure for the source claim is turned into a
    [CredentialException] by [process]. *)
Theorem missing_field_claim_is_not_wrapped :
  (forall credential _input,
     base_value schema_key json_dumps credential _input "value" = Ok (PStr _input)
     /\ base_value schema_key json_dumps credential _input "claim"
        = getattr schema_key json_dumps credential _input)
  /\ field_value_of schema_key json_dumps no_modules (credential scenario_manager)
    {| input := Some "phone"; from := Some "claim"; processor := None |}
  = Raise (AttributeError "'Credential' object has no attribute 'phone'")
  /\ (exists d',
        process' scenario_manager
          (configured_db schema_key scenario_manager
             [scenario_credential_type [phone_claim_rule]])
        = (Raise (AttributeError "'Credential' object has no attribute 'phone'"), d')
        /\ length (credential_rows d') = 1 /\ length (claims d') = 2)
  /\ process' scenario_manager
       (configured_db schema_key scenario_manager [registration_credential_type])
     = (Raise (CredentialException
                 ("Credential does not contain the configured source_claim "
                  ++ "'registration_id'. Claims are: email, legal_name")),
        configured_db schema_key scenario_manager [registration_credential_type]).
Proof.
  split; [intros; split; reflexivity |].
  split; [reflexivity |]. split.
  - eexists. run_process. split; [reflexivity |]. split; reflexivity.
  - run_process. reflexivity.
Qed.

End ScenarioFacts.

(* ===================================================================== *)
(** ** Failures of [process] before anything is written *)
(* ===================================================================== *)

Section ContextFacts.

Variable schema_key : string -> SchemaKey.
Variable json_dumps : credential_data -> string.
Variable json_dumps_metadata : dict string -> string.
Variable import_module : string -> option (string -> option pyfun).

Local Abbreviation process' :=
  (process schema_key json_dumps json_dumps_metadata import_module).

(** No issuer has the credential's origin did: [process] ends with the
    [CredentialException] of lines 166 to 171 and the database is as it
    was. *)
Theorem unknown_issuer_is_reported (self : CredentialManager) (d : db) :
  filter (fun i => issuer_did i =? Credential_origin_did schema_key (credential self))
         (issuers d) = [] ->
  process' self d
  = (Raise (CredentialException
              ("Issuer with did '"
               ++ Credential_origin_did schema_key (credential self)
               ++ "' does not exist.")), d).
Proof.
  intros Hnone. unfold process, bind, get_context, objects_get.
  rewrite Hnone. reflexivity.
Qed.

(** One issuer has the origin did and no schema has the credential's
    origin did, name and version: [process] ends with the
    [CredentialException] of lines 172 to 181 and the database is as it
    was. *)
Theorem unknown_schema_is_reported (self : CredentialManager) (d : db) (i : IssuerRow) :
  filter (fun i => issuer_did i =? Credential_origin_did schema_key (credential self))
         (issuers d) = [i] ->
  filter (fun s =>
            (schema_origin_did s =? Credential_origin_did schema_key (credential self))
            && (schema_name s =? Credential_schema_name schema_key (credential self))
            && (schema_version s =? Credential_schema_version schema_key (credential self)))
         (schemas d) = [] ->
  process' self d
  = (Raise (CredentialException (unknown_schema_message schema_key self)), d).
Proof.
  intros Hissuer Hnone. unfold process, bind, get_context, objects_get.
  rewrite Hissuer. simpl. rewrite Hnone. reflexivity.
Qed.

(** A rule whose model is none of the four supported ones ends with the
    [CredentialException] of lines 233 to 238; the rule writes nothing. *)
Theorem unsupported_model_is_reported
    (self : CredentialManager) (s : SubjectRow) (c : CredentialRow)
    (mm : model_mapper) (d : db) :
  SUPPORTED_MODELS_MAPPING (model mm) = None ->
  apply_model_mapper schema_key json_dumps import_module self s c mm d
  = (Raise (CredentialException ("Unsupported model type '" ++ model mm ++ "'")), d).
Proof.
  intros Hnone. unfold apply_model_mapper. rewrite Hnone. reflexivity.
Qed.

End ContextFacts.

Lemma unknown_issuer_is_reported_witness :
  process sample_schema_key sample_json_dumps (fun _ => "{}") no_modules
    scenario_manager empty_db
  = (Raise (CredentialException "Issuer with did 'did:sov:ABC' does not exist."),
     empty_db).
Proof.
  exact (unknown_issuer_is_reported sample_schema_key sample_json_dumps
           (fun _ => "{}") no_modules scenario_manager empty_db eq_refl).
Defined.

Lemma unknown_schema_is_reported_witness :
  process sample_schema_key sample_json_dumps (fun _ => "{}") no_modules
    scenario_manager issuer_only_db
  = (Raise (CredentialException
              ("Schema with origin_did 'did:sov:ABC', name 'Test', "
               ++ "and version '1.0'  does not exist.")),
     issuer_only_db).
Proof.
  exact (unknown_schema_is_reported sample_schema_key sample_json_dumps
           (fun _ => "{}") no_modules scenario_manager issuer_only_db
           {| issuer_pk := 1; issuer_did := "did:sov:ABC" |} eq_refl eq_refl).
Defined.

Lemma unsupported_model_is_reported_witness :
  apply_model_mapper sample_schema_key sample_json_dumps no_modules
    scenario_manager sample_subject sample_credential_row
    vehicle_rule
    (configured_db sample_schema_key scenario_manager [])
  = (Raise (CredentialException "Unsupported model type 'vehicle'"),
     configured_db sample_schema_key scenario_manager []).
Proof.
  exact (unsupported_model_is_reported sample_schema_key sample_json_dumps
           no_modules scenario_manager sample_subject sample_credential_row
           vehicle_rule
           (configured_db sample_schema_key scenario_manager []) eq_refl).
Defined.

(** The scenario's credential ingested twice: the second ingestion
    finds the contact of the first, overwrites it in place and adds its
    own credential to it; there is still one contact. *)
Theorem reingestion_updates_the_same_contact :
  exists d1 d2,
    process sample_schema_key sample_json_dumps (fun _ => "{}") no_modules
      scenario_manager
      (configured_db sample_schema_key scenario_manager
         [scenario_credential_type [contact_rule]]) = (Ok 1, d1)
    /\ process sample_schema_key sample_json_dumps (fun _ => "{}") no_modules
         scenario_manager d1 = (Ok 2, d2)
    /\ contacts d1 = [ {| pk := 1; create_timestamp := 0; end_date := PNone;
                          columns := [ ("email", PStr "a@b.com") ];
                          credentials := [1] |} ]
    /\ contacts d2 = [ {| pk := 1; create_timestamp := 0; end_date := PNone;
                          columns := [ ("email", PStr "a@b.com") ];
                          credentials := [1; 2] |} ]
    /\ length (subjects d2) = 1
    /\ length (credential_rows d2) = 2
    /\ length (claims d2) = 4.
Proof.
  eexists. eexists. split; [vm_compute; reflexivity |].
  split; [vm_compute; reflexivity |]. repeat split.
Qed.

(** The scenario's credential under a rule for an unsupported record
    kind: [process] ends with the [CredentialException] of that rule
    after the subject, the credential and its two claims have been
    written, and they stay written; nothing reaches the wallet. *)
Theorem unsupported_model_leaves_credential_written :
  exists d',
    process sample_schema_key sample_json_dumps (fun _ => "{}") no_modules
      scenario_manager
      (configured_db sample_schema_key scenario_manager
         [scenario_credential_type [vehicle_rule]])
    = (Raise (CredentialException "Unsupported model type 'vehicle'"), d')
    /\ length (subjects d') = 1
    /\ length (credential_rows d') = 1
    /\ length (claims d') = 2
    /\ wallet d' = [].
Proof.
  eexists. split; [vm_compute; reflexivity |]. repeat split.
Qed.

(* ===================================================================== *)
(** ** What ingestion writes, and what it leaves alone *)
(* ===================================================================== *)

Lemma same_core_refl d : same_core d d.
Proof. repeat split. Qed.

Lemma same_core_trans d1 d2 d3 : same_core d1 d2 -> same_core d2 d3 -> same_core d1 d3.
Proof.
  unfold same_core. intros (? & ? & ? & ? & ? & ? & ?) (? & ? & ? & ? & ? & ? & ?).
  repeat split; congruence.
Qed.

Lemma next_pk_fresh {R} (key : R -> nat) (table : list R) :
  ~ In (next_pk key table) (map key table).
Proof.
  unfold next_pk. intros Hin.
  assert (H : Forall (fun k => k <= list_max (map key table)) (map key table))
    by (apply list_max_le; lia).
  rewrite Forall_forall in H. specialize (H _ Hin). lia.
Qed.

Lemma NoDup_snoc {A} (l : list A) (x : A) : NoDup l -> ~ In x l -> NoDup (l ++ [x]).
Proof.
  intros Hl Hx. apply NoDup_app; [assumption | repeat constructor; intros [] |].
  intros y Hy [<- | []]. contradiction.
Qed.

Lemma filter_nil_none {A} (p : A -> bool) (l : list A) :
  filter p l = [] -> forall x, In x l -> p x = false.
Proof.
  intros Hnil x Hin. destruct (p x) eqn:E; [| reflexivity].
  assert (H : In x (filter p l)) by (apply filter_In; auto).
  rewrite Hnil in H. destruct H.
Qed.

Section EffectFacts.

Variable schema_key : string -> SchemaKey.
Variable json_dumps : credential_data -> string.
Variable json_dumps_metadata : dict string -> string.
Variable import_module : string -> option (string -> option pyfun).

Local Abbreviation apply_model_mapper' :=
  (apply_model_mapper schema_key json_dumps import_module).
Local Abbreviation apply_model_mappers' :=
  (apply_model_mappers schema_key json_dumps import_module).
Local Abbreviation populate' :=
  (populate_application_database schema_key json_dumps import_module).
Local Abbreviation process' :=
  (process schema_key json_dumps json_dumps_metadata import_module).

(** *** The rules *)

Lemma apply_model_mapper_core self s c mm d :
  same_core d (snd (apply_model_mapper' self s c mm d)).
Proof.
  unfold apply_model_mapper, bind, lift, raise, timezone_now.
  destruct (SUPPORTED_MODELS_MAPPING (model mm)) as [Model |]; [| apply same_core_refl].
  destruct (processed_values_of _ _ _ _ mm) as [pv | e]; [| apply same_core_refl].
  destruct (build_model_args _ _ pv) as [args | e]; [| apply same_core_refl].
  simpl. repeat split.
Qed.

Lemma apply_model_mappers_core self s c rules : forall d,
  same_core d (snd (apply_model_mappers' self s c rules d)).
Proof.
  induction rules as [| mm rules IH]; intros d; simpl.
  - apply same_core_refl.
  - unfold bind. pose proof (apply_model_mapper_core self s c mm d) as H1.
    destruct (apply_model_mapper' self s c mm d) as [[[] | e] d1]; simpl in *.
    + eapply same_core_trans; [exact H1 | apply IH].
    + exact H1.
Qed.

(** A satellite table keeps its primary keys through an upsert, or gets
    one new key at its end. *)
Lemma upsert_pks credential_table table args pv credential_id now :
  map pk (upsert credential_table table args pv credential_id now) = map pk table
  \/ map pk (upsert credential_table table args pv credential_id now)
     = (map pk table ++ [next_pk pk table])%list.
Proof.
  unfold upsert. destruct (query credential_table table args) as [| m rest].
  - right. rewrite map_app. simpl. now rewrite assign_processed_values_pk.
  - left. unfold save_existing, end_date_others. rewrite !map_map.
    apply map_ext. intros r.
    assert (Hsaved : pk (add_credential credential_id (assign_processed_values pv m))
                     = pk m) by (simpl; apply assign_processed_values_pk).
    rewrite Hsaved.
    destruct (row_matches credential_table args r && negb (pk r =? pk m)%nat);
      simpl; destruct (pk r =? pk m)%nat eqn:E; try reflexivity;
      apply Nat.eqb_eq in E; rewrite E; apply assign_processed_values_pk.
Qed.

Lemma upsert_unique credential_table table args pv credential_id now :
  NoDup (map pk table) ->
  NoDup (map pk (upsert credential_table table args pv credential_id now)).
Proof.
  intros Hnodup.
  destruct (upsert_pks credential_table table args pv credential_id now) as [-> | ->].
  - assumption.
  - apply NoDup_snoc; [assumption | apply next_pk_fresh].
Qed.

Lemma apply_model_mapper_unique self s c mm d :
  NoDup (map pk (names d)) /\ NoDup (map pk (addresses d))
  /\ NoDup (map pk (people d)) /\ NoDup (map pk (contacts d)) ->
  let d' := snd (apply_model_mapper' self s c mm d) in
  NoDup (map pk (names d')) /\ NoDup (map pk (addresses d'))
  /\ NoDup (map pk (people d')) /\ NoDup (map pk (contacts d')).
Proof.
  intros (Hn & Ha & Hp & Hc).
  unfold apply_model_mapper, bind, lift, raise, timezone_now.
  destruct (SUPPORTED_MODELS_MAPPING (model mm)) as [Model |]; [| simpl; auto].
  destruct (processed_values_of _ _ _ _ mm) as [pv | e]; [| simpl; auto].
  destruct (build_model_args _ _ pv) as [args | e]; [| simpl; auto].
  destruct Model; simpl; repeat split; auto; now apply upsert_unique.
Qed.

Lemma apply_model_mappers_unique self s c rules : forall d,
  NoDup (map pk (names d)) /\ NoDup (map pk (addresses d))
  /\ NoDup (map pk (people d)) /\ NoDup (map pk (contacts d)) ->
  let d' := snd (apply_model_mappers' self s c rules d) in
  NoDup (map pk (names d')) /\ NoDup (map pk (addresses d'))
  /\ NoDup (map pk (people d')) /\ NoDup (map pk (contacts d')).
Proof.
  induction rules as [| mm rules IH]; intros d H; simpl; [exact H |].
  unfold bind. pose proof (apply_model_mapper_unique self s c mm d H) as H1.
  destruct (apply_model_mapper' self s c mm d) as [[[] | e] d1]; simpl in *.
  - now apply IH.
  - exact H1.
Qed.

(** *** The claims *)

Lemma create_claims_effect self c claim_attributes : forall d,
  exists rows,
    snd (create_claims schema_key json_dumps self c claim_attributes d)
      = with_claims (claims d ++ rows) d
    /\ Forall (fun r => claim_credential r = credential_pk c) rows
    /\ (NoDup (map claim_pk (claims d)) ->
        NoDup (map claim_pk (claims d ++ rows)%list))
    /\ (fst (create_claims schema_key json_dumps self c claim_attributes d) = Ok tt ->
        map claim_name rows = claim_attributes).
Proof.
  induction claim_attributes as [| a rest IH]; intros d.
  - exists []. simpl. rewrite app_nil_r. destruct d; repeat split; auto.
  - simpl. unfold bind at 1, lift.
    destruct (getattr schema_key json_dumps (credential self) a) as [v | e].
    + unfold bind at 1, create_claim.
      set (row := {| claim_pk := next_pk claim_pk (claims d);
                     claim_credential := credential_pk c;
                     claim_name := a; claim_value := v |}).
      destruct (IH (with_claims (claims d ++ [row]) d))
        as (rows & Hrun & Hrows & Hnodup & Hok).
      exists (row :: rows). rewrite Hrun. simpl. rewrite <- app_assoc. simpl.
      repeat split.
      * constructor; [reflexivity | exact Hrows].
      * intros Hd. change (claims d ++ row :: rows)%list
          with (claims d ++ [row] ++ rows)%list.
        rewrite app_assoc. apply Hnodup. simpl. rewrite map_app. simpl.
        apply NoDup_snoc; [assumption | apply next_pk_fresh].
      * intros H. now rewrite Hok.
    + exists []. simpl. rewrite app_nil_r. destruct d; repeat split; auto.
      discriminate.
Qed.

(** *** The subject *)

Lemma get_or_create_subject_effect sid d :
  (exists s, filter (fun s => source_id s =? sid) (subjects d) = [s]
             /\ get_or_create_subject sid d = (Ok s, d))
  \/ (filter (fun s => source_id s =? sid) (subjects d) = []
      /\ get_or_create_subject sid d
         = (Ok {| subject_pk := next_pk subject_pk (subjects d); source_id := sid |},
            with_subjects
              (subjects d ++ [ {| subject_pk := next_pk subject_pk (subjects d);
                                  source_id := sid |} ]) d))
  \/ (2 <= length (filter (fun s => source_id s =? sid) (subjects d))
      /\ get_or_create_subject sid d = (Raise (MultipleObjectsReturned "Subject"), d)).
Proof.
  unfold get_or_create_subject.
  destruct (filter (fun s => source_id s =? sid) (subjects d)) as [| s0 [| s1 more]].
  - right. left. auto.
  - left. eauto.
  - right. right. simpl. split; [lia | reflexivity].
Qed.

Lemma get_or_create_subject_found sid d s d1 :
  get_or_create_subject sid d = (Ok s, d1) ->
  In s (subjects d1) /\ source_id s = sid
  /\ same_core (with_subjects (subjects d1) d) d1
  /\ names d1 = names d /\ addresses d1 = addresses d
  /\ people d1 = people d /\ contacts d1 = contacts d
  /\ (subjects d1 = subjects d
      \/ (subjects d1 = (subjects d ++ [s])%list
          /\ subject_pk s = next_pk subject_pk (subjects d)
          /\ ~ In sid (map source_id (subjects d)))).
Proof.
  intros H.
  destruct (get_or_create_subject_effect sid d)
    as [(s0 & Hf & Hrun) | [(Hf & Hrun) | (_ & Hrun)]];
    rewrite Hrun in H; [| | discriminate]; injection H as <- <-.
  - assert (Hin : In s0 (filter (fun s => source_id s =? sid) (subjects d)))
      by (rewrite Hf; now left).
    apply filter_In in Hin. destruct Hin as [Hin Hsid]. apply String.eqb_eq in Hsid.
    repeat split; auto.
  - simpl. repeat split; auto.
    + apply in_or_app. right. now left.
    + right. repeat split. intros Hin. apply in_map_iff in Hin.
      destruct Hin as (x & Hx & Hin).
      pose proof (filter_nil_none _ _ Hf x Hin) as Hno. simpl in Hno.
      apply String.eqb_neq in Hno. contradiction.
Qed.

(** *** [populate_application_database] once the subject is found *)

Ltac close_effect :=
  try tauto; try discriminate;
  try match goal with
      | H : Ok _ = Ok _ |- _ => injection H as <-; reflexivity
      end.

Lemma populate_effect self ct sid d s d1 :
  get_or_create_subject sid d = (Ok s, d1) ->
  let c := {| credential_pk := next_pk credential_pk (credential_rows d1);
              subject := subject_pk s;
              credential_type := credential_type_pk ct |} in
  let d2 := with_credential_rows (credential_rows d1 ++ [c]) d1 in
  let r := populate' self ct sid d in
  exists rows,
    issuers (snd r) = issuers d1 /\ schemas (snd r) = schemas d1
    /\ credential_types (snd r) = credential_types d1
    /\ wallet (snd r) = wallet d1
    /\ subjects (snd r) = subjects d1
    /\ credential_rows (snd r) = (credential_rows d1 ++ [c])%list
    /\ claims (snd r) = (claims d1 ++ rows)%list
    /\ Forall (fun row => claim_credential row = credential_pk c) rows
    /\ (NoDup (map claim_pk (claims d1)) -> NoDup (map claim_pk (claims (snd r))))
    /\ (NoDup (map pk (names d1)) /\ NoDup (map pk (addresses d1))
        /\ NoDup (map pk (people d1)) /\ NoDup (map pk (contacts d1)) ->
        NoDup (map pk (names (snd r))) /\ NoDup (map pk (addresses (snd r)))
        /\ NoDup (map pk (people (snd r))) /\ NoDup (map pk (contacts (snd r))))
    /\ (fst (create_claims schema_key json_dumps self c
               (Credential_claim_attributes (credential self)) d2) = Ok tt ->
        map claim_name rows = Credential_claim_attributes (credential self))
    /\ (forall cid, fst r = Ok cid ->
          cid = credential_pk c
          /\ map claim_name rows = Credential_claim_attributes (credential self))
    /\ (fst r = Ok (credential_pk c) \/ exists e, fst r = Raise e).
Proof.
  intros Hs c d2 r.
  destruct (create_claims_effect self c
              (Credential_claim_attributes (credential self)) d2)
    as (rows & Hrun & Hrows & Hnodup & Hok).
  exists rows. subst r. unfold populate_application_database, bind.
  rewrite Hs. unfold create_credential. fold c. fold d2.
  destruct (create_claims schema_key json_dumps self c
              (Credential_claim_attributes (credential self)) d2)
    as [[[] | e] d3] eqn:Hcl; cbn [snd fst] in Hrun, Hok; subst d3.
  - assert (Hbase :
      forall d4, same_core (with_claims (claims d2 ++ rows) d2) d4 ->
        issuers d4 = issuers d1 /\ schemas d4 = schemas d1
        /\ credential_types d4 = credential_types d1
        /\ wallet d4 = wallet d1
        /\ subjects d4 = subjects d1
        /\ credential_rows d4 = (credential_rows d1 ++ [c])%list
        /\ claims d4 = (claims d1 ++ rows)%list).
    { intros d4 (H1 & H2 & H3 & H4 & H5 & H6 & H7). simpl in *. repeat split; auto. }
    destruct (processor_config ct) as [[| mm rules] |]; unfold ret.
    + simpl. repeat split; auto; close_effect.
    + pose proof (apply_model_mappers_core self s c (mm :: rules)
                    (with_claims (claims d2 ++ rows) d2)) as Hcore.
      pose proof (apply_model_mappers_unique self s c (mm :: rules)
                    (with_claims (claims d2 ++ rows) d2)) as Huniq.
      destruct (apply_model_mappers' self s c (mm :: rules)
                  (with_claims (claims d2 ++ rows) d2)) as [[[] | e] d4];
        simpl in *; destruct (Hbase d4 Hcore) as (B1 & B2 & B3 & B4 & B5 & B6 & B7);
        repeat split; auto;
        try (rewrite B7; auto; fail);
        try (apply Huniq; assumption);
        close_effect.
      right. eauto.
    + simpl. repeat split; auto; close_effect.
  - simpl. repeat split; auto; close_effect.
    right. eauto.
Qed.

Lemma populate_raises_on_ambiguous_subject self ct sid d e d1 :
  get_or_create_subject sid d = (Raise e, d1) ->
  populate' self ct sid d = (Raise e, d) /\ d1 = d.
Proof.
  intros H. unfold populate_application_database, bind. rewrite H.
  destruct (get_or_create_subject_effect sid d)
    as [(s0 & _ & Hrun) | [(_ & Hrun) | (_ & Hrun)]];
    rewrite Hrun in H; try discriminate.
  injection H as <- <-. auto.
Qed.

Lemma populate_core self ct sid d :
  let d' := snd (populate' self ct sid d) in
  issuers d' = issuers d /\ schemas d' = schemas d
  /\ credential_types d' = credential_types d /\ wallet d' = wallet d.
Proof.
  destruct (get_or_create_subject sid d) as [[s | e] d1] eqn:Hs.
  - destruct (populate_effect self ct sid d s d1 Hs)
      as (rows & H1 & H2 & H3 & H4 & _).
    destruct (get_or_create_subject_found sid d s d1 Hs)
      as (_ & _ & (C1 & C2 & C3 & _ & _ & _ & C7) & _).
    simpl in *. repeat split; congruence.
  - destruct (populate_raises_on_ambiguous_subject self ct sid d e d1 Hs) as [-> _].
    simpl. auto.
Qed.

Lemma populate_unique self ct sid d :
  keys_unique d -> keys_unique (snd (populate' self ct sid d)).
Proof.
  intros (U1 & U2 & U3 & U4 & U5 & U6 & U7 & U8).
  destruct (get_or_create_subject sid d) as [[s | e] d1] eqn:Hs.
  - destruct (populate_effect self ct sid d s d1 Hs)
      as (rows & _ & _ & _ & _ & Hsub & Hcred & _ & _ & Hclaims & Hsat & _).
    destruct (get_or_create_subject_found sid d s d1 Hs)
      as (_ & Hsid & (_ & _ & _ & _ & C5 & C6 & _) & Hn & Ha & Hp & Hc & Hsubjects).
    simpl in C5, C6.
    assert (Hsubj : NoDup (map source_id (subjects d1))
                    /\ NoDup (map subject_pk (subjects d1))).
    { destruct Hsubjects as [-> | (-> & Hpk & Hnew)]; [auto |].
      rewrite !map_app. simpl. split; apply NoDup_snoc; auto.
      - now rewrite Hsid.
      - rewrite Hpk. apply next_pk_fresh. }
    unfold keys_unique. rewrite Hsub, Hcred.
    rewrite Hn, Ha, Hp, Hc, C6 in *.
    destruct Hsat as (S1 & S2 & S3 & S4); [auto |].
    repeat split; try tauto; auto.
    rewrite map_app. simpl. apply NoDup_snoc.
    + now rewrite C5.
    + apply next_pk_fresh.
  - destruct (populate_raises_on_ambiguous_subject self ct sid d e d1 Hs) as [-> _].
    simpl. repeat split; assumption.
Qed.

(** *** [process] *)

Lemma process_unfold self d :
  process' self d
  = match get_context schema_key self d with
    | Raise e => (Raise e, d)
    | Ok (issuer, schema) =>
        match objects_get "CredentialType"
                (fun ct => (ct_schema ct =? schema_pk schema)%nat
                           && (ct_issuer ct =? issuer_pk issuer)%nat)
                (credential_types d) with
        | Raise e => (Raise e, d)
        | Ok ct =>
            match getattr schema_key json_dumps (credential self) (source_claim ct) with
            | Raise (AttributeError _) =>
                (Raise (CredentialException (missing_source_claim_message self ct)), d)
            | Raise e => (Raise e, d)
            | Ok _ =>
                match populate' self ct "source_id" d with
                | (Raise e, d1) => (Raise e, d1)
                | (Ok c, d1) =>
                    (Ok c,
                     with_wallet
                       (wallet d1
                        ++ [("source_id",
                             Credential_json json_dumps (credential self),
                             json_dumps_metadata (credential_definition_metadata self))])
                       d1)
                end
            end
        end
    end.
Proof.
  unfold process, bind, lift, store, ret.
  destruct (get_context schema_key self d) as [[issuer schema] | e]; [| reflexivity].
  destruct (objects_get "CredentialType" _ (credential_types d)) as [ct | e];
    [| reflexivity].
  destruct (getattr schema_key json_dumps (credential self) (source_claim ct))
    as [v | []]; reflexivity.
Qed.

Lemma objects_get_ok {R} (model_name : string) (p : R -> bool) (table : list R) (r : R) :
  objects_get model_name p table = Ok r -> In r table /\ p r = true.
Proof.
  unfold objects_get. destruct (filter p table) as [| x [| y l]] eqn:Hf; try discriminate.
  intros H. injection H as <-. apply filter_In. rewrite Hf. now left.
Qed.

Lemma get_context_ok self d issuer schema :
  get_context schema_key self d = Ok (issuer, schema) ->
  In issuer (issuers d)
  /\ issuer_did issuer = Credential_origin_did schema_key (credential self)
  /\ In schema (schemas d)
  /\ schema_origin_did schema = Credential_origin_did schema_key (credential self)
  /\ schema_name schema = Credential_schema_name schema_key (credential self)
  /\ schema_version schema = Credential_schema_version schema_key (credential self).
Proof.
  unfold get_context.
  destruct (objects_get "Issuer" _ (issuers d)) as [i | e] eqn:Hi; simpl.
  - destruct (objects_get "Schema" _ (schemas d)) as [sc | e] eqn:Hsc; simpl.
    + intros H. injection H as <- <-.
      apply objects_get_ok in Hi. apply objects_get_ok in Hsc.
      destruct Hi as [Hi1 Hi2]. destruct Hsc as [Hs1 Hs2].
      apply String.eqb_eq in Hi2. apply andb_true_iff in Hs2.
      destruct Hs2 as [Hs2 Hv]. apply andb_true_iff in Hs2. destruct Hs2 as [Ho Hn].
      apply String.eqb_eq in Hv, Ho, Hn. auto 10.
    + destruct e as [? | ? | ? | ? | ? | m | ? | ?]; try discriminate.
      destruct (m =? "Issuer"); [discriminate |].
      destruct (m =? "Schema"); discriminate.
  - destruct e as [? | ? | ? | ? | ? | m | ? | ?]; try discriminate.
    destruct (m =? "Issuer"); [discriminate |].
    destruct (m =? "Schema"); discriminate.
Qed.

(** Whatever its rules do, [populate_application_database] leaves the
    subject, the new credential and one claim per claim attribute in
    the database: an exception raised by a rule undoes none of them. *)
Theorem rule_failure_keeps_credential
    (data : credential_data) (metadata : dict string)
    (ct : CredentialTypeRow) (sid : string) (d : db) :
  length (filter (fun s => source_id s =? sid) (subjects d)) <= 1 ->
  let self := {| credential := Credential__init__ data;
                 credential_definition_metadata := metadata |} in
  let r := populate' self ct sid d in
  exists s c rows,
    In s (subjects (snd r)) /\ source_id s = sid
    /\ credential_rows (snd r) = (credential_rows d ++ [c])%list
    /\ subject c = subject_pk s
    /\ credential_type c = credential_type_pk ct
    /\ claims (snd r) = (claims d ++ rows)%list
    /\ map claim_name rows = PyDict.keys (values data)
    /\ Forall (fun row => claim_credential row = credential_pk c) rows
    /\ (fst r = Ok (credential_pk c) \/ exists e, fst r = Raise e).
Proof.
  intros Hunique self r.
  destruct (get_or_create_subject sid d) as [[s | e] d1] eqn:Hs.
  - destruct (populate_effect self ct sid d s d1 Hs)
      as (rows & _ & _ & _ & _ & Hsub & Hcred & Hclaims & Hrows & _ & _ & Hnames & _ & Hres).
    destruct (get_or_create_subject_found sid d s d1 Hs)
      as (Hin & Hsid & (_ & _ & _ & _ & C5 & C6 & _) & _).
    simpl in C5, C6. fold r in Hsub, Hcred, Hclaims, Hres.
    set (c := {| credential_pk := next_pk credential_pk (credential_rows d1);
                 subject := subject_pk s;
                 credential_type := credential_type_pk ct |}) in *.
    exists s, c, rows. rewrite Hsub, Hcred, Hclaims, C5, C6.
    repeat split; auto.
    rewrite <- (claim_attributes_init data). apply Hnames.
    destruct (create_claims_appends schema_key json_dumps self c data eq_refl
                (Credential_claim_attributes (credential self))
                (with_credential_rows (credential_rows d1 ++ [c]) d1))
      as (rows' & Hrun & _).
    + intros a Ha. unfold self in Ha. cbn [credential] in Ha.
      now rewrite claim_attributes_init in Ha.
    + rewrite Hrun. reflexivity.
  - exfalso.
    destruct (get_or_create_subject_effect sid d)
      as [(s0 & _ & Hrun) | [(_ & Hrun) | (Hlen & _)]];
      [rewrite Hrun in Hs; discriminate | rewrite Hrun in Hs; discriminate | lia].
Qed.

(** [process] never changes the issuers, the schemas or the credential
    types.  It adds to the wallet only when it succeeds: then one entry,
    filed under ["source_id"]; when it raises, the wallet is as it
    was. *)
Theorem process_leaves_configuration_alone (self : CredentialManager) (d : db) :
  let r := process' self d in
  issuers (snd r) = issuers d
  /\ schemas (snd r) = schemas d
  /\ credential_types (snd r) = credential_types d
  /\ match fst r with
     | Ok _ =>
         wallet (snd r)
         = (wallet d
            ++ [("source_id", Credential_json json_dumps (credential self),
                 json_dumps_metadata (credential_definition_metadata self))])%list
     | Raise _ => wallet (snd r) = wallet d
     end.
Proof.
  intros r. subst r. rewrite process_unfold.
  destruct (get_context schema_key self d) as [[issuer schema] | e]; [| simpl; auto].
  destruct (objects_get "CredentialType" _ (credential_types d)) as [ct | e];
    [| simpl; auto].
  destruct (getattr schema_key json_dumps (credential self) (source_claim ct))
    as [v | []]; try (simpl; auto; fail).
  pose proof (populate_core self ct "source_id" d) as (H1 & H2 & H3 & H4).
  destruct (populate' self ct "source_id" d) as [[c | e] d1]; simpl in *.
  - rewrite H4. auto.
  - auto.
Qed.

(** A successful [process] has found the issuer, the schema and the
    credential type that links them, and has read the source claim.  It
    returns the key of the credential row it added, which carries that
    credential type and belongs to the subject whose source identifier
    is the text ["source_id"], whatever the source claim holds; it has
    added one claim per claim attribute and one wallet entry. *)
Theorem successful_process_result
    (data : credential_data) (metadata : dict string) (d d' : db) (cid : nat) :
  let self := {| credential := Credential__init__ data;
                 credential_definition_metadata := metadata |} in
  process' self d = (Ok cid, d') ->
  exists issuer schema ct v s c rows,
    In issuer (issuers d)
    /\ issuer_did issuer = origin_did (schema_key (schema_id data))
    /\ In schema (schemas d)
    /\ schema_origin_did schema = origin_did (schema_key (schema_id data))
    /\ schema_name schema = name (schema_key (schema_id data))
    /\ schema_version schema = version (schema_key (schema_id data))
    /\ In ct (credential_types d)
    /\ ct_schema ct = schema_pk schema /\ ct_issuer ct = issuer_pk issuer
    /\ getattr schema_key json_dumps (Credential__init__ data) (source_claim ct) = Ok v
    /\ In s (subjects d') /\ source_id s = "source_id"
    /\ cid = credential_pk c
    /\ credential_rows d' = (credential_rows d ++ [c])%list
    /\ subject c = subject_pk s
    /\ credential_type c = credential_type_pk ct
    /\ claims d' = (claims d ++ rows)%list
    /\ map claim_name rows = PyDict.keys (values data)
    /\ wallet d'
       = (wallet d ++ [("source_id", json_dumps data, json_dumps_metadata metadata)])%list.
Proof.
  intros self Hrun. rewrite process_unfold in Hrun.
  destruct (get_context schema_key self d) as [[issuer schema] | e] eqn:Hctx;
    [| discriminate].
  destruct (objects_get "CredentialType" _ (credential_types d)) as [ct | e] eqn:Hct;
    [| discriminate].
  destruct (getattr schema_key json_dumps (credential self) (source_claim ct))
    as [v | []] eqn:Hv; try discriminate.
  destruct (get_or_create_subject "source_id" d) as [[s | e] d1] eqn:Hs.
  - destruct (populate_effect self ct "source_id" d s d1 Hs)
      as (rows & _ & _ & _ & Hw & Hsub & Hcred & Hclaims & _ & _ & _ & _ & Hok & _).
    destruct (get_or_create_subject_found "source_id" d s d1 Hs)
      as (Hin & Hsid & (_ & _ & _ & _ & C5 & C6 & C7) & _).
    simpl in C5, C6, C7.
    destruct (populate' self ct "source_id" d) as [[c0 | e] d2]; [| discriminate].
    injection Hrun as <- <-. simpl in *.
    destruct (Hok c0 eq_refl) as [-> Hnames].
    apply get_context_ok in Hctx.
    destruct Hctx as (I1 & I2 & S1 & S2 & S3 & S4).
    apply objects_get_ok in Hct. destruct Hct as [Hct1 Hct2].
    apply andb_true_iff in Hct2. destruct Hct2 as [Hct2 Hct3].
    apply Nat.eqb_eq in Hct2, Hct3.
    exists issuer, schema, ct, v, s,
      {| credential_pk := next_pk credential_pk (credential_rows d1);
         subject := subject_pk s;
         credential_type := credential_type_pk ct |}, rows.
    rewrite Hsub, Hcred, Hclaims, Hw, C5, C6, C7.
    repeat split; auto.
    rewrite Hnames. apply fold_left_append.
  - destruct (populate_raises_on_ambiguous_subject self ct "source_id" d e d1 Hs)
      as [Hp _].
    rewrite Hp in Hrun. discriminate.
Qed.

(** [process] keeps the keys of the database unique: whether it
    succeeds or raises, no two subjects share a source identifier
    afterwards and no two rows of a table share a primary key. *)
Theorem process_keeps_keys_unique (self : CredentialManager) (d : db) :
  keys_unique d -> keys_unique (snd (process' self d)).
Proof.
  intros Hd. rewrite process_unfold.
  destruct (get_context schema_key self d) as [[issuer schema] | e]; [| exact Hd].
  destruct (objects_get "CredentialType" _ (credential_types d)) as [ct | e];
    [| exact Hd].
  destruct (getattr schema_key json_dumps (credential self) (source_claim ct))
    as [v | []]; try exact Hd.
  pose proof (populate_unique self ct "source_id" d Hd) as Hp.
  destruct (populate' self ct "source_id" d) as [[c | e] d1]; exact Hp.
Qed.

(** The issuer, the schema and the credential type are found, and the
    source claim the credential type names is neither a claim of the
    credential nor a member of the class: [process] raises the
    [CredentialException] that names the source claim and lists the
    credential's claims, and writes nothing. *)
Theorem missing_source_claim_is_reported
    (self : CredentialManager) (d : db)
    (issuer : IssuerRow) (schema : SchemaRow) (ct : CredentialTypeRow) :
  filter (fun i => issuer_did i =? Credential_origin_did schema_key (credential self))
         (issuers d) = [issuer] ->
  filter (fun s =>
            (schema_origin_did s =? Credential_origin_did schema_key (credential self))
            && (schema_name s =? Credential_schema_name schema_key (credential self))
            && (schema_version s =? Credential_schema_version schema_key (credential self)))
         (schemas d) = [schema] ->
  filter (fun ct => (ct_schema ct =? schema_pk schema)%nat
                    && (ct_issuer ct =? issuer_pk issuer)%nat)
         (credential_types d) = [ct] ->
  predefined_member schema_key json_dumps (credential self) (source_claim ct) = None ->
  PyDict.get (source_claim ct) (values (_raw (credential self))) = None ->
  process' self d
  = (Raise (CredentialException
              ("Credential does not contain the configured source_claim '"
               ++ source_claim ct ++ "'. Claims are: "
               ++ String.concat ", " (_claim_attributes (credential self)))),
     d).
Proof.
  intros Hi Hs Hct Hmember Hclaim. rewrite process_unfold.
  unfold get_context, objects_get. rewrite Hi. simpl. rewrite Hs. simpl.
  rewrite Hct. unfold getattr, Credential__getattr__, Credential_raw.
  rewrite Hmember, Hclaim. reflexivity.
Qed.

End EffectFacts.

(** The scenario's credential under a rule for an unsupported record
    kind: the rule raises, and the credential and its two claims are in
    the database all the same. *)
Lemma rule_failure_keeps_credential_witness :
  fst (populate_application_database sample_schema_key sample_json_dumps no_modules
         scenario_manager (scenario_credential_type [vehicle_rule]) "Acme"
         (configured_db sample_schema_key scenario_manager []))
  = Raise (CredentialException "Unsupported model type 'vehicle'")
  /\ length (credential_rows
               (snd (populate_application_database sample_schema_key
                       sample_json_dumps no_modules scenario_manager
                       (scenario_credential_type [vehicle_rule]) "Acme"
                       (configured_db sample_schema_key scenario_manager []))))
     = 1
  /\ length (claims
               (snd (populate_application_database sample_schema_key
                       sample_json_dumps no_modules scenario_manager
                       (scenario_credential_type [vehicle_rule]) "Acme"
                       (configured_db sample_schema_key scenario_manager []))))
     = 2.
Proof.
  destruct (rule_failure_keeps_credential sample_schema_key sample_json_dumps
              no_modules scenario_data [] (scenario_credential_type [vehicle_rule])
              "Acme" (configured_db sample_schema_key scenario_manager [])
              (Nat.le_0_l 1))
    as (s & c & rows & _ & _ & Hcred & _ & _ & Hclaims & Hnames & _).
  split; [reflexivity |]. split.
  - etransitivity; [exact (f_equal (@length _) Hcred) | reflexivity].
  - etransitivity; [exact (f_equal (@length _) Hclaims) |]. simpl.
    rewrite <- (length_map claim_name), Hnames. reflexivity.
Defined.

Lemma successful_process_result_witness :
  exists s,
    In s (subjects
            (snd (process sample_schema_key sample_json_dumps (fun _ => "{}")
                    no_modules scenario_manager
                    (configured_db sample_schema_key scenario_manager
                       [scenario_credential_type [contact_rule]]))))
    /\ source_id s = "source_id".
Proof.
  destruct (successful_process_result sample_schema_key sample_json_dumps
              (fun _ => "{}") no_modules scenario_data []
              (configured_db sample_schema_key scenario_manager
                 [scenario_credential_type [contact_rule]])
              (snd (process sample_schema_key sample_json_dumps (fun _ => "{}")
                      no_modules scenario_manager
                      (configured_db sample_schema_key scenario_manager
                         [scenario_credential_type [contact_rule]])))
              1 eq_refl)
    as (issuer & schema & ct & v & s & c & rows & H).
  exists s. tauto.
Defined.

Lemma process_keeps_keys_unique_witness :
  keys_unique
    (snd (process sample_schema_key sample_json_dumps (fun _ => "{}") no_modules
            scenario_manager
            (configured_db sample_schema_key scenario_manager
               [scenario_credential_type [contact_rule]]))).
Proof.
  apply process_keeps_keys_unique. repeat split; constructor.
Defined.

Lemma missing_source_claim_is_reported_witness :
  process sample_schema_key sample_json_dumps (fun _ => "{}") no_modules
    scenario_manager
    (configured_db sample_schema_key scenario_manager [registration_credential_type])
  = (Raise (CredentialException
              ("Credential does not contain the configured source_claim "
               ++ "'registration_id'. Claims are: email, legal_name")),
     configured_db sample_schema_key scenario_manager [registration_credential_type]).
Proof.
  exact (missing_source_claim_is_reported sample_schema_key sample_json_dumps
           (fun _ => "{}") no_modules scenario_manager
           (configured_db sample_schema_key scenario_manager
              [registration_credential_type])
           {| issuer_pk := 1; issuer_did := "did:sov:ABC" |}
           {| schema_pk := 1; schema_origin_did := "did:sov:ABC";
              schema_name := "Test"; schema_version := "1.0" |}
           registration_credential_type eq_refl eq_refl eq_refl eq_refl eq_refl).
Defined.

(* ===================================================================== *)
(** ** What an upsert leaves alone, and repeated upserts *)
(* ===================================================================== *)

Lemma same_pk_same_row (table : list ModelRow) (r m : ModelRow) :
  NoDup (map pk table) -> In r table -> In m table -> pk r = pk m -> r = m.
Proof.
  induction table as [| x table IH]; intros Hnodup Hr Hm Hpk; [destruct Hr |].
  simpl in Hnodup. inversion Hnodup as [| ? ? Hfresh Hrest]; subst.
  destruct Hr as [-> | Hr], Hm as [-> | Hm]; auto.
  - exfalso. apply Hfresh. rewrite Hpk. now apply in_map.
  - exfalso. apply Hfresh. rewrite <- Hpk. now apply in_map.
Qed.

(** The upsert of a draft whose names are data fields deletes no record
    and creates at most one.  With unique primary keys, the records its
    filter does not select are left as they are, and every record keeps
    its key, its creation time and the credentials it was associated
    with. *)
Theorem upsert_keeps_other_records
    (credential_table : list CredentialRow) (table : list ModelRow)
    (model_args processed_values : dict pyval) (credential_id now : nat) :
  NoDup (map pk table) ->
  (forall f, In f (PyDict.keys processed_values) -> data_field f = true) ->
  let table' :=
    upsert credential_table table model_args processed_values credential_id now in
  (map pk table' = map pk table
   \/ map pk table' = (map pk table ++ [next_pk pk table])%list)
  /\ (forall r, In r table ->
        row_matches credential_table model_args r = false -> In r table')
  /\ (forall r, In r table ->
        exists r',
          In r' table' /\ pk r' = pk r
          /\ create_timestamp r' = create_timestamp r
          /\ incl (credentials r) (credentials r')).
Proof.
  intros Hnodup _ table'. split; [apply upsert_pks |].
  subst table'. unfold upsert, query.
  destruct (order_by_create_timestamp_desc
              (filter (row_matches credential_table model_args) table))
    as [| m rest] eqn:Hq.
  - split.
    + intros r Hr _. apply in_or_app. now left.
    + intros r Hr. exists r. repeat split; [apply in_or_app; now left | apply incl_refl].
  - assert (Hm : In m (filter (row_matches credential_table model_args) table)).
    { apply in_order_by. rewrite Hq. now left. }
    apply filter_In in Hm. destruct Hm as [Hmin Hmatch].
    set (saved := add_credential credential_id
                    (assign_processed_values processed_values m)).
    assert (Hsaved : pk saved = pk m)
      by (unfold saved; simpl; apply assign_processed_values_pk).
    unfold save_existing, end_date_others. rewrite map_map. rewrite Hsaved. split.
    + intros r Hr Hno. apply in_map_iff. exists r. split; [| exact Hr].
      rewrite Hno. simpl.
      destruct (pk r =? pk m)%nat eqn:E; [| reflexivity].
      apply Nat.eqb_eq in E.
      rewrite (same_pk_same_row table r m Hnodup Hr Hmin E) in Hno. congruence.
    + intros r Hr.
      exists (if (pk (if row_matches credential_table model_args r
                          && negb (pk r =? pk m)%nat
                       then set_end_date (PDateTime now) r else r) =? pk m)%nat
              then saved
              else if row_matches credential_table model_args r
                      && negb (pk r =? pk m)%nat
                   then set_end_date (PDateTime now) r else r).
      split; [apply in_map_iff; exists r; auto |].
      assert (Hpk : pk (if row_matches credential_table model_args r
                           && negb (pk r =? pk m)%nat
                        then set_end_date (PDateTime now) r else r) = pk r)
        by (destruct (row_matches credential_table model_args r
                      && negb (pk r =? pk m)%nat); reflexivity).
      rewrite Hpk. destruct (pk r =? pk m)%nat eqn:E.
      * apply Nat.eqb_eq in E.
        rewrite (same_pk_same_row table r m Hnodup Hr Hmin E).
        unfold saved. repeat split.
        -- simpl. apply assign_processed_values_pk.
        -- simpl. apply assign_keys_pk.
        -- intros x Hx. unfold add_credential. simpl.
           rewrite assign_processed_values_credentials.
           destruct (existsb (Nat.eqb credential_id) (credentials m));
             [assumption | apply in_or_app; now left].
      * rewrite andb_true_r.
        destruct (row_matches credential_table model_args r);
          repeat split; apply incl_refl.
Qed.

Lemma add_cardinality_args_same_values cardinality_fields pv pv' : forall a,
  same_cardinality_values cardinality_fields pv pv' ->
  add_cardinality_args cardinality_fields pv' a
  = match add_cardinality_args cardinality_fields pv a with
    | Ok args => Ok args
    | Raise _ => add_cardinality_args cardinality_fields pv' a
    end.
Proof.
  induction cardinality_fields as [| cf cfs IH]; intros a Hsame; simpl; [reflexivity |].
  rewrite (Hsame cf (or_introl eq_refl)).
  destruct (PyDict.get cf pv) as [v |] eqn:Hv.
  - apply IH. intros cf' Hin. apply Hsame. now right.
  - reflexivity.
Qed.

Lemma current_for_same_values credential_table subject_id cardinality_fields pv pv' row :
  same_cardinality_values cardinality_fields pv pv' ->
  current_for credential_table subject_id cardinality_fields pv' row
  = current_for credential_table subject_id cardinality_fields pv row.
Proof.
  intros Hsame. unfold current_for. f_equal.
  induction cardinality_fields as [| cf cfs IH]; simpl; [reflexivity |].
  rewrite (Hsame cf (or_introl eq_refl)). f_equal.
  apply IH. intros cf' Hin. apply Hsame. now right.
Qed.

Section ConvergenceFacts.

Variable credential_table : list CredentialRow.
Variable subject_id : nat.
Variable cardinality_fields : list string.

Local Abbreviation current := (current_for credential_table subject_id cardinality_fields).

(** One upsert of a plain draft. *)
Lemma upsert_step pv args table credential_id now :
  build_model_args subject_id cardinality_fields pv = Ok args ->
  plain_draft credential_table subject_id (pv, credential_id, now) ->
  NoDup (map pk table) ->
  let table' := upsert credential_table table args pv credential_id now in
  NoDup (map pk table')
  /\ length (filter (current pv) table') = 1
  /\ (filter (current pv) table <> [] -> length table' = length table)
  /\ length table' <= S (length table).
Proof.
  intros Hargs (Hfields & Hend & Howned) Hnodup table'.
  split; [now apply upsert_unique |].
  subst table'. unfold upsert.
  rewrite (query_is_sorted_current _ _ _ _ _ Hargs Hfields Hend).
  destruct (order_by_create_timestamp_desc (filter (current pv) table))
    as [| m rest] eqn:Hq.
  - assert (Hnone : filter (current pv) table = []).
    { destruct (filter (current pv) table) as [| x l] eqn:Hf; [reflexivity |].
      assert (Hin : In x (order_by_create_timestamp_desc (x :: l)))
        by (apply in_order_by; now left).
      rewrite Hq in Hin. destruct Hin. }
    repeat split.
    + rewrite filter_app, Hnone. simpl.
      rewrite (saved_record_is_current _ _ _ _ _ Hargs Hfields Hend)
        by (assumption || reflexivity).
      reflexivity.
    + intros Hne. contradiction.
    + rewrite length_app. simpl. lia.
  - assert (Hm : In m (filter (current pv) table)).
    { apply in_order_by. rewrite Hq. now left. }
    apply filter_In in Hm. destruct Hm as [Hmin Hmcur].
    unfold save_existing, end_date_others. rewrite map_map.
    repeat split.
    + rewrite filter_length_map.
      rewrite (filter_ext _ (fun r => (pk r =? pk m)%nat)).
      * now apply one_row_per_key.
      * intros r. rewrite (row_matches_current _ _ _ _ _ Hargs Hfields Hend).
        assert (Hpk : pk (add_credential credential_id (assign_processed_values pv m))
                      = pk m) by (simpl; apply assign_processed_values_pk).
        rewrite Hpk.
        destruct (pk r =? pk m)%nat eqn:E.
        -- rewrite andb_false_r. rewrite E.
           apply (saved_record_is_current _ _ _ _ _ Hargs Hfields Hend);
             [assumption |].
           eapply current_is_null. exact Hmcur.
        -- rewrite andb_true_r. destruct (current pv r) eqn:Ecur; simpl; rewrite E.
           ++ apply end_dated_is_not_current.
           ++ exact Ecur.
    + intros _. now rewrite length_map.
    + rewrite length_map. lia.
Qed.

Lemma upsert_all_converged pv0 args : forall more table,
  build_model_args subject_id cardinality_fields pv0 = Ok args ->
  NoDup (map pk table) ->
  length (filter (current pv0) table) = 1 ->
  Forall (fun draft =>
            plain_draft credential_table subject_id draft
            /\ same_cardinality_values cardinality_fields pv0 (fst (fst draft)))
         more ->
  exists table',
    upsert_all credential_table subject_id cardinality_fields table more = Ok table'
    /\ NoDup (map pk table')
    /\ length (filter (current pv0) table') = 1
    /\ length table' = length table.
Proof.
  induction more as [| [[pv credential_id] now] more IH];
    intros table Hargs Hnodup Hone Hall.
  - exists table. simpl. auto.
  - inversion Hall as [| ? ? [Hplain Hsame] Hrest]; subst. simpl in Hsame.
    assert (Hargs' : build_model_args subject_id cardinality_fields pv = Ok args).
    { unfold build_model_args in *.
      rewrite (add_cardinality_args_same_values _ pv0 pv _ Hsame), Hargs.
      reflexivity. }
    simpl. rewrite Hargs'. simpl.
    destruct (upsert_step pv args table credential_id now Hargs' Hplain Hnodup)
      as (N1 & C1 & L1 & _).
    assert (Hext : forall t, filter (current pv) t = filter (current pv0) t).
    { intros t. apply filter_ext. intros r. now apply current_for_same_values. }
    rewrite Hext in C1. rewrite Hext in L1.
    destruct (IH _ Hargs N1 C1 Hrest) as (table' & Hrun & N2 & C2 & L2).
    exists table'. repeat split; auto.
    rewrite L2. apply L1. intros Hnil. rewrite Hnil in Hone. discriminate.
Qed.


End ConvergenceFacts.


(** The third contact has another email: the upsert of the draft leaves
    it as it is. *)
Lemma upsert_keeps_other_records_witness :
  In other_contact
     (upsert [sample_credential_row] (duplicate_contacts ++ [other_contact])
        [ ("credentials__subject__id", PInt 1); ("end_date", PNone);
          ("email", PStr "a@b.com") ]
        email_draft 1 5).
Proof.
  refine (proj1 (proj2 (upsert_keeps_other_records [sample_credential_row]
                          (duplicate_contacts ++ [other_contact])
                          [ ("credentials__subject__id", PInt 1); ("end_date", PNone);
                            ("email", PStr "a@b.com") ]
                          email_draft 1 5 _ _))
                other_contact _ eq_refl).
  - repeat constructor; simpl; intuition discriminate.
  - intros f [<- | []]. reflexivity.
  - simpl. auto.
Defined.

(* ===================================================================== *)
(** ** Names of processor functions *)
(* ===================================================================== *)

Lemma rsplit1_none sep s : rsplit1 sep s = None <-> has_char sep s = false.
Proof.
  induction s as [| c s IH]; simpl; [tauto |].
  destruct (rsplit1 sep s) as [[a b] |].
  - split; [discriminate |]. intros H. apply orb_false_iff in H.
    destruct H as [_ H]. apply IH in H. discriminate.
  - destruct (Ascii.eqb c sep); simpl; [split; discriminate |].
    split; [intros _; now apply IH | reflexivity].
Qed.

Lemma rsplit1_last sep a b :
  has_char sep b = false -> rsplit1 sep (a ++ String sep b) = Some (a, b).
Proof.
  intros Hb. induction a as [| c a IH]; simpl.
  - apply rsplit1_none in Hb. rewrite Hb, Ascii.eqb_refl. reflexivity.
  - rewrite IH. reflexivity.
Qed.

Lemma rsplit1_some sep s a b :
  rsplit1 sep s = Some (a, b) -> s = a ++ String sep b /\ has_char sep b = false.
Proof.
  revert a. induction s as [| c s IH]; intros a H; simpl in H; [discriminate |].
  destruct (rsplit1 sep s) as [[a' b'] |] eqn:Hs.
  - injection H as <- <-. destruct (IH a' eq_refl) as [-> Hb]. auto.
  - destruct (Ascii.eqb c sep) eqn:Hc; [| discriminate].
    injection H as <- <-. apply Ascii.eqb_eq in Hc. subst c.
    split; [reflexivity | now apply rsplit1_none].
Qed.

(** A processor name is split at its last dot: what follows it is the
    function name, what precedes it, dots included, is the module path
    below [api_v2.processor].  A name without a dot ends in the
    [ValueError] of the failed unpacking, which is no
    [CredentialException]; a name with a dot ends in a function or in
    one of the two [CredentialException]s. *)
Theorem processor_name_splits_at_last_dot
    (import_module : string -> option (string -> option pyfun)) (name : string) :
  (has_char "." name = false ->
   resolve_function import_module name
   = Raise (ValueError "not enough values to unpack (expected 2, got 1)"))
  /\ (has_char "." name = true ->
      exists function_path function_name,
        name = function_path ++ "." ++ function_name
        /\ has_char "." function_name = false
        /\ resolve_function import_module name
           = match import_module ("api_v2.processor." ++ function_path) with
             | None =>
                 Raise (CredentialException
                          ("No processor module named '" ++ function_path ++ "'"))
             | Some function_module =>
                 match function_module function_name with
                 | None =>
                     Raise (CredentialException
                              ("Module '" ++ function_path ++ "' has no function '"
                               ++ function_name ++ "'."))
                 | Some function => Ok function
                 end
             end).
Proof.
  unfold resolve_function. split.
  - intros H. apply rsplit1_none in H. now rewrite H.
  - intros H. destruct (rsplit1 "." name) as [[a b] |] eqn:Hsplit.
    + destruct (rsplit1_some _ _ _ _ Hsplit) as [-> Hb].
      exists a, b. repeat split; auto.
    + apply rsplit1_none in Hsplit. congruence.
Qed.

Lemma processor_name_splits_at_last_dot_witness :
  resolve_function sample_import_module "add_a"
  = Raise (ValueError "not enough values to unpack (expected 2, got 1)").
Proof.
  apply (proj1 (processor_name_splits_at_last_dot sample_import_module "add_a")).
  reflexivity.
Defined.

Section ResolutionFacts.

Variable schema_key : string -> SchemaKey.
Variable json_dumps : credential_data -> string.
Variable import_module : string -> option (string -> option pyfun).

Lemma build_pipeline_stops names e : forall rest fs acc bad,
  Forall2 (fun n f => resolve_function import_module n = Ok f) names fs ->
  resolve_function import_module bad = Raise e ->
  build_pipeline import_module (names ++ bad :: rest) acc = Raise e.
Proof.
  induction names as [| n names IH]; intros rest fs acc bad H Hbad;
    inversion H; subst; simpl.
  - now rewrite Hbad.
  - match goal with E : resolve_function _ _ = Ok _ |- _ => rewrite E end.
    simpl. eapply IH; eassumption.
Qed.

(** The names of a field's processor list are all resolved before any
    function runs: when one of them does not resolve, the field ends
    with the exception of the first such name, and none of the
    functions listed before it is called. *)
Theorem unresolved_name_runs_nothing
    (credential : Credential) (fd : field_data) (_input _from : string)
    (resolved : list string) (fs : list pyfun) (bad : string)
    (rest : list string) (v : pyval) (e : exn) :
  input fd = Some _input ->
  from fd = Some _from ->
  processor fd = Some (resolved ++ bad :: rest)%list ->
  Forall2 (fun n f => resolve_function import_module n = Ok f) resolved fs ->
  resolve_function import_module bad = Raise e ->
  base_value schema_key json_dumps credential _input _from = Ok v ->
  field_value_of schema_key json_dumps import_module credential fd = Raise e.
Proof.
  intros Hin Hfrom Hproc Hres Hbad Hbase.
  unfold field_value_of. rewrite Hin, Hfrom, Hbase, Hproc. simpl.
  now rewrite (build_pipeline_stops resolved e rest fs [] bad Hres Hbad).
Qed.

End ResolutionFacts.

(** [text.fail] always raises, yet the field ends with the exception of
    the unknown [text.nope] listed after it. *)
Lemma unresolved_name_runs_nothing_witness :
  field_value_of sample_schema_key sample_json_dumps failing_import_module
    (Credential__init__ scenario_data)
    {| input := Some "x"; from := Some "value";
       processor := Some ["text.fail"; "text.nope"] |}
  = Raise (CredentialException "Module 'text' has no function 'nope'.").
Proof.
  apply (unresolved_name_runs_nothing sample_schema_key sample_json_dumps
           failing_import_module (Credential__init__ scenario_data)
           {| input := Some "x"; from := Some "value";
              processor := Some ["text.fail"; "text.nope"] |}
           "x" "value" ["text.fail"] [failing_fun] "text.nope" [] (PStr "x")).
  - reflexivity.
  - reflexivity.
  - reflexivity.
  - repeat constructor.
  - reflexivity.
  - reflexivity.
Defined.

(* ===================================================================== *)
(** ** The filters of a proof manager *)
(* ===================================================================== *)

Section FilterFacts.

Variable ProofRequest : Type.
Variable get_creds :
  string -> ProofRequest -> ProofSelection.credentials_for_proof_request_t.
Variable create_proof :
  string -> ProofRequest -> ProofSelection.credentials_for_proof_request_t ->
  ProofSelection.requested_credentials_t -> string.

Local Abbreviation add_filters :=
  (fold_left (fun self f =>
                ProofSelection.add_filter ProofRequest self
                  (ProofSelection.claim_name f) (ProofSelection.claim_value f))).

Lemma add_filters_fields added : forall self,
  ProofSelection.source_id _ (add_filters added self) = ProofSelection.source_id _ self
  /\ ProofSelection.proof_request _ (add_filters added self)
     = ProofSelection.proof_request _ self
  /\ ProofSelection.filters _ (add_filters added self)
     = (ProofSelection.filters _ self ++ added)%list.
Proof.
  induction added as [| f added IH]; intros self; simpl.
  - now rewrite app_nil_r.
  - destruct (IH (ProofSelection.add_filter ProofRequest self
                    (ProofSelection.claim_name f) (ProofSelection.claim_value f)))
      as (Hs & Hp & Hf).
    rewrite Hs, Hp, Hf. simpl. rewrite <- app_assoc. simpl.
    destruct f. auto.
Qed.

(** The filters added to a proof manager are recorded, in the order of
    the calls, and never read: the payload and the proof built after
    any number of [add_filter] calls are those built without them. *)
Theorem filters_are_recorded_and_ignored
    (self : ProofSelection.ProofManager ProofRequest)
    (added : list ProofSelection.Filter) :
  let self' := add_filters added self in
  ProofSelection.filters _ self' = (ProofSelection.filters _ self ++ added)%list
  /\ ProofSelection.selection_payload _ get_creds self'
     = ProofSelection.selection_payload _ get_creds self
  /\ ProofSelection.construct_proof_async _ get_creds create_proof self'
     = ProofSelection.construct_proof_async _ get_creds create_proof self.
Proof.
  intros self'. destruct (add_filters_fields added self) as (Hs & Hp & Hf).
  fold self' in Hs, Hp, Hf.
  unfold ProofSelection.selection_payload, ProofSelection.construct_proof_async.
  rewrite Hs, Hp. auto.
Qed.

End FilterFacts.

(* ===================================================================== *)
(** ** The wallet configurations of [tob_anchor.boot] *)
(* ===================================================================== *)

Section WalletFacts.

Variable environ : Boot.environ_t.

Local Abbreviation wallet_type := (Boot.wallet_type_of environ).

Lemma required_return name v :
  Boot.required environ name = Boot.Return v ->
  PyDict.get name environ = Some v /\ v <> "" /\ Boot.is_set (PyDict.get name environ) = true.
Proof.
  unfold Boot.required. destruct (PyDict.get name environ) as [[| c rest] |];
    try discriminate.
  intros H. injection H as <-. repeat split. discriminate.
Qed.

Lemma required_throw name e :
  Boot.required environ name = Boot.Throw e ->
  Boot.is_set (PyDict.get name environ) = false
  /\ e = Boot.Exception (name ++ " must be set.").
Proof.
  unfold Boot.required. destruct (PyDict.get name environ) as [[| c rest] |];
    try discriminate; intros H; injection H as <-; auto.
Qed.

Lemma wallet_encryp_key_not_empty : Boot.wallet_encryp_key_of environ <> "".
Proof.
  unfold Boot.wallet_encryp_key_of.
  destruct (PyDict.get "WALLET_ENCRYPTION_KEY" environ) as [[| c rest] |]; discriminate.
Qed.

(** A wallet configuration that is returned has the type [sqlite] or
    [postgres], after lowering the case of [WALLET_TYPE]; its keys are
    [type] and [access_creds], with [params] between them for postgres
    only; the access credentials carry a wallet key that is never
    empty, and storage credentials for postgres only; and for postgres
    the four connection settings were all set and not empty. *)
Theorem general_wallet_config_shape (cfg : dict Boot.json) :
  Boot.indy_general_wallet_config environ = Boot.Return cfg ->
  (wallet_type = "sqlite" \/ wallet_type = "postgres")
  /\ PyDict.keys cfg
     = (if wallet_type =? "postgres" then ["type"; "params"; "access_creds"]
        else ["type"; "access_creds"])
  /\ PyDict.get "type" cfg = Some (Boot.JStr wallet_type)
  /\ (exists creds,
        PyDict.get "access_creds" cfg = Some (Boot.JObj creds)
        /\ PyDict.get "key" creds = Some (Boot.JStr (Boot.wallet_encryp_key_of environ))
        /\ Boot.wallet_encryp_key_of environ <> ""
        /\ (PyDict.get "storage_credentials" creds <> None <-> wallet_type = "postgres"))
  /\ (wallet_type = "postgres" ->
      Forall (fun name => Boot.is_set (PyDict.get name environ) = true)
             Boot.postgres_settings).
Proof.
  unfold Boot.indy_general_wallet_config.
  destruct (wallet_type =? "postgres") eqn:Hpg.
  - apply String.eqb_eq in Hpg.
    destruct (Boot.required environ "POSTGRESQL_WALLET_HOST") as [h |] eqn:Hh;
      [| discriminate].
    destruct (Boot.required environ "POSTGRESQL_WALLET_PORT") as [p |] eqn:Hp;
      [| discriminate].
    destruct (Boot.required environ "POSTGRESQL_WALLET_USER") as [u |] eqn:Hu;
      [| discriminate].
    destruct (Boot.required environ "POSTGRESQL_WALLET_PASSWORD") as [w |] eqn:Hw;
      [| discriminate].
    simpl. intros H. injection H as <-.
    apply required_return in Hh, Hp, Hu, Hw.
    split; [now right |]. split; [reflexivity |]. split; [reflexivity |]. split.
    + eexists. split; [reflexivity |]. split; [reflexivity |].
      split; [apply wallet_encryp_key_not_empty |].
      split; [intros _; exact Hpg | discriminate].
    + intros _. repeat constructor; tauto.
  - destruct (wallet_type =? "sqlite") eqn:Hsq; [| discriminate].
    apply String.eqb_eq in Hsq. apply String.eqb_neq in Hpg.
    intros H. injection H as <-.
    split; [now left |]. split; [reflexivity |]. split; [reflexivity |]. split.
    + eexists. split; [reflexivity |]. split; [reflexivity |].
      split; [apply wallet_encryp_key_not_empty |].
      split; [intros H; now contradiction H | intros H; contradiction].
    + intros H. contradiction.
Qed.

(** [indy_general_wallet_config] fails in two ways only.  For postgres,
    with the plain [Exception] that names the first of the host, the
    port, the user and the password, in this order, that is unset or
    empty.  For a type other than postgres and sqlite, with the
    [ValueError] that names the lowered type.  It never raises a
    [KeyError]. *)
Theorem general_wallet_config_failure (e : Boot.error) :
  Boot.indy_general_wallet_config environ = Boot.Throw e ->
  (wallet_type = "postgres"
   /\ exists name,
        find (fun name => negb (Boot.is_set (PyDict.get name environ)))
             Boot.postgres_settings = Some name
        /\ e = Boot.Exception (name ++ " must be set."))
  \/ (wallet_type <> "postgres" /\ wallet_type <> "sqlite"
      /\ e = Boot.ValueError ("Unknown WALLET_TYPE: " ++ wallet_type)).
Proof.
  unfold Boot.indy_general_wallet_config.
  destruct (wallet_type =? "postgres") eqn:Hpg.
  - apply String.eqb_eq in Hpg. intros H. left. split; [exact Hpg |].
    unfold Boot.postgres_settings, find.
    destruct (Boot.required environ "POSTGRESQL_WALLET_HOST") as [h | e1] eqn:Hh.
    2:{ injection H as <-. apply required_throw in Hh. destruct Hh as [-> ->].
        eexists. split; reflexivity. }
    apply required_return in Hh. destruct Hh as (_ & _ & ->).
    destruct (Boot.required environ "POSTGRESQL_WALLET_PORT") as [p | e1] eqn:Hp.
    2:{ injection H as <-. apply required_throw in Hp. destruct Hp as [-> ->].
        eexists. split; reflexivity. }
    apply required_return in Hp. destruct Hp as (_ & _ & ->).
    destruct (Boot.required environ "POSTGRESQL_WALLET_USER") as [u | e1] eqn:Hu.
    2:{ injection H as <-. apply required_throw in Hu. destruct Hu as [-> ->].
        eexists. split; reflexivity. }
    apply required_return in Hu. destruct Hu as (_ & _ & ->).
    destruct (Boot.required environ "POSTGRESQL_WALLET_PASSWORD") as [w | e1] eqn:Hw.
    2:{ injection H as <-. apply required_throw in Hw. destruct Hw as [-> ->].
        eexists. split; reflexivity. }
    discriminate.
  - destruct (wallet_type =? "sqlite") eqn:Hsq; [discriminate |].
    apply String.eqb_neq in Hsq, Hpg. intros H. injection H as <-. right. auto.
Qed.

End WalletFacts.

Lemma general_wallet_config_shape_witness :
  Boot.wallet_type_of Boot.postgres_environ = "sqlite"
  \/ Boot.wallet_type_of Boot.postgres_environ = "postgres".
Proof.
  exact (proj1 (general_wallet_config_shape Boot.postgres_environ _ eq_refl)).
Defined.

(** The port is empty: it is reported, the missing user is not. *)
Lemma general_wallet_config_failure_witness :
  (Boot.wallet_type_of Boot.incomplete_environ = "postgres"
   /\ exists name,
        find (fun name => negb (Boot.is_set (PyDict.get name Boot.incomplete_environ)))
             Boot.postgres_settings = Some name
        /\ Boot.Exception "POSTGRESQL_WALLET_PORT must be set."
           = Boot.Exception (name ++ " must be set."))
  \/ (Boot.wallet_type_of Boot.incomplete_environ <> "postgres"
      /\ Boot.wallet_type_of Boot.incomplete_environ <> "sqlite"
      /\ Boot.Exception "POSTGRESQL_WALLET_PORT must be set."
         = Boot.ValueError
             ("Unknown WALLET_TYPE: " ++ Boot.wallet_type_of Boot.incomplete_environ)).
Proof.
  exact (general_wallet_config_failure Boot.incomplete_environ
           (Boot.Exception "POSTGRESQL_WALLET_PORT must be set.") eq_refl).
Defined.

(* ===================================================================== *)
(** ** The holder's and the verifier's wallet, and their registration *)
(* ===================================================================== *)

Lemma general_config_entries environ cfg :
  Boot.indy_general_wallet_config environ = Boot.Return cfg ->
  exists creds,
    PyDict.get "access_creds" cfg = Some creds
    /\ PyDict.get "type" cfg = Some (Boot.JStr (Boot.wallet_type_of environ))
    /\ if Boot.wallet_type_of environ =? "postgres"
       then exists params, PyDict.get "params" cfg = Some params
       else PyDict.get "params" cfg = None.
Proof.
  unfold Boot.indy_general_wallet_config.
  destruct (Boot.wallet_type_of environ =? "postgres") eqn:Hpg.
  - destruct (Boot.required environ "POSTGRESQL_WALLET_HOST"); [| discriminate].
    destruct (Boot.required environ "POSTGRESQL_WALLET_PORT"); [| discriminate].
    destruct (Boot.required environ "POSTGRESQL_WALLET_USER"); [| discriminate].
    destruct (Boot.required environ "POSTGRESQL_WALLET_PASSWORD"); [| discriminate].
    simpl. intros H. injection H as <-. eexists. split; [reflexivity |].
    split; [reflexivity |]. eexists. reflexivity.
  - destruct (Boot.wallet_type_of environ =? "sqlite"); [| discriminate].
    intros H. injection H as <-. eexists. split; [reflexivity |].
    split; reflexivity.
Qed.

Section DerivedFacts.

Variable environ : Boot.environ_t.
Variable cfg : dict Boot.json.
Hypothesis Hcfg : Boot.indy_general_wallet_config environ = Boot.Return cfg.

Lemma verifier_config_returns :
  exists verifier,
    Boot.indy_verifier_wallet_config cfg = Boot.Return verifier
    /\ PyDict.get "seed" verifier = Some (Boot.JStr "tob-verifier-wallet-000000000001")
    /\ PyDict.get "access_creds" verifier = PyDict.get "access_creds" cfg
    /\ PyDict.get "params" verifier = PyDict.get "params" cfg.
Proof.
  destruct (general_config_entries environ cfg Hcfg) as (creds & Hc & Ht & Hp).
  unfold Boot.indy_verifier_wallet_config, Boot.subscript.
  rewrite Ht. simpl. destruct (Boot.wallet_type_of environ =? "postgres").
  - destruct Hp as [params Hp]. rewrite Hp, Hc. simpl. eexists.
    split; [reflexivity |]. auto.
  - rewrite Hc. simpl. eexists. split; [reflexivity |]. rewrite Hp. auto.
Qed.

Lemma holder_config_returns seed :
  PyDict.get "INDY_WALLET_SEED" environ = Some seed ->
  String.length seed = 32 ->
  exists holder,
    Boot.indy_holder_wallet_config environ cfg = Boot.Return holder
    /\ PyDict.get "seed" holder = Some (Boot.JStr seed)
    /\ PyDict.get "access_creds" holder = PyDict.get "access_creds" cfg
    /\ PyDict.get "params" holder = PyDict.get "params" cfg.
Proof.
  intros Hseed Hlen.
  destruct (general_config_entries environ cfg Hcfg) as (creds & Hc & Ht & Hp).
  unfold Boot.indy_holder_wallet_config, Boot.subscript. rewrite Hseed.
  destruct seed as [| c rest]; [discriminate |]. rewrite Hlen.
  rewrite Ht. simpl. destruct (Boot.wallet_type_of environ =? "postgres").
  - destruct Hp as [params Hp]. rewrite Hp, Hc. simpl. eexists.
    split; [reflexivity |]. auto.
  - rewrite Hc. simpl. eexists. split; [reflexivity |]. rewrite Hp. auto.
Qed.

Lemma holder_config_throws :
  (forall seed, PyDict.get "INDY_WALLET_SEED" environ = Some seed ->
                String.length seed <> 32) ->
  Boot.indy_holder_wallet_config environ cfg
  = Boot.Throw (Boot.ValueError
                  "INDY_WALLET_SEED must be set and be 32 characters long.").
Proof.
  intros Hbad. unfold Boot.indy_holder_wallet_config.
  destruct (PyDict.get "INDY_WALLET_SEED" environ) as [[| c rest] |];
    try reflexivity.
  specialize (Hbad _ eq_refl). apply Nat.eqb_neq in Hbad. now rewrite Hbad.
Qed.

(** On a configuration returned by [indy_general_wallet_config], the
    verifier configuration never fails and the holder configuration
    fails only on the seed: it is returned when [INDY_WALLET_SEED] has
    32 characters and ends with the [ValueError] otherwise.  Both carry
    the access credentials and the parameters of the general
    configuration unchanged; the verifier's seed is the fixed text, the
    holder's the one of the environment. *)
Theorem wallet_configs_share_general_config :
  (exists verifier,
     Boot.indy_verifier_wallet_config cfg = Boot.Return verifier
     /\ PyDict.get "seed" verifier = Some (Boot.JStr "tob-verifier-wallet-000000000001")
     /\ PyDict.get "access_creds" verifier = PyDict.get "access_creds" cfg
     /\ PyDict.get "params" verifier = PyDict.get "params" cfg)
  /\ (forall seed,
        PyDict.get "INDY_WALLET_SEED" environ = Some seed ->
        String.length seed = 32 ->
        exists holder,
          Boot.indy_holder_wallet_config environ cfg = Boot.Return holder
          /\ PyDict.get "seed" holder = Some (Boot.JStr seed)
          /\ PyDict.get "access_creds" holder = PyDict.get "access_creds" cfg
          /\ PyDict.get "params" holder = PyDict.get "params" cfg)
  /\ ((forall seed, PyDict.get "INDY_WALLET_SEED" environ = Some seed ->
                    String.length seed <> 32) ->
      Boot.indy_holder_wallet_config environ cfg
      = Boot.Throw (Boot.ValueError
                      "INDY_WALLET_SEED must be set and be 32 characters long.")).
Proof.
  split; [apply verifier_config_returns |].
  split; [apply holder_config_returns | apply holder_config_throws].
Qed.

End DerivedFacts.

Lemma wallet_configs_share_general_config_witness :
  exists holder,
    Boot.indy_holder_wallet_config Boot.postgres_environ
      [ ("type", Boot.JStr "postgres");
        ("params", Boot.JObj [ ("storage_config", Boot.JObj [ ("url", Boot.JStr "db:5432") ]) ]);
        ("access_creds",
         Boot.JObj [ ("key", Boot.JStr "key");
                     ("storage_credentials",
                      Boot.JObj [ ("account", Boot.JStr "tob");
                                  ("password", Boot.JStr "secret") ]);
                     ("key_derivation_method", Boot.JStr "ARGON2I_MOD") ]) ]
    = Boot.Return holder
    /\ PyDict.get "seed" holder = Some (Boot.JStr "the_org_book_0000000000000000000").
Proof.
  destruct (wallet_configs_share_general_config Boot.postgres_environ _ eq_refl)
    as (_ & Hholder & _).
  destruct (Hholder "the_org_book_0000000000000000000" eq_refl eq_refl)
    as (holder & Hrun & Hseed & _).
  exists holder. split; [exact Hrun | exact Hseed].
Defined.

Section ServiceFacts.

Variable environ : Boot.environ_t.
Variable INDY_HOLDER_ID : string.
Variable INDY_VERIFIER_ID : string.
Variable client : Boot.client_call -> Boot.result string.

Local Abbreviation pre_init :=
  (Boot.pre_init environ INDY_HOLDER_ID INDY_VERIFIER_ID client).
Local Abbreviation register_services :=
  (Boot.register_services environ INDY_HOLDER_ID INDY_VERIFIER_ID client).

Lemma pre_init_unfold proc :
  pre_init proc
  = match register_services with
    | (done, Boot.Return _) => (Boot.start_of proc :: done, Boot.Return tt)
    | (done, Boot.Throw e) =>
        ((Boot.start_of proc :: done) ++ [Boot.ManagerStop], Boot.Throw e)%list
    end.
Proof.
  unfold Boot.pre_init, Boot.io_bind, Boot.emit, Boot.start_of.
  destruct register_services as [done [[] | e]]; reflexivity.
Qed.

Ltac failed_after calls :=
  exists calls; simpl;
  split; [repeat constructor | split; [reflexivity | split; [simpl; lia | reflexivity]]].

(** [pre_init] starts the manager, pauses, and registers the services.
    When it returns, both wallet configurations were built and the
    client received six calls: the holder's wallet, the holder under
    the identifier the client answered for that wallet, the verifier's
    wallet, the verifier, the synchronization and the status; the
    manager is not stopped.  When it raises, the exception is the one
    of the registration, at most six calls were made, and stopping the
    manager is the last thing done. *)
Theorem manager_stops_iff_registration_fails (proc : bool) :
  exists calls,
    Forall (fun e => Boot.is_call e = true) calls
    /\ match snd (pre_init proc) with
       | Boot.Return _ =>
           fst (pre_init proc) = (Boot.start_of proc :: Boot.Sleep 2 :: calls)%list
           /\ exists wallet_config holder_config verifier_config
                     holder_wallet_id verifier_wallet_id,
                Boot.indy_general_wallet_config environ = Boot.Return wallet_config
                /\ Boot.indy_holder_wallet_config environ wallet_config
                   = Boot.Return holder_config
                /\ Boot.indy_verifier_wallet_config wallet_config
                   = Boot.Return verifier_config
                /\ client (Boot.register_wallet holder_config)
                   = Boot.Return holder_wallet_id
                /\ client (Boot.register_wallet verifier_config)
                   = Boot.Return verifier_wallet_id
                /\ calls
                   = [ Boot.Call (Boot.register_wallet holder_config);
                       Boot.Call (Boot.register_holder holder_wallet_id
                                    [ ("id", Boot.JStr INDY_HOLDER_ID);
                                      ("name", Boot.JStr "TheOrgBook Holder") ]);
                       Boot.Call (Boot.register_wallet verifier_config);
                       Boot.Call (Boot.register_verifier verifier_wallet_id
                                    [ ("id", Boot.JStr INDY_VERIFIER_ID);
                                      ("name", Boot.JStr "TheOrgBook Verifier") ]);
                       Boot.Call Boot.sync;
                       Boot.Call Boot.get_status ]
       | Boot.Throw e =>
           fst (pre_init proc)
           = (Boot.start_of proc :: Boot.Sleep 2 :: calls ++ [Boot.ManagerStop])%list
           /\ length calls <= 6
           /\ snd register_services = Boot.Throw e
       end.
Proof.
  rewrite pre_init_unfold. unfold Boot.register_services.
  unfold Boot.io_bind, Boot.emit, Boot.io_lift, Boot.await.
  destruct (Boot.indy_general_wallet_config environ) as [cfg | e] eqn:Hcfg;
    [| failed_after (@nil Boot.event)].
  destruct (Boot.indy_holder_wallet_config environ cfg) as [h | e] eqn:Hh;
    [| failed_after (@nil Boot.event)].
  destruct (client (Boot.register_wallet h)) as [hw | e] eqn:C1;
    [| failed_after [Boot.Call (Boot.register_wallet h)]].
  destruct (client (Boot.register_holder hw [ ("id", Boot.JStr INDY_HOLDER_ID);
                                             ("name", Boot.JStr "TheOrgBook Holder") ]))
    as [hid | e] eqn:C2;
    [| failed_after
         [Boot.Call (Boot.register_wallet h);
          Boot.Call (Boot.register_holder hw [ ("id", Boot.JStr INDY_HOLDER_ID);
                                              ("name", Boot.JStr "TheOrgBook Holder") ])]].
  destruct (verifier_config_returns environ cfg Hcfg) as (v & Hv & _).
  rewrite Hv.
  destruct (client (Boot.register_wallet v)) as [vw | e] eqn:C3;
    [| failed_after
         [Boot.Call (Boot.register_wallet h);
          Boot.Call (Boot.register_holder hw [ ("id", Boot.JStr INDY_HOLDER_ID);
                                              ("name", Boot.JStr "TheOrgBook Holder") ]);
          Boot.Call (Boot.register_wallet v)]].
  destruct (client (Boot.register_verifier vw
                      [ ("id", Boot.JStr INDY_VERIFIER_ID);
                        ("name", Boot.JStr "TheOrgBook Verifier") ]))
    as [vid | e] eqn:C4;
    [| failed_after
         [Boot.Call (Boot.register_wallet h);
          Boot.Call (Boot.register_holder hw [ ("id", Boot.JStr INDY_HOLDER_ID);
                                              ("name", Boot.JStr "TheOrgBook Holder") ]);
          Boot.Call (Boot.register_wallet v);
          Boot.Call (Boot.register_verifier vw
                       [ ("id", Boot.JStr INDY_VERIFIER_ID);
                         ("name", Boot.JStr "TheOrgBook Verifier") ])]].
  destruct (client Boot.sync) as [s | e] eqn:C5;
    [| failed_after
         [Boot.Call (Boot.register_wallet h);
          Boot.Call (Boot.register_holder hw [ ("id", Boot.JStr INDY_HOLDER_ID);
                                              ("name", Boot.JStr "TheOrgBook Holder") ]);
          Boot.Call (Boot.register_wallet v);
          Boot.Call (Boot.register_verifier vw
                       [ ("id", Boot.JStr INDY_VERIFIER_ID);
                         ("name", Boot.JStr "TheOrgBook Verifier") ]);
          Boot.Call Boot.sync]].
  destruct (client Boot.get_status) as [g | e] eqn:C6;
    [| failed_after
         [Boot.Call (Boot.register_wallet h);
          Boot.Call (Boot.register_holder hw [ ("id", Boot.JStr INDY_HOLDER_ID);
                                              ("name", Boot.JStr "TheOrgBook Holder") ]);
          Boot.Call (Boot.register_wallet v);
          Boot.Call (Boot.register_verifier vw
                       [ ("id", Boot.JStr INDY_VERIFIER_ID);
                         ("name", Boot.JStr "TheOrgBook Verifier") ]);
          Boot.Call Boot.sync;
          Boot.Call Boot.get_status]].
  eexists. simpl. split; [| split; [reflexivity |]].
  - repeat constructor.
  - exists cfg, h, v, hw, vw. repeat split; auto.
Qed.

(** When the general or the holder's wallet configuration fails, the
    client receives no call at all: the manager is started, then
    stopped after the pause, and the exception of the configuration is
    raised again. *)
Theorem bad_configuration_calls_no_client (proc : bool) (e : Boot.error) :
  Boot.indy_general_wallet_config environ = Boot.Throw e
  \/ (exists wallet_config,
        Boot.indy_general_wallet_config environ = Boot.Return wallet_config
        /\ Boot.indy_holder_wallet_config environ wallet_config = Boot.Throw e) ->
  pre_init proc
  = ([Boot.start_of proc; Boot.Sleep 2; Boot.ManagerStop], Boot.Throw e).
Proof.
  rewrite pre_init_unfold. unfold Boot.register_services.
  unfold Boot.io_bind, Boot.emit, Boot.io_lift, Boot.await.
  intros [Hcfg | (cfg & Hcfg & Hh)]; rewrite Hcfg; [reflexivity |].
  rewrite Hh. reflexivity.
Qed.

End ServiceFacts.

Lemma bad_configuration_calls_no_client_witness :
  Boot.pre_init Boot.incomplete_environ "holder" "verifier" Boot.answering_client false
  = ([Boot.ManagerStart; Boot.Sleep 2; Boot.ManagerStop],
     Boot.Throw (Boot.Exception "POSTGRESQL_WALLET_PORT must be set.")).
Proof.
  apply (bad_configuration_calls_no_client Boot.incomplete_environ "holder" "verifier"
           Boot.answering_client false
           (Boot.Exception "POSTGRESQL_WALLET_PORT must be set.")).
  left. reflexivity.
Defined.
